(** * Sign-number extraction: a shallow embedding of the extraction core

    The functions below are transcribed from
    [src/extraction/color_based_extraction.py],
    [src/extraction/pdf_text_extraction.py],
    [src/extraction/extract_atl06.py] and
    [src/extraction/extract_multiple_pdfs.py].

    Conventions of the embedding:
    - Python [int] is [Z]; a Python [float] is the rational [Q] it
      denotes (no NaN, no infinities);
    - the averaged confidence of a reading and the offsets of two signs,
      which the program compares against thirty and against the grouping
      threshold, are computed in binary64 arithmetic: every operation
      rounds its exact result to the nearest float ([Binary64.fl]), [sum]
      adding from left to right as CPython does up to version 3.11; the
      other float expressions (pixel ratios, page percentages) are computed
      exactly;
    - Python [str] is [string], a character being a code point below 256;
    - a Python exception is an explicit error value ([None] or [inl]);
    - mutable loop state (lists that grow, the [used] set) is passed
      explicitly from one iteration to the next;
    - calls into OpenCV, PyMuPDF and the recognition engine are inputs: the
      boxes found, the page's text layer, and the engine as a function that
      may raise.

    Part I holds the embedding and the definitions the properties are
    stated with; Part II holds the properties. *)

From Stdlib Require Import ZArith QArith Qround Qabs Qpower Lia Lqa Bool Ascii.
From Stdlib Require DecimalString Floats.
From stdpp Require Import base list gmap strings sorting.

#[local] Set Warnings "-clear-no-such-hyp".

Local Open Scope Z_scope.

(** * Part I: the embedding *)

(** ** Numeric builtins *)

Module PyNum.

Definition Qlt_bool (a b : Q) : bool := negb (Qle_bool b a).

(** [round(q)] with one argument: nearest integer, ties to the even one. *)
Definition py_round (q : Q) : Z :=
  let f := Qfloor q in
  match Qcompare (q - inject_Z f) (1 # 2) with
  | Lt => f
  | Gt => f + 1
  | Eq => if Z.even f then f else f + 1
  end.

(** [int(q)]: truncation towards zero. *)
Definition py_int (q : Q) : Z :=
  if Qle_bool 0 q then Qfloor q else Qceiling q.

(** [range(n)] *)
Definition py_range (n : Z) : list Z :=
  map Z.of_nat (seq 0 (Z.to_nat n)).

(** [round(q, 2)]: [q] rounded to two decimals. *)
Definition round2 (q : Q) : Q :=
  inject_Z (py_round (q * 100)) / 100.

End PyNum.
Import PyNum.

(** ** Float arithmetic *)

Module Binary64.

(** A float is the rational it denotes.  Floats have 53 significant bits
    and exponents from -1074 up; a result beyond the largest float is kept
    as the finite value it rounds to. *)

Definition pow2 (e : Z) : Q := (2 ^ e)%Q.

(** The integer part of the binary logarithm of a positive rational. *)
Definition ilog2 (q : Q) : Z :=
  let k := Z.log2 (Qnum q) - Z.log2 (Z.pos (Qden q)) in
  if Qle_bool (pow2 k) q then k else k - 1.

(** The exponent of the last significant bit of the float nearest to a
    positive rational. *)
Definition exponent (q : Q) : Z := Z.max (-1074) (ilog2 q - 52).

(** The multiple of [pow2 (exponent q)] nearest to a positive [q], ties
    going to the even multiple. *)
Definition nearest (q : Q) : Q :=
  let e := exponent q in (inject_Z (py_round (q / pow2 e)) * pow2 e)%Q.

(** The float nearest to [q]: what a float operation returns for the exact
    result [q], and the float a decimal literal or [float(...)] denotes. *)
Definition fl (q : Q) : Q :=
  Qred match Qcompare q 0 with
       | Eq => 0
       | Gt => nearest q
       | Lt => - nearest (- q)
       end%Q.

(** [a + b], [a - b], [a * b] and [a / b] on floats. *)
Definition fadd (a b : Q) : Q := fl (a + b).
Definition fsub (a b : Q) : Q := fl (a - b).
Definition fmul (a b : Q) : Q := fl (a * b).
Definition fdiv (a b : Q) : Q := fl (a / b).

(** The float an [int] operand is converted to. *)
Definition of_int (z : Z) : Q := fl (inject_Z z).

(** *** The machine's floats, to compare [fl] with *)

(** The rational a binary64 number of the proof assistant denotes. *)
Definition of_spec_float (f : SpecFloat.spec_float) : option Q :=
  match f with
  | SpecFloat.S754_zero _ => Some 0%Q
  | SpecFloat.S754_finite s m e =>
      Some (Qred ((if s then -1 else 1) * inject_Z (Z.pos m) * pow2 e))
  | _ => None
  end.

Definition machine_value (f : PrimFloat.float) : option Q :=
  of_spec_float (FloatOps.Prim2SF f).

(** The machine float nearest to [n / d], for two naturals below
    [2 ^ 53]: the machine's quotient of two floats that hold them. *)
Definition machine (n d : Z) : PrimFloat.float :=
  PrimFloat.div (PrimFloat.of_uint63 (Uint63.of_Z n))
                (PrimFloat.of_uint63 (Uint63.of_Z d)).

End Binary64.
Import Binary64.

(** ** String builtins *)

Module PyStr.

Local Open Scope string_scope.
Local Open Scope nat_scope.

Definition code (c : ascii) : nat := nat_of_ascii c.

Definition between (lo hi : nat) (c : ascii) : bool :=
  (lo <=? code c) && (code c <=? hi).

(** [str.isspace] on code points below 256. *)
Definition is_space (c : ascii) : bool :=
  between 9 13 c || between 28 32 c || (code c =? 133) || (code c =? 160).

(** [str.isdigit] on code points below 256: the ASCII digits and the
    superscripts one, two and three. *)
Definition is_digit (c : ascii) : bool :=
  between 48 57 c || (code c =? 178) || (code c =? 179) || (code c =? 185).

(** The regular-expression class [\d] on code points below 256. *)
Definition is_decimal (c : ascii) : bool := between 48 57 c.

Definition is_char (d c : ascii) : bool := Ascii.eqb c d.

Fixpoint lstrip_by (p : ascii -> bool) (s : string) : string :=
  match s with
  | EmptyString => EmptyString
  | String c s' => if p c then lstrip_by p s' else s
  end.

Fixpoint rstrip_by (p : ascii -> bool) (s : string) : string :=
  match s with
  | EmptyString => EmptyString
  | String c s' =>
      match rstrip_by p s' with
      | EmptyString => if p c then EmptyString else String c EmptyString
      | r => String c r
      end
  end.

(** [s.strip()] *)
Definition py_strip (s : string) : string :=
  rstrip_by is_space (lstrip_by is_space s).

(** [s.strip(c)] for a one-character argument. *)
Definition py_strip_char (d : ascii) (s : string) : string :=
  rstrip_by (is_char d) (lstrip_by (is_char d) s).

(** [s.split(sep)] for a one-character separator. *)
Fixpoint py_split (sep : ascii) (s : string) : list string :=
  match s with
  | EmptyString => [EmptyString]
  | String c s' =>
      if Ascii.eqb c sep then EmptyString :: py_split sep s'
      else match py_split sep s' with
           | h :: t => String c h :: t
           | [] => [String c EmptyString]
           end
  end.

(** [any(p(c) for c in s)] *)
Fixpoint any_char (p : ascii -> bool) (s : string) : bool :=
  match s with
  | EmptyString => false
  | String c s' => p c || any_char p s'
  end.

Fixpoint all_char (p : ascii -> bool) (s : string) : bool :=
  match s with
  | EmptyString => true
  | String c s' => p c && all_char p s'
  end.

(** [c in s] *)
Definition contains (d : ascii) (s : string) : bool := any_char (is_char d) s.

Fixpoint count_char (d : ascii) (s : string) : nat :=
  match s with
  | EmptyString => 0
  | String c s' => (if Ascii.eqb c d then 1 else 0) + count_char d s'
  end.

(** truthiness of a string *)
Definition nonempty (s : string) : bool :=
  match s with EmptyString => false | _ => true end.

(** [s.startswith(p)] *)
Fixpoint startswith (s p : string) {struct p} : bool :=
  match p with
  | EmptyString => true
  | String a p' =>
      match s with
      | EmptyString => false
      | String b s' => Ascii.eqb b a && startswith s' p'
      end
  end.

(** [str(n)] for a natural number. *)
Definition str_of_nat (n : nat) : string :=
  DecimalString.NilZero.string_of_uint (Nat.to_uint n).

Definition dot : ascii := "."%char.
Definition newline : ascii := "010"%char.

End PyStr.

(** ** Stacked-box splitter ([ColorBasedSignExtractor.detect_stacked_boxes]) *)

Module Splitter.

(** A pixel rectangle [(x, y, w, h)]. *)
Definition box : Type := Z * Z * Z * Z.

Definition STANDARD_SIGN_HEIGHT_PIXELS : Z := 40.

(** [detect_stacked_boxes].  [None] is the [ZeroDivisionError] of
    [h / standard_height] for a zero standard height. *)
Definition detect_stacked_boxes (b : box) (standard_height : Z)
  : option (list box) :=
  let '(x, y, w, h) := b in
  if Qlt_bool (inject_Z standard_height * (3 # 2)) (inject_Z h) then
    if standard_height =? 0 then None
    else
      let stack_count := py_round (inject_Z h / inject_Z standard_height) in
      if 1 <? stack_count then
        let individual_height := (inject_Z h / inject_Z stack_count)%Q in
        Some (map (fun i : Z =>
                     (x,
                      py_int (inject_Z y + inject_Z i * individual_height),
                      w,
                      py_int individual_height))
                  (py_range stack_count))
      else Some [b]
  else Some [b].

(** *** What the splitter is expected to return *)

(** The rows a box of [k] stacked signs of height [s] is cut into. *)
Definition rows (x y w s : Z) (k : Z) : list box :=
  map (fun i : Z => (x, y + i * s, w, s)) (py_range k).

Definition box_x (b : box) : Z := b.1.1.1.
Definition box_y (b : box) : Z := b.1.1.2.
Definition box_w (b : box) : Z := b.1.2.
Definition box_h (b : box) : Z := b.2.

(** Consecutive rectangles touch: each starts where the previous one ends. *)
Fixpoint contiguous_from (top : Z) (bs : list box) : Prop :=
  match bs with
  | [] => True
  | b :: bs' => box_y b = top /\ contiguous_from (top + box_h b) bs'
  end.

Definition total_height (bs : list box) : Z :=
  foldr (fun b acc => box_h b + acc) 0 bs.

End Splitter.

(** ** OCR ensemble extractor ([ColorBasedSignExtractor.extract_sign_number],
       [_clean_sign_number], [process_image]) *)

Module Ocr.

Import PyStr.
Export Splitter.

(** The four preprocessed images of a box and the two layout modes. *)
Inductive preprocess : Type := otsu | otsu_inv | clahe | clahe_inv.

Definition preprocessed_images : list preprocess :=
  [otsu; otsu_inv; clahe; clahe_inv].

Definition psm_modes : list Z := [8; 11].

Inductive exn : Type :=
| TesseractError (msg : string)
| ValueError
| ZeroDivisionError.

(** An entry of [data['conf']]: a string or a number, as the engine's
    binding delivers it. *)
Inductive conf_value : Type :=
| conf_str (s : string)
| conf_num (q : Q).

Record ocr_result : Type := mk_result {
  text : string;
  confidence : Q;
  psm : Z;
  preprocess_name : preprocess
}.

(** *** The crop region *)

(** The slice bounds [(x_start, y_start, x_end, y_end)] of
    [roi = image[y_start:y_end, x_start:x_end]] for an image of
    [image_width] columns and [image_height] rows. *)
Definition crop_region (image_width image_height : Z) (bbox : box)
  : Z * Z * Z * Z :=
  let '(x, y, w, h) := bbox in
  let vertical_padding := 50 in
  let horizontal_padding := 20 in
  let x_start := Z.max 0 (x - horizontal_padding) in
  let y_start := Z.max 0 (y - vertical_padding) in
  let x_end := Z.min image_width (x + w + horizontal_padding) in
  let y_end := Z.min image_height (y + h + 10) in
  (x_start, y_start, x_end, y_end).

(** *** State, exceptions and the engine *)

Inductive engine_fn : Type := fn_image_to_string | fn_image_to_data.

(** One invocation of the engine: which entry point, on which preprocessed
    crop of which box, in which layout mode. *)
Record call : Type := mk_call {
  call_fn : engine_fn;
  call_box : box;
  call_img : preprocess;
  call_psm : Z
}.

(** [results] is the list the loop appends to; [trace] is a ghost record of
    the engine invocations made so far. *)
Record state : Type := mk_state {
  results : list ocr_result;
  trace : list call
}.

(** A computation either raises or returns; the state it leaves behind
    survives an exception, as mutations do in Python. *)
Definition M (A : Type) : Type := state -> (exn + A) * state.

Definition ret {A} (a : A) : M A := fun s => (inr a, s).

Definition bind {A B} (m : M A) (k : A -> M B) : M B :=
  fun s => match m s with
           | (inl e, s') => (inl e, s')
           | (inr a, s') => k a s'
           end.

Definition raise {A} (e : exn) : M A := fun s => (inl e, s).

Definition lift {A} (r : exn + A) : M A := fun s => (r, s).

(** [try: body  except Exception as e: handler] *)
Definition try_except (body : M unit) (handler : exn -> M unit) : M unit :=
  fun s => match body s with
           | (inl e, s') => handler e s'
           | (inr u, s') => (inr u, s')
           end.

Declare Scope py_scope.
Delimit Scope py_scope with py.
Notation "x <- m ;; k" := (bind m (fun x => k))
  (at level 100, m at next level, right associativity) : py_scope.
Notation "m ;; k" := (bind m (fun _ => k))
  (at level 100, right associativity) : py_scope.
Local Open Scope py_scope.

Fixpoint for_each {A} (l : list A) (body : A -> M unit) : M unit :=
  match l with
  | [] => ret tt
  | a :: l' => body a ;; for_each l' body
  end.

Definition get_results : M (list ocr_result) := fun s => (inr (results s), s).

Definition set_results (rs : list ocr_result) : M unit :=
  fun s => (inr tt, mk_state rs (trace s)).

Definition append_result (r : ocr_result) : M unit :=
  fun s => (inr tt, mk_state (results s ++ [r]) (trace s)).

(** *** Cleaning and scoring *)

(** [_clean_sign_number] *)
Definition _clean_sign_number (text : string) : string :=
  let text := py_strip_char dot text in
  if any_char is_digit text then
    let parts := py_split dot text in
    if (length parts <=? 2)%nat then text else ""%string
  else ""%string.

(** [c != '-1'] *)
Definition not_minus_one (c : conf_value) : bool :=
  match c with
  | conf_str s => negb (String.eqb s "-1"%string)
  | conf_num _ => true
  end.

(** [sum(l)] on floats: left to right, from zero, every addition rounded. *)
Definition py_sum (l : list Q) : Q := foldl fadd 0%Q l.

(** [sum(l) / len(l) if l else 0] *)
Definition average (l : list Q) : Q :=
  match l with
  | [] => 0%Q
  | _ => fdiv (py_sum l) (of_int (Z.of_nat (length l)))
  end.

(** [key(a) > key(b)] for the key [(confidence, len(text))]: tuples compare
    at the first component that differs. *)
Definition key_gt (a b : ocr_result) : bool :=
  if Qeq_bool (confidence a) (confidence b)
  then (String.length (text b) <? String.length (text a))%nat
  else Qlt_bool (confidence b) (confidence a).

(** [max(results, key=...)] on a non-empty list: the first maximal element. *)
Fixpoint py_max_from (best : ocr_result) (l : list ocr_result) : ocr_result :=
  match l with
  | [] => best
  | r :: l' => py_max_from (if key_gt r best then r else best) l'
  end.

Section WithEngine.

(** The recognition engine, per preprocessed crop and layout mode; [inl] is
    an exception thrown by the engine. *)
Variable image_to_string : box -> preprocess -> Z -> exn + string.
Variable image_to_data : box -> preprocess -> Z -> exn + list conf_value.

(** The number a string spells for [float(s)]; [None] is its
    [ValueError]. *)
Variable py_float : string -> option Q.

Definition call_image_to_string (b : box) (img : preprocess) (m : Z)
  : M string :=
  fun s => (image_to_string b img m,
            mk_state (results s)
                     (trace s ++ [mk_call fn_image_to_string b img m])).

Definition call_image_to_data (b : box) (img : preprocess) (m : Z)
  : M (list conf_value) :=
  fun s => (image_to_data b img m,
            mk_state (results s)
                     (trace s ++ [mk_call fn_image_to_data b img m])).

(** [float(c)]: the float nearest to the number, or to the number the
    string spells. *)
Definition to_float (c : conf_value) : exn + Q :=
  match c with
  | conf_num q => inr (fl q)
  | conf_str s => match py_float s with
                  | Some q => inr (fl q)
                  | None => inl ValueError
                  end
  end.

(** [[float(c) for c in conf if c != '-1']] *)
Fixpoint confidences_of (conf : list conf_value) : exn + list Q :=
  match conf with
  | [] => inr []
  | c :: rest =>
      if not_minus_one c then
        match to_float c with
        | inl e => inl e
        | inr q => match confidences_of rest with
                   | inl e => inl e
                   | inr qs => inr (q :: qs)
                   end
        end
      else confidences_of rest
  end.

(** The body of the [try] block for one combination. *)
Definition attempt (b : box) (img : preprocess) (m : Z) : M unit :=
  raw <- call_image_to_string b img m ;;
  let text := py_strip raw in
  if nonempty text then
    let text := _clean_sign_number text in
    if nonempty text && (3 <=? String.length text)%nat then
      data <- call_image_to_data b img m ;;
      confidences <- lift (confidences_of data) ;;
      let avg_conf := average confidences in
      if Qlt_bool 30 avg_conf then
        append_result (mk_result text avg_conf m img)
      else ret tt
    else ret tt
  else ret tt.

(** The two nested loops; the handler only logs. *)
Definition ocr_loop (b : box) : M unit :=
  for_each preprocessed_images (fun img =>
    for_each psm_modes (fun m =>
      try_except (attempt b img m) (fun _ => ret tt))).

(** [extract_sign_number], from the loops on. *)
Definition extract_sign_number (b : box) : M (option ocr_result) :=
  set_results [] ;;
  ocr_loop b ;;
  results <- get_results ;;
  match results with
  | [] => ret None
  | r :: rs => ret (Some (py_max_from r rs))
  end.

(** *** Detections *)

Record SignDetection : Type := mk_detection {
  sign_number : string;
  x_percentage : Q;
  y_percentage : Q;
  width_percentage : Q;
  height_percentage : Q;
  det_confidence : Q
}.

(** [(v / dim) * 100] for an integer [dim]. *)
Definition percent_of (v : Q) (dim : Z) : M Q :=
  if dim =? 0 then raise ZeroDivisionError
  else ret (v / inject_Z dim * 100)%Q.

Definition make_detection (width height : Z) (b : box) (r : ocr_result)
  : M SignDetection :=
  let '(x, y, w, h) := b in
  let x_center := (inject_Z x + inject_Z w / 2)%Q in
  let y_center := (inject_Z y + inject_Z h / 2)%Q in
  xp <- percent_of x_center width ;;
  yp <- percent_of y_center height ;;
  wp <- percent_of (inject_Z w) width ;;
  hp <- percent_of (inject_Z h) height ;;
  ret (mk_detection (text r) xp yp wp hp (confidence r)).

(** The loop of [process_image] over the detected boxes. *)
Fixpoint process_boxes (width height : Z) (boxes : list box)
  (detections : list SignDetection) : M (list SignDetection) :=
  match boxes with
  | [] => ret detections
  | b :: rest =>
      ocr_result <- extract_sign_number b ;;
      match ocr_result with
      | Some r =>
          detection <- make_detection width height b r ;;
          process_boxes width height rest (detections ++ [detection])
      | None => process_boxes width height rest detections
      end
  end.

(** [process_image], given the boxes [detect_color_boxes] found. *)
Definition process_image (width height : Z) (boxes : list box)
  : M (list SignDetection * list box) :=
  detections <- process_boxes width height boxes [] ;;
  ret (detections, boxes).

End WithEngine.

(** [SignDetection.to_dict]: the [bbox] entry. *)
Definition to_dict_bbox (d : SignDetection) : Q * Q * Q * Q :=
  (round2 (x_percentage d), round2 (y_percentage d),
   round2 (width_percentage d), round2 (height_percentage d)).

(** *** The crop region, as specified *)

Definition clamp (lo hi v : Z) : Z := Z.max lo (Z.min hi v).

(** The region the specification describes: fifty pixels above, twenty on
    either side, nothing below, every edge clamped to the page. *)
Definition claimed_region (image_width image_height : Z) (bbox : box)
  : Z * Z * Z * Z :=
  let '(x, y, w, h) := bbox in
  (clamp 0 image_width (x - 20), clamp 0 image_height (y - 50),
   clamp 0 image_width (x + w + 20), clamp 0 image_height (y + h)).

(** A box that lies within the image, as [cv2.boundingRect] returns them. *)
Definition inside_image (image_width image_height : Z) (bbox : box) : Prop :=
  let '(x, y, w, h) := bbox in
  0 <= x /\ 0 <= y /\ 0 <= w /\ 0 <= h
  /\ x + w <= image_width /\ y + h <= image_height.

(** *** The ensemble, as specified *)

(** The text of a combination: the engine's output without surrounding
    whitespace, then without leading and trailing periods. *)
Definition trimmed (raw : string) : string :=
  py_strip_char dot (py_strip raw).

(** At least one digit, at most one period, at least three characters. *)
Definition acceptable (t : string) : bool :=
  any_char is_digit t
  && (count_char dot t <=? 1)%nat
  && (3 <=? String.length t)%nat.

Definition combinations : list (preprocess * Z) :=
  list_prod preprocessed_images psm_modes.

(** [(confidence, length)] of [a] is lexicographically at most that of [r]. *)
Definition key_le (a r : ocr_result) : Prop :=
  (confidence a < confidence r)%Q
  \/ ((confidence a == confidence r)%Q
      /\ (String.length (text a) <= String.length (text r))%nat).

(** The combinations a trace shows to have been attempted on a box. *)
Definition attempted (t : list call) : list (box * (preprocess * Z)) :=
  omap (fun c => match call_fn c with
                 | fn_image_to_string => Some (call_box c, (call_img c, call_psm c))
                 | fn_image_to_data => None
                 end) t.

(** What [extract_sign_number] returns from the collected results. *)
Definition choose (l : list ocr_result) : option ocr_result :=
  match l with
  | [] => None
  | r :: rs => Some (py_max_from r rs)
  end.

(** The detection [process_image] builds from a box and its reading. *)
Definition detection_of (width height : Z) (b : box) (r : ocr_result)
  : SignDetection :=
  let '(x, y, w, h) := b in
  mk_detection (text r)
    ((inject_Z x + inject_Z w / 2) / inject_Z width * 100)%Q
    ((inject_Z y + inject_Z h / 2) / inject_Z height * 100)%Q
    (inject_Z w / inject_Z width * 100)%Q
    (inject_Z h / inject_Z height * 100)%Q
    (confidence r).

Section EnsembleSpec.

Variable image_to_string : box -> preprocess -> Z -> exn + string.
Variable image_to_data : box -> preprocess -> Z -> exn + list conf_value.
Variable py_float : string -> option Q.

(** The averaged confidence of a combination, when the engine delivers one. *)
Definition scored (b : box) (img : preprocess) (m : Z) : option Q :=
  match image_to_data b img m with
  | inl _ => None
  | inr data => match confidences_of py_float data with
                | inl _ => None
                | inr cs => Some (average cs)
                end
  end.

(** A combination survives when its text is acceptable and its averaged
    confidence exceeds thirty. *)
Definition candidate (b : box) (img : preprocess) (m : Z) : option ocr_result :=
  match image_to_string b img m with
  | inl _ => None
  | inr raw =>
      if acceptable (trimmed raw) then
        match scored b img m with
        | Some c => if Qlt_bool 30 c
                    then Some (mk_result (trimmed raw) c m img)
                    else None
        | None => None
        end
      else None
  end.

Definition survivors (b : box) : list ocr_result :=
  omap (fun c : preprocess * Z => candidate b c.1 c.2) combinations.

(** The engine invocations one combination makes. *)
Definition calls_of (b : box) (c : preprocess * Z) : list call :=
  mk_call fn_image_to_string b c.1 c.2 ::
  match image_to_string b c.1 c.2 with
  | inr raw => if acceptable (trimmed raw)
               then [mk_call fn_image_to_data b c.1 c.2]
               else []
  | inl _ => []
  end.

(** The state one guarded combination leaves behind. *)
Definition after (b : box) (c : preprocess * Z) (s : state) : state :=
  mk_state (results s ++ option_list (candidate b c.1 c.2))
           (trace s ++ calls_of b c).

Definition detect_box (width height : Z) (b : box) : option SignDetection :=
  detection_of width height b <$> choose (survivors b).

End EnsembleSpec.

(** *** A sample engine: it throws on the plain Otsu image, reads a label on
    the inverted one and nothing elsewhere. *)

Definition sample_image_to_string (b : box) (img : preprocess) (m : Z)
  : exn + string :=
  match img with
  | otsu => inl (TesseractError "tesseract failed")
  | otsu_inv => inr (if m =? 8 then " .2001. "%string else "20"%string)
  | _ => inr ""%string
  end.

Definition sample_image_to_data (b : box) (img : preprocess) (m : Z)
  : exn + list conf_value :=
  inr [conf_str "-1"; conf_num 88; conf_num 92].

Definition sample_float (s : string) : option Q := None.

(** *** A second engine: it reads one label, with six confidences whose
    decimals average to thirty exactly. *)

Definition borderline_image_to_string (b : box) (img : preprocess) (m : Z)
  : exn + string :=
  match img with
  | otsu => inr (if m =? 8 then "2001"%string else ""%string)
  | _ => inr ""%string
  end.

Definition borderline_image_to_data (b : box) (img : preprocess) (m : Z)
  : exn + list conf_value :=
  inr [conf_num (301 # 10); conf_num (301 # 10); conf_num (301 # 10);
       conf_num (299 # 10); conf_num (299 # 10); conf_num (299 # 10)].

End Ocr.

(** ** Survival of a combination, as the specification words it *)

Module Survival.

Import Ocr.

(** The characters [str.strip] removes: tab to carriage return, the four
    separators, the space, next-line and the no-break space. *)
Definition blank (c : ascii) : Prop :=
  nat_of_ascii c ∈ [9; 10; 11; 12; 13; 28; 29; 30; 31; 32; 133; 160]%nat.

Definition period (c : ascii) : Prop := c = "."%char.

(** The characters that count as digits: [0] to [9] and the superscripts
    two, three and one. *)
Definition digit (c : ascii) : Prop :=
  nat_of_ascii c ∈ [48; 49; 50; 51; 52; 53; 54; 55; 56; 57; 178; 179; 185]%nat.

(** [t] is [s] without the characters of class [P] at its two ends: what
    was cut off on either side is of the class, and [t] neither starts nor
    ends with a character of the class. *)
Definition trimmed_of (P : ascii -> Prop) (s t : string) : Prop :=
  exists pre post : string,
    s = (pre +:+ t +:+ post)%string
    /\ Forall P (String.list_ascii_of_string pre)
    /\ Forall P (String.list_ascii_of_string post)
    /\ (forall c, String.get 0 t = Some c -> ~ P c)
    /\ (forall c, String.get (String.length t - 1) t = Some c -> ~ P c).

Definition has_digit (t : string) : Prop :=
  Exists digit (String.list_ascii_of_string t).

(** The number of periods of a text. *)
Definition periods (t : string) : nat :=
  length (filter (fun c : ascii => c = "."%char) (String.list_ascii_of_string t)).

(** The confidences added one after the other, each addition rounded. *)
Fixpoint total (acc : Q) (cs : list Q) : Q :=
  match cs with
  | [] => acc
  | c :: cs' => total (fl (acc + c)) cs'
  end.

(** The averaged confidence: the total divided by the number of
    confidences, in float arithmetic. *)
Definition mean (cs : list Q) : Q :=
  fl (total 0 cs / fl (inject_Z (Z.of_nat (length cs)))).

Section Engine.

Variable image_to_string : box -> preprocess -> Z -> exn + string.
Variable image_to_data : box -> preprocess -> Z -> exn + list conf_value.
Variable py_float : string -> option Q.

(** The float an entry of the engine's data stands for: the float nearest
    to the number it is, or to the number it spells. *)
Definition value_of (c : conf_value) (q : Q) : Prop :=
  match c with
  | conf_num x => q = fl x
  | conf_str s => exists x : Q, py_float s = Some x /\ q = fl x
  end.

(** The confidences the engine reports: the entries of its data other
    than the marker ['-1'], as floats, in order. *)
Inductive reported : list conf_value -> list Q -> Prop :=
| reported_nil : reported [] []
| reported_marker (data : list conf_value) (cs : list Q) :
    reported data cs -> reported (conf_str "-1" :: data) cs
| reported_value (c : conf_value) (q : Q) (data : list conf_value)
    (cs : list Q) :
    c <> conf_str "-1" -> value_of c q ->
    reported data cs -> reported (c :: data) (q :: cs).

(** The combination of a preprocessed image and a layout mode survives
    with the reading [r]: the engine's text, trimmed of surrounding blanks
    and then of leading and trailing periods, has a digit, at most one
    period and at least three characters, and the confidences the engine
    reports for it average above thirty. *)
Definition survives (b : box) (img : preprocess) (m : Z) (r : ocr_result)
  : Prop :=
  exists (raw stripped t : string) (data : list conf_value) (cs : list Q),
    image_to_string b img m = inr raw
    /\ trimmed_of blank raw stripped
    /\ trimmed_of period stripped t
    /\ has_digit t /\ (periods t <= 1)%nat /\ (3 <= String.length t)%nat
    /\ image_to_data b img m = inr data
    /\ reported data cs
    /\ cs <> []
    /\ (30 < mean cs)%Q
    /\ r = mk_result t (mean cs) m img.

End Engine.

End Survival.

(** ** Embedded-text extractor ([PDFTextExtractor.extract_signs_from_page]) *)

Module PdfText.

Import PyStr.

(** *** The label pattern *)

(** The text without one final newline, where [$] is allowed to match. *)
Fixpoint chomp (s : string) : string :=
  match s with
  | EmptyString => EmptyString
  | String c EmptyString => if Ascii.eqb c newline then EmptyString else s
  | String c s' => String c (chomp s')
  end.

(** The whole of [s] is four decimals, optionally followed by a period and
    one or more decimals. *)
Definition fullmatch (s : string) : bool :=
  match s with
  | String a (String b (String c (String d rest))) =>
      is_decimal a && is_decimal b && is_decimal c && is_decimal d
      && match rest with
         | EmptyString => true
         | String p frac =>
             Ascii.eqb p dot && nonempty frac && all_char is_decimal frac
         end
  | _ => false
  end.

(** [SIGN_PATTERN.match(s)] for [SIGN_PATTERN = ^(\d{4}(?:\.\d+)?)$]:
    [Some] of group 1 on a match. *)
Definition SIGN_PATTERN_match (s : string) : option string :=
  let body := chomp s in
  if fullmatch body then Some body else None.

Definition HOTSPOT_EXPANSION : Q := 3 # 10.

(** *** The page's text layer, as PyMuPDF hands it over *)

(** An entry of [line["spans"]]. *)
Record span : Type := mk_span {
  span_text : string;
  span_bbox : Q * Q * Q * Q
}.

Record line : Type := mk_line { spans : list span }.

(** An entry of [page.get_text("dict")["blocks"]]. *)
Record block : Type := mk_block {
  block_type : Z;
  lines : list line
}.

(** An entry of [page.get_text("blocks")]:
    [(x0, y0, x1, y1, text, block_no, block_type)]. *)
Record text_block : Type := mk_text_block {
  tb_x0 : Q; tb_y0 : Q; tb_x1 : Q; tb_y1 : Q;
  tb_text : string;
  tb_block_no : Z;
  tb_block_type : Z
}.

Record page : Type := mk_page {
  page_width : Q;
  page_height : Q;
  dict_blocks : list block;
  text_blocks : list text_block
}.

Record SignHotspot : Type := mk_sign {
  sign_number : string;
  page_num : Z;
  text_x : Q;
  text_y : Q;
  text_width : Q;
  text_height : Q;
  hotspot_x_percentage : Q;
  hotspot_y_percentage : Q;
  hotspot_width_percentage : Q;
  hotspot_height_percentage : Q
}.

(** [(v / dim) * 100]; [None] is the [ZeroDivisionError] of a zero [dim]. *)
Definition percent_of (v dim : Q) : option Q :=
  if Qeq_bool dim 0 then None else Some (v / dim * 100)%Q.

(** The hotspot computation both walks write out: the text box grown by
    [HOTSPOT_EXPANSION] of its size on every side, as percentages of the
    page. *)
Definition new_sign (pw ph : Q) (number : string) (pnum : Z)
  (tx ty tw th : Q) : option SignHotspot :=
  let expansion_x := (tw * HOTSPOT_EXPANSION)%Q in
  let expansion_y := (th * HOTSPOT_EXPANSION)%Q in
  let hotspot_x := (tx - expansion_x)%Q in
  let hotspot_y := (ty - expansion_y)%Q in
  let hotspot_width := (tw + 2 * expansion_x)%Q in
  let hotspot_height := (th + 2 * expansion_y)%Q in
  hotspot_x_pct ← percent_of hotspot_x pw;
  hotspot_y_pct ← percent_of hotspot_y ph;
  hotspot_width_pct ← percent_of hotspot_width pw;
  hotspot_height_pct ← percent_of hotspot_height ph;
  Some (mk_sign number pnum tx ty tw th
          hotspot_x_pct hotspot_y_pct hotspot_width_pct hotspot_height_pct).

(** A [for] loop whose body may raise, threading the loop's variables. *)
Fixpoint for_loop {A S : Type} (l : list A) (body : A -> S -> option S)
  (s : S) : option S :=
  match l with
  | [] => Some s
  | a :: l' => match body a s with
               | Some s' => for_loop l' body s'
               | None => None
               end
  end.

(** The body of the innermost loop of the structured walk. *)
Definition visit_span (pw ph : Q) (pnum : Z) (sp : span)
  (signs : list SignHotspot) : option (list SignHotspot) :=
  let text := py_strip (span_text sp) in
  match SIGN_PATTERN_match text with
  | Some number =>
      let '(b0, b1, b2, b3) := span_bbox sp in
      let tx := b0 in
      let ty := b1 in
      let tw := (b2 - b0)%Q in
      let th := (b3 - b1)%Q in
      sign ← new_sign pw ph number pnum tx ty tw th;
      Some (signs ++ [sign])
  | None => Some signs
  end.

(** The structured walk: blocks, lines, spans. *)
Definition structured_walk (p : page) (pnum : Z)
  (signs : list SignHotspot) : option (list SignHotspot) :=
  for_loop (dict_blocks p) (fun blk signs =>
    if block_type blk =? 0 then
      for_loop (lines blk) (fun ln signs =>
        for_loop (spans ln) (visit_span (page_width p) (page_height p) pnum)
          signs) signs
    else Some signs) signs.

(** [any(s.sign_number == number for s in signs)] *)
Definition already_found (number : string) (signs : list SignHotspot) : bool :=
  existsb (fun s => String.eqb (sign_number s) number) signs.

(** The body of the inner loop of the fallback walk, for one line of a
    block of [n_lines] lines. *)
Definition visit_line (pw ph : Q) (pnum : Z) (blk : text_block)
  (n_lines : nat) (ln : string) (signs : list SignHotspot)
  : option (list SignHotspot) :=
  let ln := py_strip ln in
  match SIGN_PATTERN_match ln with
  | Some number =>
      if negb (already_found number signs) then
        let tw := (tb_x1 blk - tb_x0 blk)%Q in
        let th := ((tb_y1 blk - tb_y0 blk) / inject_Z (Z.of_nat n_lines))%Q in
        sign ← new_sign pw ph number pnum (tb_x0 blk) (tb_y0 blk) tw th;
        Some (signs ++ [sign])
      else Some signs
  | None => Some signs
  end.

(** The fallback walk over the plain blocks. *)
Definition fallback_walk (p : page) (pnum : Z)
  (signs : list SignHotspot) : option (list SignHotspot) :=
  for_loop (text_blocks p) (fun blk signs =>
    let lns := py_split newline (py_strip (tb_text blk)) in
    for_loop lns
      (visit_line (page_width p) (page_height p) pnum blk (length lns))
      signs) signs.

(** [extract_signs_from_page] *)
Definition extract_signs_from_page (p : page) (pnum : Z)
  : option (list SignHotspot) :=
  signs ← structured_walk p pnum [];
  fallback_walk p pnum signs.

(** [SignHotspot.to_dict]: the [hotspot_bbox] entry. *)
Definition to_dict_hotspot (s : SignHotspot) : Q * Q * Q * Q :=
  (round2 (hotspot_x_percentage s), round2 (hotspot_y_percentage s),
   round2 (hotspot_width_percentage s), round2 (hotspot_height_percentage s)).

Definition labels (signs : list SignHotspot) : list string :=
  map sign_number signs.

(** *** The shape of a label *)

(** Four decimals, optionally a period and one or more decimals. *)
Inductive label_pattern : string -> Prop :=
| label_plain (a b c d : ascii) :
    is_decimal a = true -> is_decimal b = true ->
    is_decimal c = true -> is_decimal d = true ->
    label_pattern (String a (String b (String c (String d EmptyString))))
| label_series (a b c d : ascii) (frac : string) :
    is_decimal a = true -> is_decimal b = true ->
    is_decimal c = true -> is_decimal d = true ->
    frac <> EmptyString -> all_char is_decimal frac = true ->
    label_pattern
      (String a (String b (String c (String d (String dot frac))))).

Definition well_labelled (signs : list SignHotspot) : Prop :=
  Forall (fun s => label_pattern (sign_number s)) signs.

(** *** The fallback walk and labels already found *)

(** The lines the fallback walk examines, block after block. *)
Definition fallback_lines (p : page) : list string :=
  flat_map (fun blk => py_split newline (py_strip (tb_text blk)))
           (text_blocks p).

(** The label of a line, when its trimmed content matches the pattern. *)
Definition line_label (ln : string) : option string :=
  SIGN_PATTERN_match (py_strip ln).

(** The labels of the matching fallback lines, in the order examined. *)
Definition fallback_candidates (p : page) : list string :=
  omap line_label (fallback_lines p).

(** The reading under which a fallback line is kept whenever the structured
    walk did not capture its label, repeated lines included. *)
Definition claimed_labels (p : page) (pnum : Z) : option (list string) :=
  found ← structured_walk p pnum [];
  Some (labels found
        ++ filter (fun n => n ∉ labels found) (fallback_candidates p)).

(** A candidate is kept when its label is not among those seen so far, and
    is then itself seen. *)
Fixpoint keep_new (seen : list string) (cands : list string) : list string :=
  match cands with
  | [] => []
  | n :: rest =>
      if decide (n ∈ seen) then keep_new seen rest
      else n :: keep_new (seen ++ [n]) rest
  end.

(** *** Sample pages *)

(** A page whose text layer carries the runs "2001", "2002", "0000" and
    "20011", one per line, the plain blocks carrying the same text. *)
Definition scenario_page : page :=
  mk_page 612 792
    [mk_block 0
       [mk_line [mk_span "2001" (100, 100, 130, 112)%Q];
        mk_line [mk_span "2002" (100, 120, 130, 132)%Q];
        mk_line [mk_span "0000" (100, 140, 130, 152)%Q];
        mk_line [mk_span "20011" (100, 160, 137, 172)%Q]]]
    [mk_text_block 100 100 137 172
       (String.concat (String newline EmptyString)
          ["2001"; "2002"; "0000"; "20011"]%string) 0 0].

(** A page whose labels are each split over two runs, so that only the
    plain blocks show them whole; the same label is printed twice. *)
Definition split_runs_page : page :=
  mk_page 612 792
    [mk_block 0
       [mk_line [mk_span "20" (100, 100, 115, 112)%Q;
                 mk_span "01" (115, 100, 130, 112)%Q];
        mk_line [mk_span "20" (100, 120, 115, 132)%Q;
                 mk_span "01" (115, 120, 130, 132)%Q]]]
    [mk_text_block 100 100 130 132
       (String.concat (String newline EmptyString) ["2001"; "2001"]%string)
       0 0].

End PdfText.

(** ** Hotspot percentages of both paths *)

Module Geometry.

(** All four entries of a percentage rectangle lie between 0 and 100. *)
Definition in_range (bb : Q * Q * Q * Q) : Prop :=
  let '(x, y, w, h) := bb in
  (0 <= x <= 100 /\ 0 <= y <= 100 /\ 0 <= w <= 100 /\ 0 <= h <= 100)%Q.

(** The text box grown by three tenths of its size on every side lies
    within the page. *)
Definition grown_box_in_page (pw ph tx ty tw th : Q) : Prop :=
  (0 <= tw /\ 0 <= th
   /\ 0 <= tx - (3 # 10) * tw /\ tx + (13 # 10) * tw <= pw
   /\ 0 <= ty - (3 # 10) * th /\ ty + (13 # 10) * th <= ph)%Q.

(** A page with one run that starts near the left edge. *)
Definition margin_page : PdfText.page :=
  PdfText.mk_page 612 792
    [PdfText.mk_block 0
       [PdfText.mk_line [PdfText.mk_span "2001" (5, 100, 45, 112)%Q]]]
    [].

End Geometry.

(** ** Proximity grouper ([PDFTextExtractor.group_nearby_signs]) *)

Module Grouper.

Import PyStr.

(** A sign dictionary of a page's [signs] list: the entries the grouper
    reads, and the two it adds.  The dictionaries of a page are distinct
    objects (each is built by its own [to_dict] call), so a dictionary is
    identified by its position in the list: the [group] list of the source,
    which holds the dictionaries themselves, holds positions here, and
    writing to a dictionary of [group] is writing at that position. *)
Record sign : Type := mk_sign {
  sign_number : string;
  x_percentage : Q;
  y_percentage : Q;
  width_percentage : Q;
  height_percentage : Q;
  group : option string;
  group_size : option nat
}.

(** A page of [results["pages"]]. *)
Record page_data : Type := mk_page_data {
  page : Z;
  signs : list sign
}.

(** [SignHotspot.to_dict], the entries above. *)
Definition to_dict (h : PdfText.SignHotspot) : sign :=
  mk_sign (PdfText.sign_number h)
    (round2 (PdfText.hotspot_x_percentage h))
    (round2 (PdfText.hotspot_y_percentage h))
    (round2 (PdfText.hotspot_width_percentage h))
    (round2 (PdfText.hotspot_height_percentage h))
    None None.

(** [s.split('.')[0]] *)
Definition base_number (s : string) : string :=
  hd EmptyString (py_split dot s).

(** ['.' in s] *)
Definition is_series (s : string) : bool := contains dot s.

(** The float a dictionary entry or the threshold holds for the decimal
    recorded here. *)
Definition held (q : Q) : Q := fl q.

(** The proximity test on a seed and a candidate, in float arithmetic. *)
Definition nearby (distance_threshold : Q) (sign1 sign2 : sign) : bool :=
  let distance_threshold := held distance_threshold in
  let dx := Qabs (fsub (held (x_percentage sign1))
                       (held (x_percentage sign2))) in
  let dy := Qabs (fsub (held (y_percentage sign1))
                       (held (y_percentage sign2))) in
  (Qlt_bool dx distance_threshold
   && Qlt_bool dy (fmul distance_threshold 3))
  || (Qlt_bool dy distance_threshold
      && Qlt_bool dx (fmul distance_threshold 3)).

(** The inner loop, from position [j] on: [group] holds the positions of
    the dictionaries collected so far. *)
Fixpoint collect (distance_threshold : Q) (sign1 : sign) (i : nat)
  (base : string) (j : nat) (rest : list sign)
  (group : list nat) (used : gset nat) : list nat * gset nat :=
  match rest with
  | [] => (group, used)
  | sign2 :: rest' =>
      if bool_decide (j ≠ i) && bool_decide (j ∉ used)
         && startswith (sign_number sign2) (base +:+ ".")
         && nearby distance_threshold sign1 sign2
      then collect distance_threshold sign1 i base (S j) rest'
             (group ++ [j]) ({[j]} ∪ used)
      else collect distance_threshold sign1 i base (S j) rest' group used
  end.

(** [f"{base_number} series ({len(group)} signs)"] *)
Definition group_label (base : string) (n : nat) : string :=
  base +:+ " series (" +:+ str_of_nat n +:+ " signs)".

(** [sign["group"] = label; sign["group_size"] = n] *)
Definition set_group (label : string) (n : nat) (s : sign) : sign :=
  mk_sign (sign_number s) (x_percentage s) (y_percentage s)
    (width_percentage s) (height_percentage s) (Some label) (Some n).

(** [for sign in group: ...] on the dictionaries at the positions [group]. *)
Definition annotate (group : list nat) (label : string) (n : nat)
  (signs : list sign) : list sign :=
  foldl (fun signs idx => alter (set_group label n) idx signs) signs group.

(** One iteration of the outer loop, for the seed at position [i]. *)
Definition visit_seed (distance_threshold : Q) (i : nat)
  (st : list sign * gset nat) : list sign * gset nat :=
  let '(signs, used) := st in
  match signs !! i with
  | None => st
  | Some sign1 =>
      if bool_decide (i ∈ used) then st
      else
        let used := {[i]} ∪ used in
        let base := base_number (sign_number sign1) in
        let '(group, used) :=
          if is_series (sign_number sign1)
          then collect distance_threshold sign1 i base 0 signs [i] used
          else ([i], used) in
        if (1 <? length group)%nat
        then (annotate group (group_label base (length group))
                (length group) signs, used)
        else (signs, used)
  end.

(** The body of the loop over pages, on the page's [signs]. *)
Definition group_page (distance_threshold : Q) (signs : list sign)
  : list sign :=
  if (length signs <? 2)%nat then signs
  else fst (foldl (fun st i => visit_seed distance_threshold i st)
              (signs, ∅) (seq 0 (length signs))).

(** [group_nearby_signs] on [results["pages"]]. *)
Definition group_nearby_signs (distance_threshold : Q)
  (pages : list page_data) : list page_data :=
  map (fun pd => mk_page_data (page pd)
                   (group_page distance_threshold (signs pd))) pages.

Definition default_threshold : Q := 2.

Definition plain (number : string) (x y : Q) : sign :=
  mk_sign number x y 3 1 None None.

(** *** The inner loop, as specified *)

(** The horizontal and the vertical offset of two signs, as floats: the
    absolute value of the rounded difference of the two coordinates. *)
Definition offset_x (sign1 sign2 : sign) : Q :=
  Qabs (fl (fl (x_percentage sign1) - fl (x_percentage sign2))).

Definition offset_y (sign1 sign2 : sign) : Q :=
  Qabs (fl (fl (y_percentage sign1) - fl (y_percentage sign2))).

(** Three times the threshold, as a float. *)
Definition thrice (t : Q) : Q := fl (fl t * 3).

(** The offsets of a candidate from the seed pass the proximity test:
    within the threshold along one axis and within three times the
    threshold along the other. *)
Definition offsets_ok (t : Q) (sign1 sign2 : sign) : Prop :=
  ((offset_x sign1 sign2 < fl t /\ offset_y sign1 sign2 < thrice t)
   \/ (offset_y sign1 sign2 < fl t /\ offset_x sign1 sign2 < thrice t))%Q.

(** The test the inner loop applies to the candidate at a position. *)
Definition admits (t : Q) (sign1 : sign) (i : nat) (base : string)
  (used : gset nat) (j : nat) (sign2 : sign) : Prop :=
  j <> i /\ (j ∉ used)
  /\ startswith (sign_number sign2) (base +:+ ".") = true
  /\ offsets_ok t sign1 sign2.

(** *** Annotations as operations on positions *)

(** What the grouper reads of a sign. *)
Definition key (s : sign) : string * Q * Q :=
  (sign_number s, x_percentage s, y_percentage s).

(** One group's annotation: the positions, the label and the size. *)
Record op : Type := mk_op {
  op_group : list nat;
  op_label : string;
  op_size : nat
}.

Definition apply_op (o : op) (ss : list sign) : list sign :=
  annotate (op_group o) (op_label o) (op_size o) ss.

Definition apply_ops (ops : list op) (ss : list sign) : list sign :=
  foldl (fun ss o => apply_op o ss) ss ops.

(** The effect of a sequence of annotations on the sign at position [k]. *)
Definition elem_op (k : nat) (r : sign) (o : op) : sign :=
  if bool_decide (k ∈ op_group o)
  then set_group (op_label o) (op_size o) r else r.

Definition elem_ops (ops : list op) (k : nat) (r : sign) : sign :=
  foldl (elem_op k) r ops.

(** The last annotation of a sequence that reaches position [k]. *)
Definition last_hit (k : nat) (acc : option op) (ops : list op) : option op :=
  foldl (fun acc o => if bool_decide (k ∈ op_group o) then Some o else acc)
        acc ops.

Definition apply_hit (h : option op) (r : sign) : sign :=
  match h with
  | Some o => set_group (op_label o) (op_size o) r
  | None => r
  end.

End Grouper.

(** ** Box detector ([ColorBasedSignExtractor.detect_color_boxes], from the
       bounding rectangles of the contours on) *)

Module Detector.

Import Splitter.

Definition MIN_BOX_WIDTH_PERCENT : Q := 3 # 10.
Definition MAX_BOX_WIDTH_PERCENT : Q := 5.
Definition MIN_BOX_HEIGHT_PERCENT : Q := 2 # 10.
Definition MAX_BOX_HEIGHT_PERCENT : Q := 3.
Definition MIN_ASPECT_RATIO : Q := 1 # 2.
Definition MAX_ASPECT_RATIO : Q := 3.

(** [lo <= v <= hi] *)
Definition within (lo v hi : Q) : bool := Qle_bool lo v && Qle_bool v hi.

(** The size and shape test on one bounding rectangle; [None] is the
    [ZeroDivisionError] of a zero image dimension. *)
Definition valid_box (width height : Z) (b : box) : option bool :=
  let '(x, y, w, h) := b in
  if width =? 0 then None
  else
    let width_percent := (inject_Z w / inject_Z width * 100)%Q in
    if height =? 0 then None
    else
      let height_percent := (inject_Z h / inject_Z height * 100)%Q in
      if within MIN_BOX_WIDTH_PERCENT width_percent MAX_BOX_WIDTH_PERCENT
         && within MIN_BOX_HEIGHT_PERCENT height_percent MAX_BOX_HEIGHT_PERCENT
      then
        let aspect_ratio :=
          if 0 <? h then (inject_Z w / inject_Z h)%Q else 0%Q in
        Some (within MIN_ASPECT_RATIO aspect_ratio MAX_ASPECT_RATIO)
      else Some false.

(** The first loop: the rectangles that pass the test, in contour order. *)
Definition filter_boxes (width height : Z) (rects : list box)
  : option (list box) :=
  PdfText.for_loop rects (fun (b : box) (valid_boxes : list box) =>
    ok ← valid_box width height b;
    Some (if (ok : bool) then valid_boxes ++ [b] else valid_boxes)) [].

(** The second loop: every valid box is handed to the splitter. *)
Definition split_boxes (valid_boxes : list box) : option (list box) :=
  PdfText.for_loop valid_boxes (fun (b : box) (final_boxes : list box) =>
    split ← detect_stacked_boxes b STANDARD_SIGN_HEIGHT_PIXELS;
    Some (final_boxes ++ split)) [].

(** [detect_color_boxes], given the bounding rectangles of the contours. *)
Definition detect_color_boxes (width height : Z) (rects : list box)
  : option (list box) :=
  valid_boxes ← filter_boxes width height rects;
  split_boxes valid_boxes.

(** *** Shapes of a list of rectangles *)

(** The rectangles follow one another downwards between [top] and
    [bottom]: each starts at or below the end of the one before, none has a
    negative height, and the last ends at or above [bottom]. *)
Fixpoint stacked_within (top bottom : Z) (bs : list box) : Prop :=
  match bs with
  | [] => top <= bottom
  | b :: bs' =>
      top <= box_y b /\ 0 <= box_h b
      /\ stacked_within (box_y b + box_h b) bottom bs'
  end.

(** The [i]-th rectangle of a split into rows of height [ih]. *)
Definition row (x y w : Z) (ih : Q) (i : Z) : box :=
  (x, py_int (inject_Z y + inject_Z i * ih), w, py_int ih).

(** The rectangle passes the size limits of the detector and is not
    degenerate. *)
Definition sized_for (width height : Z) (b : box) : Prop :=
  0 < box_w b /\ 0 < box_h b
  /\ 3 * width <= 1000 * box_w b /\ 20 * box_w b <= width
  /\ 100 * box_h b <= 3 * height.

End Detector.

(** ** The colour pipeline ([ColorBasedSignExtractor.process_image],
    [SignDetection.to_dict], [ColorBasedSignExtractor.process_pdf]) *)

Module Pipeline.

Import Ocr.

Local Open Scope py_scope.

(** A page image as the pipeline uses it: its dimensions and the bounding
    rectangles of the external contours of its colour mask, in the order
    [cv2.findContours] delivers them. *)
Record image : Type := mk_image {
  image_width : Z;
  image_height : Z;
  contour_rects : list box
}.

(** The dictionary [SignDetection.to_dict] builds. *)
Record detection_dict : Type := mk_detection_dict {
  dict_sign_number : string;
  dict_bbox : Q * Q * Q * Q;
  dict_confidence : Q
}.

Definition to_dict (d : SignDetection) : detection_dict :=
  mk_detection_dict (sign_number d) (to_dict_bbox d)
                    (round2 (det_confidence d)).

Record page_results : Type := mk_page_results {
  page : Z;
  signs_detected : Z;
  signs : list detection_dict
}.

Record all_results : Type := mk_all_results {
  source_pdf : string;
  total_signs_detected : Z;
  pages : list page_results
}.

(** [sum] of the per-page counts. *)
Definition count_signs (ps : list page_results) : Z :=
  foldr Z.add 0 (map signs_detected ps).

(** What the pipeline promises of a detection: a label of at least three
    characters with a digit and at most one period, a confidence above
    thirty, a centre strictly inside the page, a width between 0.3% and 5%
    of the page width and a positive height of at most 3% of the page
    height. *)
Definition sound (d : SignDetection) : Prop :=
  acceptable (sign_number d) = true
  /\ (30 < det_confidence d)%Q
  /\ (0 < x_percentage d /\ x_percentage d < 100)%Q
  /\ (0 < y_percentage d /\ y_percentage d < 100)%Q
  /\ ((3 # 10) <= width_percentage d /\ width_percentage d <= 5)%Q
  /\ (0 < height_percentage d /\ height_percentage d <= 3)%Q.

Section WithEngine.

(** The recognition engine, per image. *)
Variable image_to_string : image -> box -> preprocess -> Z -> exn + string.
Variable image_to_data
  : image -> box -> preprocess -> Z -> exn + list conf_value.
Variable py_float : string -> option Q.

(** [boxes = self.detect_color_boxes(image)] *)
Definition detect (im : image) : M (list box) :=
  match Detector.detect_color_boxes (image_width im) (image_height im)
          (contour_rects im) with
  | Some boxes => ret boxes
  | None => raise ZeroDivisionError
  end.

(** [process_image] *)
Definition process_image (im : image)
  : M (list SignDetection * list box) :=
  boxes <- detect im ;;
  Ocr.process_image (image_to_string im) (image_to_data im) py_float
    (image_width im) (image_height im) boxes.

(** The loop of [process_pdf] over [enumerate(images, 1)]; the debug
    branch only writes image files. *)
Fixpoint process_pages (page_num : Z) (images : list image)
  (results : all_results) : M all_results :=
  match images with
  | [] => ret results
  | im :: rest =>
      r <- process_image im ;;
      let detections := r.1 in
      let page_results :=
        mk_page_results page_num (Z.of_nat (length detections))
                        (map to_dict detections) in
      process_pages (page_num + 1) rest
        (mk_all_results (source_pdf results)
           (total_signs_detected results + Z.of_nat (length detections))
           (pages results ++ [page_results]))
  end.

(** [process_pdf], given the basename of the path and the page images. *)
Definition process_pdf (name : string) (images : list image)
  : M all_results :=
  process_pages 1 images (mk_all_results name 0 []).

End WithEngine.

End Pipeline.

(** ** The text layer seen by the embedded-text extractor *)

Module TextLayer.

Import PyStr PdfText.

(** The runs the structured walk examines: the spans of the lines of the
    blocks of type 0, in document order. *)
Definition structured_spans (p : page) : list span :=
  flat_map (fun blk => if block_type blk =? 0
                       then flat_map spans (lines blk) else [])
           (dict_blocks p).

(** The label of a run, when its trimmed text matches the pattern. *)
Definition span_label (sp : span) : option string :=
  SIGN_PATTERN_match (py_strip (span_text sp)).

(** The labels of the matching runs, in the order examined. *)
Definition structured_candidates (p : page) : list string :=
  omap span_label (structured_spans p).

(** The text box a detection records. *)
Definition text_box (s : SignHotspot) : Q * Q * Q * Q :=
  (text_x s, text_y s, text_width s, text_height s).

(** The box of a run: origin, width and height of its [bbox]. *)
Definition span_box (sp : span) : Q * Q * Q * Q :=
  let '(b0, b1, b2, b3) := span_bbox sp in
  (b0, b1, (b2 - b0)%Q, (b3 - b1)%Q).

(** The box the fallback walk gives every line of a plain block: the
    origin and width of the block, and its height divided by its number of
    lines. *)
Definition block_line_box (blk : text_block) : Q * Q * Q * Q :=
  (tb_x0 blk, tb_y0 blk, (tb_x1 blk - tb_x0 blk)%Q,
   ((tb_y1 blk - tb_y0 blk)
    / inject_Z (Z.of_nat (length (py_split newline (py_strip (tb_text blk))))))%Q).

(** The detection stems from a matching run of the structured text. *)
Definition from_span (p : page) (s : SignHotspot) : Prop :=
  exists sp : span,
    sp ∈ structured_spans p
    /\ span_label sp = Some (sign_number s)
    /\ text_box s = span_box sp.

(** The detection stems from a matching line of a plain block. *)
Definition from_block (p : page) (s : SignHotspot) : Prop :=
  exists (blk : text_block) (ln : string),
    blk ∈ text_blocks p
    /\ ln ∈ py_split newline (py_strip (tb_text blk))
    /\ line_label ln = Some (sign_number s)
    /\ text_box s = block_line_box blk.

(** A detection is explained by the page: it carries the page's number and
    a label of the pattern's shape, and stems from a run or from a line of
    a plain block. *)
Definition explained (p : page) (pnum : Z) (s : SignHotspot) : Prop :=
  page_num s = pnum
  /\ label_pattern (sign_number s)
  /\ (from_span p s \/ from_block p s).

(** A page of zero width whose text layer carries one label. *)
Definition flat_page : page :=
  mk_page 0 792
    [mk_block 0 [mk_line [mk_span "2001" (100, 100, 130, 112)%Q]]] [].

End TextLayer.

(** ** The ATL06 extractor ([extract_atl06.extract_text_from_page]) *)

Module Atl06.

Import PyStr PdfText.

(** [SIGN_PATTERN.match(s)] is truthy, for
    [SIGN_PATTERN = ^(\d{4})(?:\.\d+)?$]. *)
Definition SIGN_PATTERN_matches (s : string) : bool := fullmatch (chomp s).

(** The dictionary built for one run. *)
Record sign_data : Type := mk_sign_data {
  sign_number : string;
  text_bbox : Q * Q * Q * Q;
  hotspot_bbox : Q * Q * Q * Q;
  page : Z
}.

(** The body of the innermost loop; [number] is [page.number]. *)
Definition visit_span (pw ph : Q) (number : Z) (sp : span)
  (signs : list sign_data) : option (list sign_data) :=
  let text := py_strip (span_text sp) in
  if SIGN_PATTERN_matches text && negb (String.eqb text "0000") then
    let '(b0, b1, b2, b3) := span_bbox sp in
    x_percentage ← percent_of b0 pw;
    y_percentage ← percent_of b1 ph;
    width_percentage ← percent_of (b2 - b0)%Q pw;
    height_percentage ← percent_of (b3 - b1)%Q ph;
    Some (signs ++ [mk_sign_data text
                      (b0, b1, (b2 - b0)%Q, (b3 - b1)%Q)
                      (round2 x_percentage, round2 y_percentage,
                       round2 width_percentage, round2 height_percentage)
                      (number + 1)])
  else Some signs.

(** The run carries a label other than the literal "0000". *)
Definition reported (sp : span) : bool :=
  match TextLayer.span_label sp with
  | Some n => negb (String.eqb n "0000")
  | None => false
  end.

(** [extract_text_from_page] *)
Definition extract_text_from_page (p : PdfText.page) (number : Z)
  : option (list sign_data) :=
  for_loop (dict_blocks p) (fun blk signs =>
    if block_type blk =? 0 then
      for_loop (lines blk) (fun ln signs =>
        for_loop (spans ln) (visit_span (page_width p) (page_height p) number)
          signs) signs
    else Some signs) [].

End Atl06.

(** ** What the grouper leaves of a page *)

Module Annotations.

Import PyStr Grouper.

(** The entries of a sign dictionary the grouper does not write. *)
Definition content (s : sign) : string * (Q * Q * Q * Q) :=
  (sign_number s,
   (x_percentage s, y_percentage s, width_percentage s, height_percentage s)).

(** The dictionary has neither a [group] nor a [group_size] entry. *)
Definition unannotated (s : sign) : Prop :=
  group s = None /\ group_size s = None.

(** The dictionary is without annotation, or it is a series label
    annotated with the label of its own base number and a size of at least
    two. *)
Definition consistent (s : sign) : Prop :=
  unannotated s
  \/ exists n : nat,
       (2 <= n)%nat
       /\ is_series (sign_number s) = true
       /\ group s = Some (group_label (base_number (sign_number s)) n)
       /\ group_size s = Some n.

(** The positions [g] are a group of [n] signs of the page [out] that holds
    the sign [s] at position [k]: they are pairwise distinct, [k] is one of
    them, and the sign at each carries the group and group size of [s] and
    has its base number. *)
Definition grouped_with (out : list sign) (k : nat) (s : sign) (n : nat)
  (g : list nat) : Prop :=
  NoDup g /\ length g = n /\ k ∈ g
  /\ forall j, j ∈ g ->
       exists sj, out !! j = Some sj
                  /\ group sj = group s
                  /\ group_size sj = Some n
                  /\ base_number (sign_number sj)
                     = base_number (sign_number s).

(** What the outer loop keeps of the page and of the positions used: a sign
    at an unused position has no annotation, and an annotated sign has its
    group among the used positions. *)
Definition settled (out : list sign) (used : gset nat) : Prop :=
  (forall k s, out !! k = Some s -> k ∉ used -> unannotated s)
  /\ (forall k s,
        out !! k = Some s ->
        unannotated s
        \/ exists n g,
             group_size s = Some n
             /\ grouped_with out k s n g
             /\ forall j, j ∈ g -> j ∈ used).

End Annotations.

(** ** The document loop ([PDFTextExtractor.extract_signs_from_pdf]) *)

Module PdfDoc.

(** A page of the results: the entries [extract_signs_from_pdf] writes,
    with the sign dictionaries as the grouper reads them. *)
Record page_results : Type := mk_page_results {
  page : Z;
  page_width : Z;
  page_height : Z;
  signs_detected : Z;
  signs : list Grouper.sign
}.

Record all_results : Type := mk_all_results {
  source_pdf : string;
  total_signs_detected : Z;
  pages : list page_results
}.

(** [sum] of the per-page counts. *)
Definition count_signs (ps : list page_results) : Z :=
  foldr Z.add 0 (map signs_detected ps).

(** The loop over [enumerate(doc, 1)]; [None] is an exception of
    [extract_signs_from_page]. *)
Fixpoint extract_pages (page_num : Z) (doc : list PdfText.page)
  (results : all_results) : option all_results :=
  match doc with
  | [] => Some results
  | pg :: rest =>
      page_signs ← PdfText.extract_signs_from_page pg page_num;
      let page_results :=
        mk_page_results page_num
          (py_round (PdfText.page_width pg))
          (py_round (PdfText.page_height pg))
          (Z.of_nat (length page_signs))
          (map Grouper.to_dict page_signs) in
      extract_pages (page_num + 1) rest
        (mk_all_results (source_pdf results)
           (total_signs_detected results + Z.of_nat (length page_signs))
           (pages results ++ [page_results]))
  end.

(** [group_nearby_signs] on the results: it rewrites the sign dictionaries
    of each page and nothing else. *)
Definition group_nearby_signs (distance_threshold : Q)
  (results : all_results) : all_results :=
  mk_all_results (source_pdf results) (total_signs_detected results)
    (map (fun pr =>
            mk_page_results (page pr) (page_width pr) (page_height pr)
              (signs_detected pr)
              (Grouper.group_page distance_threshold (signs pr)))
         (pages results)).

(** [extract_signs_from_pdf], given the name of the file and its pages. *)
Definition extract_signs_from_pdf (name : string) (doc : list PdfText.page)
  : option all_results :=
  results ← extract_pages 1 doc (mk_all_results name 0 []);
  Some (group_nearby_signs Grouper.default_threshold results).

(** The pages of the results as the grouper sees them. *)
Definition page_data_of (pr : page_results) : Grouper.page_data :=
  Grouper.mk_page_data (page pr) (signs pr).

(** The entry of the results for the page [pg] at index [i]: its number,
    its rounded dimensions, and the dictionaries of its detections [hs],
    annotated. *)
Definition entry_of (i : nat) (pg : PdfText.page)
  (hs : list PdfText.SignHotspot) (pr : page_results) : Prop :=
  page pr = Z.of_nat i + 1
  /\ page_width pr = py_round (PdfText.page_width pg)
  /\ page_height pr = py_round (PdfText.page_height pg)
  /\ signs_detected pr = Z.of_nat (length hs)
  /\ length (signs pr) = length hs
  /\ Annotations.content <$> signs pr
     = Annotations.content <$> (Grouper.to_dict <$> hs)
  /\ Forall Annotations.consistent (signs pr).

End PdfDoc.

(** ** The ATL06 document loop ([extract_atl06.extract_signs_from_atl06]) *)

Module Atl06Doc.

Import Atl06.

(** An entry of [page_results]; its [image_path] is a fixed function of the
    page number. *)
Record page_result : Type := mk_page_result {
  page_number : Z;
  signs_detected : Z;
  signs : list sign_data
}.

(** The four variables the loop updates. *)
Record state : Type := mk_state {
  all_signs : list sign_data;
  pages_with_signs : list Z;
  page_results : list page_result;
  total_signs : Z
}.

(** A page of the document, and whether [save_page_as_png] succeeds on
    it. *)
Record page_input : Type := mk_page_input {
  content : PdfText.page;
  saves : bool
}.

(** [sum] of the per-page counts. *)
Definition count_signs (rs : list page_result) : Z :=
  foldr Z.add 0 (map signs_detected rs).

(** The body of the loop for the page of index [page_num]: an exception
    anywhere in the [try] block ends the iteration, the updates made before
    it remaining. *)
Definition visit_page (page_num : Z) (inp : page_input) (st : state)
  : state :=
  match extract_text_from_page (content inp) page_num with
  | None => st
  | Some page_signs =>
      match page_signs with
      | [] => st
      | _ =>
          let pages_with_signs := pages_with_signs st ++ [page_num + 1] in
          let all_signs := all_signs st ++ page_signs in
          let total_signs :=
            total_signs st + Z.of_nat (length page_signs) in
          if saves inp then
            mk_state all_signs pages_with_signs
              (page_results st
               ++ [mk_page_result (page_num + 1)
                     (Z.of_nat (length page_signs)) page_signs])
              total_signs
          else
            mk_state all_signs pages_with_signs (page_results st) total_signs
      end
  end.

(** [for page_num in range(total_pages)], from [page_num] on. *)
Fixpoint process_pages (page_num : Z) (doc : list page_input) (st : state)
  : state :=
  match doc with
  | [] => st
  | inp :: rest => process_pages (page_num + 1) rest (visit_page page_num inp st)
  end.

(** The state [extract_signs_from_atl06] builds its results from. *)
Definition extract_signs_from_atl06 (doc : list page_input) : state :=
  process_pages 0 doc (mk_state [] [] [] 0).

(** The page of index [i] yields detections. *)
Definition has_signs (doc : list page_input) (i : nat) : Prop :=
  exists (inp : page_input) (page_signs : list sign_data),
    doc !! i = Some inp
    /\ extract_text_from_page (content inp) (Z.of_nat i) = Some page_signs
    /\ page_signs <> [].

(** The page of index [i] yields detections and its image cannot be
    saved. *)
Definition unsaved (doc : list page_input) (i : nat) : Prop :=
  exists (inp : page_input) (page_signs : list sign_data),
    doc !! i = Some inp
    /\ extract_text_from_page (content inp) (Z.of_nat i) = Some page_signs
    /\ page_signs <> []
    /\ saves inp = false.

(** What holds of the four variables after any number of iterations, the
    pages visited so far having indices below [n]. *)
Record accounted (n : Z) (st : state) : Prop := mk_accounted {
  acc_total : total_signs st = Z.of_nat (length (all_signs st));
  acc_count : count_signs (page_results st) <= total_signs st;
  acc_pages : Forall (fun k => 1 <= k <= n) (pages_with_signs st);
  acc_sorted : StronglySorted Z.lt (pages_with_signs st);
  acc_results :
    Forall (fun pr => signs_detected pr = Z.of_nat (length (signs pr))
                      /\ signs pr <> []
                      /\ page_number pr ∈ pages_with_signs st)
           (page_results st)
}.

End Atl06Doc.

(** ** Comparison of several PDFs ([extract_multiple_pdfs.extract_all_pdfs]) *)

Module Compare.

(** [all_signs]: the set of labels of each processed PDF under its id, in
    insertion order; the ids are the keys of a dictionary. *)
Definition sign_sets : Type := list (string * gset string).

(** [a <= b] on strings: code point by code point, a proper prefix first. *)
Definition str_le (a b : string) : Prop := String.leb a b = true.

#[global] Instance str_le_dec : RelDecision str_le :=
  fun a b => decide (String.leb a b = true).

(** [sorted(list(s))] *)
Definition sorted (s : gset string) : list string :=
  merge_sort str_le (elements s).

(** The labels of a PDF's results. *)
Definition labels_of (results : PdfDoc.all_results) : gset string :=
  list_to_set
    (flat_map (fun pr => map Grouper.sign_number (PdfDoc.signs pr))
              (PdfDoc.pages results)).

(** The inner loop over [other_id]: the sets of the other ids are taken
    away one after the other. *)
Definition unique_to (all_signs : sign_sets) (pdf_id : string)
  (own : gset string) : gset string :=
  foldl (fun unique_to_this kv =>
           if negb (String.eqb kv.1 pdf_id)
           then unique_to_this ∖ kv.2 else unique_to_this)
        own all_signs.

Record comparison : Type := mk_comparison {
  common_signs : list string;
  common_count : nat;
  unique_signs : list (string * list string);
  summary : list (string * (nat * nat))
}.

(** The comparison block: [None] when fewer than two PDFs were processed
    and the [comparison] entry stays empty. *)
Definition compare (all_signs : sign_sets) : option comparison :=
  if (2 <=? length all_signs)%nat then
    match all_signs with
    | [] => None
    | first :: others =>
        let common :=
          foldl (fun common kv => common ∩ kv.2) first.2 others in
        let unique_signs :=
          map (fun kv => (kv.1, sorted (unique_to all_signs kv.1 kv.2)))
              all_signs in
        Some (mk_comparison (sorted common) (size common) unique_signs
                (map (fun kv =>
                        (kv.1,
                         (size kv.2,
                          length (sorted (unique_to all_signs kv.1 kv.2)))))
                     all_signs))
    end
  else None.

(** The label sets of two plans that share one label. *)
Definition sample_sets : sign_sets :=
  [("pdf13"%string, {["2001"%string; "2002"%string]});
   ("pdf14"%string, {["2002"%string; "2003"%string]})].

End Compare.

(** ** The loop over the configured PDFs
       ([extract_multiple_pdfs.extract_all_pdfs]) *)

Module AllPdfs.

Import Compare.

(** An entry of [pdfs], with what the file system holds for it: whether
    the path exists, the name of the file, and the pages of the document. *)
Record pdf_config : Type := mk_pdf_config {
  pdf_id : string;
  pdf_name : string;
  on_disk : bool;
  file_name : string;
  document : list PdfText.page
}.

(** An entry of [combined_results['pdfs']]. *)
Record pdf_entry : Type := mk_pdf_entry {
  entry_pdf_id : string;
  entry_pdf_name : string;
  total_signs : Z;
  results : PdfDoc.all_results
}.

Record combined_results : Type := mk_combined_results {
  pdfs : list pdf_entry;
  total_signs_all_pdfs : Z;
  comparison : option Compare.comparison
}.

Inductive error : Type :=
| ExtractionError      (* [extract_signs_from_pdf] raised *)
| UnboundLocalError.   (* [output_dir] read before any assignment *)

(** The variables the loop updates; [output_dir] is assigned in the body
    only, after the [continue] of a missing file. *)
Record state : Type := mk_state {
  combined_pdfs : list pdf_entry;
  combined_total : Z;
  all_signs : sign_sets;
  output_dir_bound : bool
}.

(** [d[k] = v] on a dictionary in insertion order. *)
Definition dict_set (d : sign_sets) (k : string) (v : gset string)
  : sign_sets :=
  if existsb (fun kv => String.eqb kv.1 k) d
  then map (fun kv => if String.eqb kv.1 k then (k, v) else kv) d
  else d ++ [(k, v)].

Fixpoint process_pdfs (configs : list pdf_config) (st : state)
  : error + state :=
  match configs with
  | [] => inr st
  | pdf_config :: rest =>
      if negb (on_disk pdf_config) then process_pdfs rest st
      else
        match PdfDoc.extract_signs_from_pdf (file_name pdf_config)
                (document pdf_config) with
        | None => inl ExtractionError
        | Some results =>
            process_pdfs rest
              (mk_state
                 (combined_pdfs st
                  ++ [mk_pdf_entry (pdf_id pdf_config) (pdf_name pdf_config)
                        (PdfDoc.total_signs_detected results) results])
                 (combined_total st + PdfDoc.total_signs_detected results)
                 (dict_set (all_signs st) (pdf_id pdf_config)
                    (labels_of results))
                 true)
        end
  end.

(** [extract_all_pdfs], for a list of configured PDFs. *)
Definition extract_all_pdfs (configs : list pdf_config)
  : error + combined_results :=
  match process_pdfs configs (mk_state [] 0 [] false) with
  | inl e => inl e
  | inr st =>
      let comparison := compare (all_signs st) in
      if output_dir_bound st
      then inr (mk_combined_results (combined_pdfs st) (combined_total st)
                  comparison)
      else inl UnboundLocalError
  end.

(** [sum] of the totals of the entries. *)
Definition sum_totals (es : list pdf_entry) : Z :=
  foldr Z.add 0 (map total_signs es).

(** The pages of the documents on disk have non-zero dimensions. *)
Definition readable (cfg : pdf_config) : Prop :=
  on_disk cfg = true ->
  Forall (fun pg => ~ (PdfText.page_width pg == 0)%Q
                    /\ ~ (PdfText.page_height pg == 0)%Q) (document cfg).

(** The entry the loop builds for a configured PDF. *)
Definition entry_of (cfg : pdf_config) (e : pdf_entry) : Prop :=
  entry_pdf_id e = pdf_id cfg
  /\ entry_pdf_name e = pdf_name cfg
  /\ PdfDoc.extract_signs_from_pdf (file_name cfg) (document cfg)
     = Some (results e)
  /\ total_signs e = PdfDoc.total_signs_detected (results e).

Definition sample_configs : list pdf_config :=
  [mk_pdf_config "pdf13" "COLO 2 - PDF 13" true "13.pdf"
     [PdfText.scenario_page];
   mk_pdf_config "pdf14" "COLO 2 - PDF 14" true "14.pdf"
     [PdfText.split_runs_page]].

End AllPdfs.

(** ** The engine invocations of the OCR ensemble *)

Module Calls.

Import Ocr.

(** The combination reads a text that passes the acceptance test, so that
    its confidence data is requested as well. *)
Definition reads_acceptably
  (image_to_string : box -> preprocess -> Z -> exn + string)
  (b : box) (c : preprocess * Z) : bool :=
  match image_to_string b c.1 c.2 with
  | inr raw => acceptable (trimmed raw)
  | inl _ => false
  end.

(** The number of engine invocations made for one box. *)
Definition calls_for
  (image_to_string : box -> preprocess -> Z -> exn + string) (b : box)
  : nat :=
  (8 + length (List.filter (reads_acceptably image_to_string b) combinations))%nat.

End Calls.

(** * Part II: properties *)

(** ** Numeric builtins *)

Module PyNumFacts.

Lemma Qlt_bool_iff a b : Qlt_bool a b = true <-> (a < b)%Q.
Proof.
  unfold Qlt_bool. rewrite negb_true_iff.
  split; intros H.
  - apply Qnot_le_lt. intros Hle. apply Qle_bool_iff in Hle. congruence.
  - destruct (Qle_bool b a) eqn:E; [|reflexivity].
    apply Qle_bool_iff in E. exfalso. exact (Qlt_not_le _ _ H E).
Qed.

Lemma Qlt_bool_false_iff a b : Qlt_bool a b = false <-> (b <= a)%Q.
Proof.
  unfold Qlt_bool. rewrite negb_false_iff. apply Qle_bool_iff.
Qed.

Lemma py_round_of_Z (q : Q) (k : Z) : (q == inject_Z k)%Q -> py_round q = k.
Proof.
  intros Hq. unfold py_round.
  assert (Hf : Qfloor q = k) by (rewrite Hq; apply Qfloor_Z).
  rewrite Hf.
  assert (Hc : Qcompare (q - inject_Z k) (1 # 2) = Lt).
  { rewrite <- Qlt_alt. lra. }
  now rewrite Hc.
Qed.

Lemma py_round_lower (q : Q) : Qfloor q <= py_round q.
Proof.
  unfold py_round.
  destruct (Qcompare _ _); [destruct (Z.even _)| |]; lia.
Qed.

Lemma py_round_upper (q : Q) : py_round q <= Qfloor q + 1.
Proof.
  unfold py_round.
  destruct (Qcompare _ _); [destruct (Z.even _)| |]; lia.
Qed.

(** Anything above one and a half rounds to two or more. *)
Lemma py_round_above_three_halves (q : Q) : (3 # 2 < q)%Q -> 2 <= py_round q.
Proof.
  intros Hq.
  assert (H1 : 1 <= Qfloor q).
  { change 1 with (Qfloor (3 # 2)). apply Qfloor_resp_le. now apply Qlt_le_weak. }
  destruct (Z.eq_dec (Qfloor q) 1) as [E|E].
  - unfold py_round. rewrite E.
    assert (Hc : Qcompare (q - inject_Z 1) (1 # 2) = Gt).
    { rewrite <- Qgt_alt. change (inject_Z 1) with 1%Q. lra. }
    rewrite Hc. lia.
  - pose proof (py_round_lower q). lia.
Qed.

Lemma py_int_of_Z (q : Q) (k : Z) : (q == inject_Z k)%Q -> py_int q = k.
Proof.
  intros Hq. unfold py_int.
  destruct (Qle_bool 0 q); rewrite Hq; [apply Qfloor_Z | apply Qceiling_Z].
Qed.

Lemma length_py_range n : length (py_range n) = Z.to_nat n.
Proof. unfold py_range. now rewrite length_map, length_seq. Qed.

End PyNumFacts.
Import PyNumFacts.

(** ** Float arithmetic *)

Module Binary64Facts.

Lemma py_round_le_int (x : Q) (N : Z) : (x <= inject_Z N)%Q -> py_round x <= N.
Proof.
  intros Hx. unfold py_round.
  pose proof (Qfloor_le x) as Hf.
  assert (Hfl : Qfloor x <= N) by (rewrite Zle_Qle; lra).
  destruct (Z.eq_dec (Qfloor x) N) as [E|E].
  - assert (Hc : Qcompare (x - inject_Z (Qfloor x)) (1 # 2) = Lt).
    { rewrite <- Qlt_alt. rewrite E. lra. }
    rewrite Hc. lia.
  - destruct (Qcompare _ _); [destruct (Z.even _)| |]; lia.
Qed.

Lemma py_round_ge_int (x : Q) (N : Z) : (inject_Z N <= x)%Q -> N <= py_round x.
Proof.
  intros Hx.
  assert (Hfl : N <= Qfloor x).
  { rewrite <- (Qfloor_Z N). now apply Qfloor_resp_le. }
  pose proof (py_round_lower x). lia.
Qed.

Lemma pow2_pos (e : Z) : (0 < pow2 e)%Q.
Proof. apply Qpower_0_lt. reflexivity. Qed.

Lemma pow2_add (a b : Z) : (pow2 (a + b) == pow2 a * pow2 b)%Q.
Proof. apply Qpower_plus. discriminate. Qed.

Lemma pow2_le (a b : Z) : a <= b -> (pow2 a <= pow2 b)%Q.
Proof. intros H. apply Qpower_le_compat_l; [exact H | discriminate]. Qed.

Lemma pow2_of_nonneg (a : Z) : 0 <= a -> (pow2 a == inject_Z (2 ^ a))%Q.
Proof. intros H. unfold pow2. now rewrite Zpower_Qpower. Qed.

(** [ilog2] does not overshoot. *)
Lemma ilog2_le (q : Q) : (0 < q)%Q -> (pow2 (ilog2 q) <= q)%Q.
Proof.
  intros Hq. unfold ilog2.
  set (a := Z.log2 (Qnum q)). set (b := Z.log2 (Z.pos (Qden q))).
  destruct (Qle_bool (pow2 (a - b)) q) eqn:E; [now apply Qle_bool_iff|].
  clear E.
  assert (Hn : 0 < Qnum q).
  { destruct q as [n d]. unfold Qlt in Hq. cbn in *. lia. }
  destruct (Z.log2_spec (Qnum q) Hn) as [Ha _].
  destruct (Z.log2_spec (Z.pos (Qden q)) eq_refl) as [_ Hb].
  fold a in Ha. fold b in Hb.
  assert (Ha0 : 0 <= a) by apply Z.log2_nonneg.
  assert (Hb0 : 0 <= b) by apply Z.log2_nonneg.
  replace (a - b - 1) with (a + - (b + 1)) by lia.
  rewrite pow2_add. unfold pow2 at 2. rewrite Qpower_opp.
  fold (pow2 (b + 1)).
  rewrite (pow2_of_nonneg a Ha0).
  rewrite (pow2_of_nonneg (b + 1)) by lia.
  replace (Z.succ b) with (b + 1) in Hb by lia.
  destruct q as [n d]. cbn [Qnum Qden] in *.
  rewrite (Qmake_Qdiv n d).
  assert (Hd : (0 < inject_Z (Z.pos d))%Q) by reflexivity.
  assert (Hp : (0 < inject_Z (2 ^ (b + 1)))%Q).
  { change 0%Q with (inject_Z 0). rewrite <- Zlt_Qlt. lia. }
  apply Qle_shift_div_l; [exact Hd|].
  rewrite Zle_Qle in Ha. rewrite Zlt_Qlt in Hb.
  apply Qle_trans with (inject_Z (2 ^ a)); [|exact Ha].
  setoid_replace
    (inject_Z (2 ^ a) * / inject_Z (2 ^ (b + 1)) * inject_Z (Z.pos d))%Q
    with (inject_Z (2 ^ a) * (inject_Z (Z.pos d) / inject_Z (2 ^ (b + 1))))%Q
    using relation Qeq by (field; lra).
  assert (H1 : (inject_Z (Z.pos d) / inject_Z (2 ^ (b + 1)) <= 1)%Q).
  { apply Qle_shift_div_r; [exact Hp | lra]. }
  assert (H2 : (0 <= inject_Z (2 ^ a))%Q).
  { change 0%Q with (inject_Z 0). rewrite <- Zle_Qle. lia. }
  set (A := inject_Z (2 ^ a)) in *.
  set (X := (inject_Z (Z.pos d) / inject_Z (2 ^ (b + 1)))%Q) in *.
  nra.
Qed.

Lemma scaled_int (z e : Z) : e <= 0 ->
  (inject_Z z / pow2 e == inject_Z (z * 2 ^ (- e)))%Q.
Proof.
  intros He. rewrite inject_Z_mult, <- (pow2_of_nonneg (- e)) by lia.
  unfold pow2. rewrite Qpower_opp.
  assert (H : ~ (2 ^ e == 0)%Q) by (apply Qpower_not_0; discriminate).
  field. exact H.
Qed.

Lemma exponent_pos (q : Q) : (0 < q)%Q -> 0 < exponent q ->
  (pow2 (exponent q + 52) <= q)%Q /\ 1 <= exponent q.
Proof.
  intros Hq He. unfold exponent in *.
  assert (E : Z.max (-1074) (ilog2 q - 52) = ilog2 q - 52) by lia.
  rewrite E. split; [|lia].
  replace (ilog2 q - 52 + 52) with (ilog2 q) by lia.
  now apply ilog2_le.
Qed.

Lemma nearest_nonneg (q : Q) : (0 < q)%Q -> (0 <= nearest q)%Q.
Proof.
  intros Hq. unfold nearest. cbv zeta.
  pose proof (pow2_pos (exponent q)) as Hp.
  assert (Hx : (inject_Z 0 <= q / pow2 (exponent q))%Q).
  { change (inject_Z 0) with 0%Q. apply Qle_shift_div_l; [exact Hp | lra]. }
  apply py_round_ge_int in Hx. rewrite Zle_Qle in Hx.
  change (inject_Z 0) with 0%Q in Hx.
  apply Qmult_le_0_compat; lra.
Qed.

Lemma nearest_le_int (q : Q) (z : Z) :
  (0 < q)%Q -> z < 2 ^ 53 -> (q <= inject_Z z)%Q -> (nearest q <= inject_Z z)%Q.
Proof.
  intros Hq Hz Hqz. unfold nearest. cbv zeta.
  pose proof (pow2_pos (exponent q)) as Hp.
  destruct (Z_le_gt_dec (exponent q) 0) as [He|He].
  - assert (Hx : (q / pow2 (exponent q)
                  <= inject_Z (z * 2 ^ (- exponent q)))%Q).
    { rewrite <- scaled_int by exact He.
      apply Qle_shift_div_r; [exact Hp|].
      setoid_replace (inject_Z z / pow2 (exponent q) * pow2 (exponent q))%Q
        with (inject_Z z) using relation Qeq by (field; lra).
      exact Hqz. }
    apply py_round_le_int in Hx. rewrite Zle_Qle in Hx.
    rewrite <- scaled_int in Hx by exact He.
    set (m := inject_Z (py_round _)) in *.
    apply Qle_trans with (inject_Z z / pow2 (exponent q) * pow2 (exponent q))%Q.
    + apply Qmult_le_compat_r; [exact Hx | lra].
    + setoid_replace (inject_Z z / pow2 (exponent q) * pow2 (exponent q))%Q
        with (inject_Z z) using relation Qeq by (field; lra).
      lra.
  - exfalso. destruct (exponent_pos q Hq) as [Hlow H1]; [lia|].
    assert (H53 : (pow2 53 <= pow2 (exponent q + 52))%Q)
      by (apply pow2_le; lia).
    rewrite (pow2_of_nonneg 53) in H53 by lia.
    rewrite Zlt_Qlt in Hz. lra.
Qed.

Lemma nearest_ge_int (q : Q) (z : Z) :
  (0 < q)%Q -> z < 2 ^ 53 -> (inject_Z z <= q)%Q -> (inject_Z z <= nearest q)%Q.
Proof.
  intros Hq Hz Hqz. unfold nearest. cbv zeta.
  pose proof (pow2_pos (exponent q)) as Hp.
  destruct (Z_le_gt_dec (exponent q) 0) as [He|He].
  - assert (Hx : (inject_Z (z * 2 ^ (- exponent q))
                  <= q / pow2 (exponent q))%Q).
    { rewrite <- scaled_int by exact He.
      apply Qle_shift_div_l; [exact Hp|].
      setoid_replace (inject_Z z / pow2 (exponent q) * pow2 (exponent q))%Q
        with (inject_Z z) using relation Qeq by (field; lra).
      exact Hqz. }
    apply py_round_ge_int in Hx. rewrite Zle_Qle in Hx.
    rewrite <- scaled_int in Hx by exact He.
    set (m := inject_Z (py_round _)) in *.
    apply Qle_trans with (inject_Z z / pow2 (exponent q) * pow2 (exponent q))%Q.
    + setoid_replace (inject_Z z / pow2 (exponent q) * pow2 (exponent q))%Q
        with (inject_Z z) using relation Qeq by (field; lra).
      lra.
    + apply Qmult_le_compat_r; [exact Hx | lra].
  - destruct (exponent_pos q Hq) as [Hlow H1]; [lia|].
    assert (Hx : (inject_Z (2 ^ 52) <= q / pow2 (exponent q))%Q).
    { apply Qle_shift_div_l; [exact Hp|].
      rewrite <- (pow2_of_nonneg 52) by lia.
      rewrite <- pow2_add. now rewrite Z.add_comm. }
    apply py_round_ge_int in Hx. rewrite Zle_Qle in Hx.
    set (m := inject_Z (py_round _)) in *.
    assert (H2 : (pow2 1 <= pow2 (exponent q))%Q) by (apply pow2_le; lia).
    change (pow2 1) with 2%Q in H2.
    rewrite Zlt_Qlt in Hz.
    change (inject_Z (2 ^ 53)) with (inject_Z (2 ^ 52) * 2)%Q in Hz.
    set (P := pow2 (exponent q)) in *. set (A := inject_Z (2 ^ 52)) in *.
    assert (HA : (0 < A)%Q) by reflexivity.
    nra.
Qed.

(** Rounding keeps the sign. *)
Lemma fl_nonpos (q : Q) : (q <= 0)%Q -> (fl q <= 0)%Q.
Proof.
  intros Hq. unfold fl. rewrite Qred_correct.
  destruct (Qcompare q 0) eqn:E.
  - lra.
  - pose proof (nearest_nonneg (- q)) as H.
    rewrite <- Qlt_alt in E. lra.
  - rewrite <- Qgt_alt in E. lra.
Qed.

Lemma fl_nonneg (q : Q) : (0 <= q)%Q -> (0 <= fl q)%Q.
Proof.
  intros Hq. unfold fl. rewrite Qred_correct.
  destruct (Qcompare q 0) eqn:E.
  - lra.
  - rewrite <- Qlt_alt in E. lra.
  - rewrite <- Qgt_alt in E. now apply nearest_nonneg.
Qed.

(** Rounding does not cross a non-negative integer below [2 ^ 53]: such an
    integer is a float. *)
Lemma fl_le_int (q : Q) (z : Z) :
  0 <= z < 2 ^ 53 -> (q <= inject_Z z)%Q -> (fl q <= inject_Z z)%Q.
Proof.
  intros [Hz0 Hz] Hq.
  assert (Hz0' : (0 <= inject_Z z)%Q).
  { change 0%Q with (inject_Z 0). now rewrite <- Zle_Qle. }
  destruct (Qlt_le_dec 0 q) as [Hpos|Hneg].
  - unfold fl. rewrite Qred_correct.
    assert (E : Qcompare q 0 = Gt) by now rewrite <- Qgt_alt.
    rewrite E. now apply nearest_le_int.
  - pose proof (fl_nonpos q Hneg). lra.
Qed.

Lemma fl_ge_int (q : Q) (z : Z) :
  0 <= z < 2 ^ 53 -> (inject_Z z <= q)%Q -> (inject_Z z <= fl q)%Q.
Proof.
  intros [Hz0 Hz] Hq.
  assert (Hz0' : (0 <= inject_Z z)%Q).
  { change 0%Q with (inject_Z 0). now rewrite <- Zle_Qle. }
  destruct (Qlt_le_dec 0 q) as [Hpos|Hneg].
  - unfold fl. rewrite Qred_correct.
    assert (E : Qcompare q 0 = Gt) by now rewrite <- Qgt_alt.
    rewrite E. now apply nearest_ge_int.
  - assert (E0 : (q == 0)%Q) by lra.
    unfold fl. rewrite Qred_correct.
    assert (E : Qcompare q 0 = Eq) by now rewrite <- Qeq_alt.
    rewrite E. lra.
Qed.

Lemma fl_int (z : Z) : 0 <= z < 2 ^ 53 -> (fl (inject_Z z) == inject_Z z)%Q.
Proof.
  intros Hz. apply Qle_antisym.
  - apply fl_le_int; [exact Hz | lra].
  - apply fl_ge_int; [exact Hz | lra].
Qed.

(** On the decimals 30.1, 29.9, 14.06 and 16.06, on the difference of the
    last two, on three times two and on the mean of three times 30.1 and
    three times 29.9, [fl] and the operations built on it return what the
    machine's binary64 arithmetic returns. *)
Example fl_agrees_with_the_machine :
  machine_value (machine 301 10) = Some (fl (301 # 10))
  /\ machine_value (machine 299 10) = Some (fl (299 # 10))
  /\ machine_value (machine 1406 100) = Some (fl (1406 # 100))
  /\ machine_value (machine 1606 100) = Some (fl (1606 # 100))
  /\ machine_value (PrimFloat.sub (machine 1406 100) (machine 1606 100))
     = Some (fsub (fl (1406 # 100)) (fl (1606 # 100)))
  /\ machine_value (PrimFloat.mul (machine 2 1) (machine 3 1))
     = Some (fmul (fl 2) 3)
  /\ machine_value
       (PrimFloat.div
          (foldl PrimFloat.add (machine 0 1)
             [machine 301 10; machine 301 10; machine 301 10;
              machine 299 10; machine 299 10; machine 299 10])
          (machine 6 1))
     = Some (fdiv (foldl fadd 0%Q
                     [fl (301 # 10); fl (301 # 10); fl (301 # 10);
                      fl (299 # 10); fl (299 # 10); fl (299 # 10)])
                  (of_int 6)).
Proof. vm_compute. repeat split. Qed.

End Binary64Facts.
Import Binary64Facts.

(** ** String builtins *)

Module PyStrFacts.

Import PyStr.

Local Open Scope string_scope.
Local Open Scope nat_scope.

Lemma py_split_nonempty sep s : py_split sep s <> [].
Proof.
  destruct s as [|c s]; simpl; [discriminate|].
  destruct (Ascii.eqb c sep); [discriminate|].
  destruct (py_split sep s); discriminate.
Qed.

(** The number of pieces is one more than the number of separators. *)
Lemma length_py_split sep s : length (py_split sep s) = S (count_char sep s).
Proof.
  induction s as [|c s IH]; simpl; [reflexivity|].
  destruct (Ascii.eqb c sep); simpl; [now rewrite IH|].
  destruct (py_split sep s) eqn:E; simpl in *; [discriminate | exact IH].
Qed.

Lemma nonempty_length s : nonempty s = (0 <? String.length s).
Proof. now destruct s. Qed.

End PyStrFacts.

(** ** Stacked-box splitter *)

Module SplitterFacts.

Import Splitter.

Lemma detect_below_guard x y w h s :
  (inject_Z h <= (3 # 2) * inject_Z s)%Q ->
  detect_stacked_boxes (x, y, w, h) s = Some [(x, y, w, h)].
Proof.
  intros Hle. unfold detect_stacked_boxes.
  assert (E : Qlt_bool (inject_Z s * (3 # 2)) (inject_Z h) = false).
  { apply Qlt_bool_false_iff. lra. }
  now rewrite E.
Qed.

Lemma inject_Z_pos_neq0 (s : Z) : 0 < s -> ~ (inject_Z s == 0)%Q.
Proof.
  intros Hs Hq. unfold Qeq in Hq. simpl in Hq. lia.
Qed.

Lemma guard_of_multiple (k s : Z) :
  0 < s -> 2 <= k ->
  Qlt_bool (inject_Z s * (3 # 2)) (inject_Z (k * s)) = true.
Proof.
  intros Hs Hk. apply Qlt_bool_iff.
  rewrite inject_Z_mult.
  assert (H2 : (2 <= inject_Z k)%Q) by (change 2%Q with (inject_Z 2); now rewrite <- Zle_Qle).
  assert (H0 : (0 < inject_Z s)%Q) by (change 0%Q with (inject_Z 0); now rewrite <- Zlt_Qlt).
  nra.
Qed.

Lemma detect_multiple x y w k s :
  0 < s -> 2 <= k ->
  detect_stacked_boxes (x, y, w, k * s) s = Some (rows x y w s k).
Proof.
  intros Hs Hk. unfold detect_stacked_boxes.
  rewrite guard_of_multiple by assumption.
  destruct (Z.eqb_spec s 0) as [->|_]; [lia|].
  pose proof (inject_Z_pos_neq0 s Hs) as Hs0.
  assert (Hq : (inject_Z (k * s) / inject_Z s == inject_Z k)%Q).
  { rewrite inject_Z_mult. now field. }
  rewrite (py_round_of_Z _ _ Hq).
  destruct (Z.ltb_spec 1 k) as [_|]; [|lia].
  assert (Hk0 : ~ (inject_Z k == 0)%Q) by (apply inject_Z_pos_neq0; lia).
  assert (Hi : (inject_Z (k * s) / inject_Z k == inject_Z s)%Q).
  { rewrite inject_Z_mult. now field. }
  unfold rows. f_equal. apply map_ext. intros i.
  rewrite (py_int_of_Z _ s Hi).
  rewrite (py_int_of_Z _ (y + i * s)); [reflexivity|].
  rewrite Hi, inject_Z_plus, inject_Z_mult. reflexivity.
Qed.

Lemma rows_contiguous_aux x w s (n : nat) (start : nat) y :
  contiguous_from (y + Z.of_nat start * s)
    (map (fun i : Z => (x, y + i * s, w, s)) (map Z.of_nat (seq start n))).
Proof.
  revert start. induction n as [|n IH]; intros start; simpl; [exact I|].
  split; [reflexivity|].
  cbn [box_h snd].
  replace (y + Z.of_nat start * s + s) with (y + Z.of_nat (S start) * s) by lia.
  apply IH.
Qed.

Lemma rows_contiguous x y w s k : contiguous_from y (rows x y w s k).
Proof.
  unfold rows, py_range.
  pose proof (rows_contiguous_aux x w s (Z.to_nat k) 0 y) as H.
  simpl in H. now rewrite Z.add_0_r in H.
Qed.

Lemma total_height_const x y w s (l : list Z) :
  total_height (map (fun i : Z => (x, y + i * s, w, s)) l) = Z.of_nat (length l) * s.
Proof.
  induction l as [|i l IH]; [reflexivity|].
  cbn [map length]. unfold total_height in *. cbn [foldr].
  rewrite IH. cbn [box_h snd]. lia.
Qed.

Lemma total_height_rows x y w s k : 0 <= k -> total_height (rows x y w s k) = k * s.
Proof.
  intros Hk. unfold rows. rewrite total_height_const, length_py_range.
  now rewrite Z2Nat.id.
Qed.

Lemma rows_forall x y w s k :
  Forall (fun b => box_x b = x /\ box_w b = w /\ box_h b = s) (rows x y w s k).
Proof.
  unfold rows. apply Forall_forall. intros b Hb.
  apply list_elem_of_In, in_map_iff in Hb. destruct Hb as [i [<- _]]. now cbn.
Qed.

(** C4. A box no taller than one and a half standard heights comes back as
    the one-element list of itself; a box exactly [k >= 2] standard heights
    tall is cut into exactly [k] rectangles of height [h / k], each with the
    x and width of the input, stacked downwards from the top of the input
    without gap or overlap, their heights adding up to the input height. *)
Theorem splitter_guard_and_exact_multiples (x y w h s : Z) (Hs : 0 < s) :
  ((inject_Z h <= (3 # 2) * inject_Z s)%Q ->
     detect_stacked_boxes (x, y, w, h) s = Some [(x, y, w, h)])
  /\ (forall k : Z, 2 <= k -> h = k * s ->
        exists bs : list box,
          detect_stacked_boxes (x, y, w, h) s = Some bs
          /\ Z.of_nat (length bs) = k
          /\ Forall (fun b => box_x b = x /\ box_w b = w
                              /\ box_h b * k = h) bs
          /\ contiguous_from y bs
          /\ total_height bs = h).
Proof.
  split.
  - apply detect_below_guard.
  - intros k Hk ->. exists (rows x y w s k).
    split; [now apply detect_multiple|].
    split; [unfold rows; rewrite length_map, length_py_range; lia|].
    split; [|split; [apply rows_contiguous | apply total_height_rows; lia]].
    eapply Forall_impl; [apply rows_forall|].
    intros b (Hx & Hw & Hh). cbn beta. rewrite Hh. repeat split; auto. lia.
Qed.

Lemma splitter_guard_and_exact_multiples_witness :
  detect_stacked_boxes (5, 7, 30, 60) 40 = Some [(5, 7, 30, 60)]
  /\ exists bs : list box,
       detect_stacked_boxes (5, 7, 30, 120) 40 = Some bs
       /\ Z.of_nat (length bs) = 3
       /\ Forall (fun b => box_x b = 5 /\ box_w b = 30 /\ box_h b * 3 = 120) bs
       /\ contiguous_from 7 bs
       /\ total_height bs = 120.
Proof.
  assert (Hs : 0 < 40) by lia.
  split.
  - apply (proj1 (splitter_guard_and_exact_multiples 5 7 30 60 40 Hs)).
    vm_compute. discriminate.
  - apply (proj2 (splitter_guard_and_exact_multiples 5 7 30 120 40 Hs) 3);
      [lia | reflexivity].
Defined.

(** C10. Above the one-and-a-half guard the rounded count is at least two,
    so the count-of-one fall-through cannot be taken: the splitter returns
    at least two rectangles, hence never the input box alone. *)
Theorem splitter_count_at_least_two (x y w h s : Z)
  (Hs : 1 <= s) (Hh : ((3 # 2) * inject_Z s < inject_Z h)%Q) :
  2 <= py_round (inject_Z h / inject_Z s)
  /\ exists bs : list box,
       detect_stacked_boxes (x, y, w, h) s = Some bs
       /\ (2 <= length bs)%nat
       /\ bs <> [(x, y, w, h)].
Proof.
  assert (Hs0 : (0 < inject_Z s)%Q).
  { change 0%Q with (inject_Z 0). rewrite <- Zlt_Qlt. lia. }
  assert (Hcount : 2 <= py_round (inject_Z h / inject_Z s)).
  { apply py_round_above_three_halves.
    apply Qlt_shift_div_l; [exact Hs0|exact Hh]. }
  split; [exact Hcount|].
  unfold detect_stacked_boxes.
  assert (E : Qlt_bool (inject_Z s * (3 # 2)) (inject_Z h) = true).
  { apply Qlt_bool_iff. lra. }
  rewrite E.
  destruct (Z.eqb_spec s 0) as [->|_]; [lia|].
  destruct (Z.ltb_spec 1 (py_round (inject_Z h / inject_Z s))) as [_|]; [|lia].
  eexists. split; [reflexivity|].
  assert (Hlen : (2 <= Z.to_nat (py_round (inject_Z h / inject_Z s)))%nat) by lia.
  split.
  - now rewrite length_map, length_py_range.
  - intros Heq. apply (f_equal length) in Heq.
    rewrite length_map, length_py_range in Heq. simpl in Heq. lia.
Qed.

Lemma splitter_count_at_least_two_witness :
  2 <= py_round (inject_Z 61 / inject_Z 40)
  /\ exists bs : list box,
       detect_stacked_boxes (0, 0, 30, 61) 40 = Some bs
       /\ (2 <= length bs)%nat
       /\ bs <> [(0, 0, 30, 61)].
Proof.
  apply (splitter_count_at_least_two 0 0 30 61 40); [lia|].
  vm_compute. reflexivity.
Defined.

End SplitterFacts.

(** ** OCR ensemble extractor *)

Module OcrFacts.

Import PyStr PyStrFacts Ocr.

Local Open Scope py_scope.

(** *** The crop region *)

(** C5 (counterexample). The crop is not the specified region: it reaches
    ten pixels below the box. *)
Lemma crop_region_reaches_below :
  crop_region 1000 1000 (100, 100, 30, 40)
  <> claimed_region 1000 1000 (100, 100, 30, 40).
Proof. vm_compute. discriminate. Qed.

(** C5 (amended). For a box within the image, the crop is the box grown by
    fifty pixels above, twenty pixels on each horizontal side and ten pixels
    below, each edge clamped to the image bounds. *)
Theorem crop_region_padding (W H x y w h : Z)
  (Hin : inside_image W H (x, y, w, h)) :
  crop_region W H (x, y, w, h)
  = (clamp 0 W (x - 20), clamp 0 H (y - 50),
     clamp 0 W (x + w + 20), clamp 0 H (y + h + 10)).
Proof.
  destruct Hin as (Hx & Hy & Hw & Hh & HW & HH).
  unfold crop_region, clamp.
  repeat f_equal; lia.
Qed.

Lemma crop_region_padding_witness :
  crop_region 200 300 (10, 30, 180, 265) = (0, 0, 200, 300).
Proof.
  rewrite (crop_region_padding 200 300 10 30 180 265).
  - reflexivity.
  - unfold inside_image. lia.
Defined.

(** *** The ensemble *)

Section Ensemble.

Variable image_to_string : box -> preprocess -> Z -> exn + string.
Variable image_to_data : box -> preprocess -> Z -> exn + list conf_value.
Variable py_float : string -> option Q.

Local Abbreviation scored := (Ocr.scored image_to_data py_float).
Local Abbreviation candidate :=
  (Ocr.candidate image_to_string image_to_data py_float).
Local Abbreviation survivors :=
  (Ocr.survivors image_to_string image_to_data py_float).
Local Abbreviation calls_of := (Ocr.calls_of image_to_string).
Local Abbreviation after := (Ocr.after image_to_string image_to_data py_float).
Local Abbreviation detect_box :=
  (Ocr.detect_box image_to_string image_to_data py_float).

Lemma accept_code_spec (raw : string) :
  (if nonempty (py_strip raw)
   then nonempty (_clean_sign_number (py_strip raw))
        && (3 <=? String.length (_clean_sign_number (py_strip raw)))%nat
   else false) = acceptable (trimmed raw).
Proof.
  unfold acceptable, trimmed, _clean_sign_number.
  rewrite length_py_split.
  destruct (py_strip raw) as [|c r] eqn:E; [reflexivity|].
  cbn [nonempty].
  set (t := py_strip_char dot (String c r)).
  destruct (any_char is_digit t); [|reflexivity].
  change (S (count_char dot t) <=? 2)%nat with (count_char dot t <=? 1)%nat.
  destruct (count_char dot t <=? 1)%nat; [|reflexivity].
  cbn [andb]. rewrite nonempty_length.
  destruct (String.length t) as [|[|[|n]]]; reflexivity.
Qed.

Lemma clean_when_acceptable (raw : string) :
  acceptable (trimmed raw) = true ->
  _clean_sign_number (py_strip raw) = trimmed raw.
Proof.
  unfold acceptable, trimmed, _clean_sign_number.
  rewrite length_py_split.
  set (t := py_strip_char dot (py_strip raw)).
  change (S (count_char dot t) <=? 2)%nat with (count_char dot t <=? 1)%nat.
  intros H. apply andb_true_iff in H as [H _].
  apply andb_true_iff in H as [-> ->]. reflexivity.
Qed.

Lemma attempt_step (b : box) (img : preprocess) (m : Z) (s : state) :
  try_except (attempt image_to_string image_to_data py_float b img m)
             (fun _ => ret tt) s
  = (inr tt, after b (img, m) s).
Proof.
  pose proof (accept_code_spec) as Hspec.
  pose proof (clean_when_acceptable) as Hclean.
  unfold try_except, attempt, Ocr.after, Ocr.candidate, Ocr.calls_of, Ocr.scored, bind,
    call_image_to_string, call_image_to_data, lift, ret, append_result.
  cbn [fst snd results trace].
  destruct (image_to_string b img m) as [e|raw].
  { now rewrite app_nil_r. }
  specialize (Hspec raw). specialize (Hclean raw).
  destruct (acceptable (trimmed raw)).
  - rewrite Hclean by reflexivity.
    destruct (nonempty (py_strip raw)); [|discriminate].
    rewrite Hclean in Hspec by reflexivity. rewrite Hspec.
    cbn [results trace].
    destruct (image_to_data b img m) as [e|data].
    { now rewrite app_nil_r, <- app_assoc. }
    destruct (confidences_of py_float data) as [e|cs].
    { now rewrite app_nil_r, <- app_assoc. }
    destruct (Qlt_bool 30 (average cs)); cbn [results trace option_list];
      now rewrite ?app_nil_r, <- app_assoc.
  - destruct (nonempty (py_strip raw)).
    + rewrite Hspec. now rewrite app_nil_r.
    + now rewrite app_nil_r.
Qed.

Lemma for_each_steps {A} (body : A -> M unit) (f : A -> state -> state)
  (l : list A) :
  (forall a s, body a s = (inr tt, f a s)) ->
  forall s, for_each l body s = (inr tt, foldl (fun s a => f a s) s l).
Proof.
  intros Hbody. induction l as [|a l IH]; intros s; cbn [for_each foldl].
  - reflexivity.
  - unfold bind. rewrite Hbody. apply IH.
Qed.

Lemma after_fold (b : box) (l : list (preprocess * Z)) (s : state) :
  foldl (fun s c => after b c s) s l
  = mk_state (results s ++ omap (fun c => candidate b c.1 c.2) l)
             (trace s ++ flat_map (calls_of b) l).
Proof.
  revert s. induction l as [|c l IH]; intros s; cbn [foldl omap flat_map].
  - rewrite !app_nil_r. now destruct s.
  - rewrite IH. unfold Ocr.after. cbn [results trace].
    rewrite <- !app_assoc. f_equal.
    f_equal. cbn. now destruct (candidate b c.1 c.2).
Qed.

Lemma ocr_loop_run (b : box) (s : state) :
  ocr_loop image_to_string image_to_data py_float b s
  = (inr tt, mk_state (results s ++ survivors b)
                      (trace s ++ flat_map (calls_of b) combinations)).
Proof.
  unfold ocr_loop.
  rewrite (for_each_steps _
             (fun img s => foldl (fun s m => after b (img, m) s) s psm_modes)).
  - unfold Ocr.survivors. rewrite <- (after_fold b combinations s). reflexivity.
  - intros img s'. apply for_each_steps. intros m s''. apply attempt_step.
Qed.

Lemma attempted_calls_of (b : box) (l : list (preprocess * Z)) :
  attempted (flat_map (calls_of b) l) = map (fun c => (b, c)) l.
Proof.
  unfold attempted. induction l as [|[img m] l IH]; [reflexivity|].
  cbn [flat_map map]. unfold Ocr.calls_of at 1. cbn [fst snd].
  destruct (image_to_string b img m) as [e|raw];
    [|destruct (acceptable (trimmed raw))]; cbn; f_equal; exact IH.
Qed.

(** [max] picks a member that no other member exceeds. *)

Lemma key_le_refl (r : ocr_result) : key_le r r.
Proof. right. split; [reflexivity | lia]. Qed.

Lemma key_le_trans (a b c : ocr_result) : key_le a b -> key_le b c -> key_le a c.
Proof.
  unfold key_le. intros [Hab|[Hab Lab]] [Hbc|[Hbc Lbc]].
  - left. lra.
  - left. lra.
  - left. lra.
  - right. split; [lra | lia].
Qed.

Lemma key_gt_true (r best : ocr_result) : key_gt r best = true -> key_le best r.
Proof.
  unfold key_gt, key_le. destruct (Qeq_bool _ _) eqn:E; intros H.
  - apply Qeq_bool_eq in E. apply Nat.ltb_lt in H.
    right. split; [lra | lia].
  - apply Qlt_bool_iff in H. now left.
Qed.

Lemma key_gt_false (r best : ocr_result) : key_gt r best = false -> key_le r best.
Proof.
  unfold key_gt, key_le. destruct (Qeq_bool _ _) eqn:E; intros H.
  - apply Qeq_bool_eq in E. apply Nat.ltb_ge in H. right. now split.
  - apply Qeq_bool_neq in E. apply Qlt_bool_false_iff in H.
    left. apply Qle_lteq in H as [H|H]; [exact H | contradiction].
Qed.

Lemma py_max_from_le_start (best : ocr_result) (l : list ocr_result) :
  key_le best (py_max_from best l).
Proof.
  revert best. induction l as [|r l IH]; intros best; cbn [py_max_from].
  - apply key_le_refl.
  - destruct (key_gt r best) eqn:E; [|apply IH].
    eapply key_le_trans; [apply key_gt_true, E | apply IH].
Qed.

Lemma py_max_from_in (best : ocr_result) (l : list ocr_result) :
  py_max_from best l ∈ best :: l.
Proof.
  revert best. induction l as [|r l IH]; intros best; cbn [py_max_from].
  - apply list_elem_of_here.
  - specialize (IH (if key_gt r best then r else best)).
    apply elem_of_cons in IH as [IH|IH].
    + rewrite IH. destruct (key_gt r best).
      * apply list_elem_of_further, list_elem_of_here.
      * apply list_elem_of_here.
    + now do 2 apply list_elem_of_further.
Qed.

Lemma py_max_from_ge (best : ocr_result) (l : list ocr_result) (x : ocr_result) :
  x ∈ best :: l -> key_le x (py_max_from best l).
Proof.
  revert best. induction l as [|r l IH]; intros best Hx; cbn [py_max_from].
  - apply elem_of_cons in Hx as [Hx|Hx]; [subst; apply key_le_refl|].
    inversion Hx.
  - set (b' := if key_gt r best then r else best).
    assert (Hstart : key_le best b' /\ key_le r b').
    { subst b'. destruct (key_gt r best) eqn:E.
      - split; [now apply key_gt_true | apply key_le_refl].
      - split; [apply key_le_refl | now apply key_gt_false]. }
    destruct Hstart as [Hb Hr].
    apply elem_of_cons in Hx as [Hx|Hx].
    { subst x. eapply key_le_trans; [exact Hb | apply py_max_from_le_start]. }
    apply elem_of_cons in Hx as [Hx|Hx].
    { subst x. eapply key_le_trans; [exact Hr | apply py_max_from_le_start]. }
    apply IH. now apply list_elem_of_further.
Qed.

Lemma extract_sign_number_run (b : box) (s : state) :
  extract_sign_number image_to_string image_to_data py_float b s
  = (inr (choose (survivors b)),
     mk_state (survivors b)
              (trace s ++ flat_map (calls_of b) combinations)).
Proof.
  unfold extract_sign_number, bind, set_results.
  rewrite ocr_loop_run. cbn [results trace app get_results].
  unfold get_results. cbn [results].
  now destruct (survivors b).
Qed.

Lemma survivor_confident (b : box) (r : ocr_result) :
  r ∈ survivors b -> (30 < confidence r)%Q.
Proof.
  unfold Ocr.survivors. intros Hr.
  apply list_elem_of_omap in Hr as ([img m] & _ & Hc).
  unfold Ocr.candidate in Hc. cbn [fst snd] in Hc.
  destruct (image_to_string b img m) as [|raw]; [discriminate|].
  destruct (acceptable (trimmed raw)); [|discriminate].
  destruct (scored b img m) as [c|]; [|discriminate].
  destruct (Qlt_bool 30 c) eqn:E; [|discriminate].
  injection Hc as <-. cbn [confidence]. now apply Qlt_bool_iff.
Qed.

(** A combination survives exactly under the four stated conditions. *)
Lemma candidate_spec (b : box) (img : preprocess) (m : Z) (r : ocr_result) :
  candidate b img m = Some r <->
  exists (raw : string) (c : Q),
    image_to_string b img m = inr raw
    /\ any_char is_digit (trimmed raw) = true
    /\ (count_char dot (trimmed raw) <= 1)%nat
    /\ (3 <= String.length (trimmed raw))%nat
    /\ scored b img m = Some c
    /\ (30 < c)%Q
    /\ r = mk_result (trimmed raw) c m img.
Proof.
  unfold Ocr.candidate, acceptable. split.
  - destruct (image_to_string b img m) as [|raw]; [discriminate|].
    destruct (any_char is_digit (trimmed raw)) eqn:Hd; [|discriminate].
    destruct (count_char dot (trimmed raw) <=? 1)%nat eqn:Hp; [|discriminate].
    destruct (3 <=? String.length (trimmed raw))%nat eqn:Hl; [|discriminate].
    cbn [andb].
    destruct (scored b img m) as [c|]; [|discriminate].
    destruct (Qlt_bool 30 c) eqn:Hc; [|discriminate].
    intros [= <-]. exists raw, c.
    apply Nat.leb_le in Hp, Hl. apply Qlt_bool_iff in Hc. auto 10.
  - intros (raw & c & -> & -> & Hp & Hl & -> & Hc & ->).
    apply Nat.leb_le in Hp, Hl. apply Qlt_bool_iff in Hc.
    now rewrite Hp, Hl, Hc.
Qed.

Lemma survivors_nil_iff (b : box) :
  survivors b = [] <->
  forall c, c ∈ combinations -> candidate b c.1 c.2 = None.
Proof.
  unfold Ocr.survivors. split.
  - intros Hnil c Hc.
    destruct (candidate b c.1 c.2) as [r|] eqn:E; [|reflexivity].
    assert (Hr : r ∈ omap (fun c => candidate b c.1 c.2) combinations)
      by (apply list_elem_of_omap; eauto).
    rewrite Hnil in Hr. set_solver.
  - intros Hall.
    destruct (omap _ combinations) as [|r l] eqn:E; [reflexivity|].
    assert (Hr : r ∈ omap (fun c => candidate b c.1 c.2) combinations)
      by (rewrite E; apply list_elem_of_here).
    apply list_elem_of_omap in Hr as (c & Hc & Hr).
    rewrite (Hall c Hc) in Hr. discriminate.
Qed.

(** *** Engine failures *)

Lemma make_detection_run (W H : Z) (b : box) (r : ocr_result) (s : state) :
  W <> 0 -> H <> 0 ->
  make_detection W H b r s = (inr (detection_of W H b r), s).
Proof.
  intros HW HH. destruct b as [[[x y] w] h].
  unfold make_detection, detection_of, percent_of, bind, ret.
  destruct (Z.eqb_spec W 0) as [|_]; [contradiction|].
  destruct (Z.eqb_spec H 0) as [|_]; [contradiction|].
  reflexivity.
Qed.

Lemma process_boxes_run (W H : Z) (boxes : list box) :
  W <> 0 -> H <> 0 ->
  forall (detections : list SignDetection) (s : state),
  exists rs : list ocr_result,
    process_boxes image_to_string image_to_data py_float W H boxes detections s
    = (inr (detections ++ omap (detect_box W H) boxes),
       mk_state rs
         (trace s
          ++ flat_map (fun b => flat_map (calls_of b) combinations) boxes)).
Proof.
  intros HW HH. induction boxes as [|b rest IH]; intros detections s.
  - exists (results s). cbn. rewrite !app_nil_r. now destruct s.
  - cbn [process_boxes]. unfold bind at 1. rewrite extract_sign_number_run.
    unfold Ocr.detect_box at 1. cbn [omap list_omap flat_map].
    destruct (choose (survivors b)) as [r|]; cbn [fmap option_fmap option_map].
    + unfold bind. rewrite make_detection_run by assumption.
      destruct (IH (detections ++ [detection_of W H b r])
                   (mk_state (survivors b)
                      (trace s ++ flat_map (calls_of b) combinations)))
        as [rs Hrs].
      exists rs. rewrite Hrs. cbn [trace].
      now rewrite <- !app_assoc.
    + destruct (IH detections
                   (mk_state (survivors b)
                      (trace s ++ flat_map (calls_of b) combinations)))
        as [rs Hrs].
      exists rs. rewrite Hrs. cbn [trace].
      now rewrite <- !app_assoc.
Qed.

Lemma attempted_app (t1 t2 : list call) :
  attempted (t1 ++ t2) = attempted t1 ++ attempted t2.
Proof. unfold attempted. apply omap_app. Qed.

Lemma attempted_boxes (boxes : list box) :
  attempted (flat_map (fun b => flat_map (calls_of b) combinations) boxes)
  = flat_map (fun b => map (fun c => (b, c)) combinations) boxes.
Proof.
  induction boxes as [|b rest IH]; [reflexivity|].
  cbn [flat_map]. now rewrite attempted_app, attempted_calls_of, IH.
Qed.

Lemma candidate_none_of_throw (b : box) (img : preprocess) (m : Z) (e : exn) :
  image_to_string b img m = inl e \/ image_to_data b img m = inl e ->
  candidate b img m = None.
Proof.
  unfold Ocr.candidate, Ocr.scored. intros [->| ->]; [reflexivity|].
  destruct (image_to_string b img m) as [|raw]; [reflexivity|].
  now destruct (acceptable (trimmed raw)).
Qed.

(** C7. Whatever the engine throws, [extract_sign_number] returns normally
    having invoked the engine on all eight combinations in order; a
    combination on which the engine throws contributes no result, the
    outcome being the choice among the others; when every combination fails
    or is rejected the outcome is no detection; and [process_image] returns
    normally having attempted every combination of every box, a box without
    detection being simply left out of the detections. *)
Theorem engine_failure_is_skipped (W H : Z) (boxes : list box) (s : state)
  (HW : W <> 0) (HH : H <> 0) :
  (forall (b : box) (s0 : state),
      exists (v : option ocr_result) (s' : state) (t : list call),
        extract_sign_number image_to_string image_to_data py_float b s0
        = (inr v, s')
        /\ trace s' = trace s0 ++ t
        /\ attempted t = map (fun c => (b, c)) combinations
        /\ v = choose (survivors b)
        /\ ((forall c, c ∈ combinations -> candidate b c.1 c.2 = None) ->
            v = None))
  /\ (forall (b : box) (img : preprocess) (m : Z) (e : exn),
        image_to_string b img m = inl e \/ image_to_data b img m = inl e ->
        candidate b img m = None)
  /\ (exists (detections : list SignDetection) (s' : state) (t : list call),
        process_image image_to_string image_to_data py_float W H boxes s
        = (inr (detections, boxes), s')
        /\ trace s' = trace s ++ t
        /\ attempted t
           = flat_map (fun b => map (fun c => (b, c)) combinations) boxes
        /\ detections = omap (detect_box W H) boxes).
Proof.
  split; [|split].
  - intros b s0. eexists _, _, _.
    split; [apply extract_sign_number_run|].
    split; [reflexivity|].
    split; [apply attempted_calls_of|].
    split; [reflexivity|].
    intros Hall. apply survivors_nil_iff in Hall. now rewrite Hall.
  - apply candidate_none_of_throw.
  - destruct (process_boxes_run W H boxes HW HH [] s) as [rs Hrs].
    eexists _, _, _. unfold process_image, bind. rewrite Hrs.
    split; [reflexivity|].
    split; [reflexivity|].
    split; [apply attempted_boxes | reflexivity].
Qed.

End Ensemble.

Example sample_extract :
  fst (extract_sign_number sample_image_to_string sample_image_to_data
         sample_float (100, 100, 30, 40) (mk_state [] []))
  = inr (Some (mk_result "2001" 90 8 otsu_inv)).
Proof. vm_compute. reflexivity. Qed.

Lemma engine_failure_is_skipped_witness :
  exists (detections : list SignDetection) (s' : state) (t : list call),
    process_image sample_image_to_string sample_image_to_data sample_float
      1000 1000 [(100, 100, 30, 40); (300, 100, 30, 40)] (mk_state [] [])
    = (inr (detections, [(100, 100, 30, 40); (300, 100, 30, 40)]), s')
    /\ trace s' = trace (mk_state [] []) ++ t
    /\ attempted t
       = flat_map (fun b => map (fun c => (b, c)) combinations)
           [(100, 100, 30, 40); (300, 100, 30, 40)]
    /\ detections
       = omap (detect_box sample_image_to_string sample_image_to_data
                 sample_float 1000 1000)
           [(100, 100, 30, 40); (300, 100, 30, 40)].
Proof.
  assert (HW : 1000 <> 0) by discriminate.
  exact (proj2 (proj2 (engine_failure_is_skipped
                         sample_image_to_string sample_image_to_data
                         sample_float 1000 1000
                         [(100, 100, 30, 40); (300, 100, 30, 40)]
                         (mk_state [] []) HW HW))).
Defined.

End OcrFacts.

(** ** Embedded-text extractor *)

Module PdfTextFacts.

Import PyStr PyStrFacts PdfText.

(** *** Loops *)

Lemma for_loop_invariant {A S : Type} (P : S -> Prop)
  (body : A -> S -> option S) (l : list A) :
  (forall a s s', P s -> body a s = Some s' -> P s') ->
  forall s s', P s -> for_loop l body s = Some s' -> P s'.
Proof.
  intros Hbody. induction l as [|a l IH]; intros s s' Hs Hrun; cbn in Hrun.
  - now injection Hrun as <-.
  - destruct (body a s) as [s1|] eqn:E; [|discriminate].
    eapply IH; [|exact Hrun]. eapply Hbody; eauto.
Qed.

Lemma for_loop_extends {A B : Type}
  (body : A -> list B -> option (list B)) (l : list A) :
  (forall a s, exists k, body a s = Some (s ++ k)) ->
  forall s, exists k, for_loop l body s = Some (s ++ k).
Proof.
  intros Hbody. induction l as [|a l IH]; intros s; cbn.
  - exists []. now rewrite app_nil_r.
  - destruct (Hbody a s) as [k1 ->]. destruct (IH (s ++ k1)) as [k2 ->].
    exists (k1 ++ k2). now rewrite app_assoc.
Qed.

Lemma percent_of_some (v dim : Q) :
  ~ (dim == 0)%Q -> percent_of v dim = Some (v / dim * 100)%Q.
Proof.
  intros Hd. unfold percent_of.
  destruct (Qeq_bool dim 0) eqn:E; [|reflexivity].
  apply Qeq_bool_eq in E. contradiction.
Qed.

Lemma new_sign_some (pw ph : Q) (number : string) (pnum : Z) (tx ty tw th : Q) :
  ~ (pw == 0)%Q -> ~ (ph == 0)%Q ->
  exists sign, new_sign pw ph number pnum tx ty tw th = Some sign
               /\ sign_number sign = number.
Proof.
  intros Hw Hh. unfold new_sign.
  rewrite !percent_of_some by assumption. cbn. eauto.
Qed.

Lemma new_sign_number (pw ph : Q) (number : string) (pnum : Z)
  (tx ty tw th : Q) (sign : SignHotspot) :
  new_sign pw ph number pnum tx ty tw th = Some sign ->
  sign_number sign = number.
Proof.
  unfold new_sign. intros H.
  repeat match type of H with
         | context [percent_of ?v ?d] =>
             destruct (percent_of v d); simplify_eq/=
         end.
  reflexivity.
Qed.

(** *** The literal "0000" *)

(** C1 (the code at the failing input). On the scenario page the extractor
    emits a detection labelled "0000". *)
Theorem extractor_emits_0000 :
  labels <$> extract_signs_from_page scenario_page 1
  = Some ["2001"; "2002"; "0000"]%string.
Proof. vm_compute. reflexivity. Qed.

(** *** Emitted labels have the shape of the pattern *)

Lemma fullmatch_pattern (s : string) : fullmatch s = true -> label_pattern s.
Proof.
  destruct s as [|a [|b [|c [|d rest]]]]; try discriminate.
  cbn [fullmatch]. intros H.
  apply andb_true_iff in H as [H Hrest].
  apply andb_true_iff in H as [H Hd].
  apply andb_true_iff in H as [H Hc].
  apply andb_true_iff in H as [Ha Hb].
  destruct rest as [|p frac]; [now apply label_plain|].
  apply andb_true_iff in Hrest as [Hrest Hall].
  apply andb_true_iff in Hrest as [Hp Hne].
  apply Ascii.eqb_eq in Hp. subst p.
  apply label_series; auto. now destruct frac.
Qed.

Lemma SIGN_PATTERN_match_pattern (s number : string) :
  SIGN_PATTERN_match s = Some number -> label_pattern number.
Proof.
  unfold SIGN_PATTERN_match. destruct (fullmatch (chomp s)) eqn:E; [|discriminate].
  intros [= <-]. now apply fullmatch_pattern.
Qed.

Lemma well_labelled_snoc (signs : list SignHotspot) (sign : SignHotspot) :
  well_labelled signs -> label_pattern (sign_number sign) ->
  well_labelled (signs ++ [sign]).
Proof. intros H1 H2. apply Forall_app. split; [exact H1 | now constructor]. Qed.

Lemma visit_span_well_labelled pw ph pnum sp signs signs' :
  well_labelled signs -> visit_span pw ph pnum sp signs = Some signs' ->
  well_labelled signs'.
Proof.
  unfold visit_span. intros Hs H.
  destruct (SIGN_PATTERN_match _) as [number|] eqn:E; [|now simplify_eq].
  destruct (span_bbox sp) as [[[b0 b1] b2] b3].
  destruct (new_sign _ _ _ _ _ _ _ _) as [sign|] eqn:En; simplify_eq/=.
  apply well_labelled_snoc; [exact Hs|].
  rewrite (new_sign_number _ _ _ _ _ _ _ _ _ En).
  eapply SIGN_PATTERN_match_pattern, E.
Qed.

Lemma visit_line_well_labelled pw ph pnum blk n ln signs signs' :
  well_labelled signs -> visit_line pw ph pnum blk n ln signs = Some signs' ->
  well_labelled signs'.
Proof.
  unfold visit_line. intros Hs H.
  destruct (SIGN_PATTERN_match _) as [number|] eqn:E; [|now simplify_eq].
  destruct (already_found number signs); cbn [negb] in H; [now simplify_eq|].
  destruct (new_sign _ _ _ _ _ _ _ _) as [sign|] eqn:En; simplify_eq/=.
  apply well_labelled_snoc; [exact Hs|].
  rewrite (new_sign_number _ _ _ _ _ _ _ _ _ En).
  eapply SIGN_PATTERN_match_pattern, E.
Qed.

(** Every label the extractor emits has the shape of the pattern. *)
Lemma emitted_labels_match_pattern (p : page) (pnum : Z)
  (signs : list SignHotspot) :
  extract_signs_from_page p pnum = Some signs -> well_labelled signs.
Proof.
  unfold extract_signs_from_page. intros H.
  destruct (structured_walk p pnum []) as [s1|] eqn:E1; simplify_eq/=.
  assert (H1 : well_labelled s1).
  { unfold structured_walk in E1.
    eapply (for_loop_invariant well_labelled); [|constructor|exact E1].
    intros blk s s' Hs Hb. cbn beta in Hb.
    destruct (block_type blk =? 0); [|now simplify_eq].
    eapply (for_loop_invariant well_labelled); [|exact Hs|exact Hb].
    intros ln t t' Ht Hl.
    eapply (for_loop_invariant well_labelled); [|exact Ht|exact Hl].
    intros sp u u'. apply visit_span_well_labelled. }
  unfold fallback_walk in H.
  eapply (for_loop_invariant well_labelled); [|exact H1|exact H].
  intros blk s s' Hs Hb.
  eapply (for_loop_invariant well_labelled); [|exact Hs|exact Hb].
  intros ln t t'. apply visit_line_well_labelled.
Qed.

(** *** The fallback walk and labels already found *)

Lemma already_found_iff (number : string) (signs : list SignHotspot) :
  already_found number signs = true <-> number ∈ labels signs.
Proof.
  unfold already_found, labels. rewrite existsb_exists. split.
  - intros (s & Hin & Heq). apply String.eqb_eq in Heq. subst number.
    apply list_elem_of_In, in_map, Hin.
  - intros Hin. apply list_elem_of_In, in_map_iff in Hin as (s & <- & Hin).
    exists s. split; [exact Hin | apply String.eqb_refl].
Qed.

Lemma keep_new_app (seen l1 l2 : list string) :
  keep_new seen (l1 ++ l2)
  = keep_new seen l1 ++ keep_new (seen ++ keep_new seen l1) l2.
Proof.
  revert seen. induction l1 as [|n l1 IH]; intros seen; cbn [keep_new app].
  - now rewrite app_nil_r.
  - destruct (decide (n ∈ seen)); [apply IH|].
    rewrite IH. cbn [app]. now rewrite <- app_assoc.
Qed.

Lemma elem_of_keep_new (seen cands : list string) (n : string) :
  n ∈ keep_new seen cands <-> n ∈ cands /\ n ∉ seen.
Proof.
  revert seen. induction cands as [|c rest IH]; intros seen; cbn [keep_new].
  - set_solver.
  - destruct (decide (c ∈ seen)) as [Hc|Hc].
    + rewrite IH. set_solver.
    + rewrite elem_of_cons, IH, elem_of_app, list_elem_of_singleton.
      destruct (decide (n = c)); set_solver.
Qed.

Lemma NoDup_keep_new (seen cands : list string) : NoDup (keep_new seen cands).
Proof.
  revert seen. induction cands as [|c rest IH]; intros seen; cbn [keep_new].
  - constructor.
  - destruct (decide (c ∈ seen)); [apply IH|].
    constructor; [|apply IH].
    rewrite elem_of_keep_new. set_solver.
Qed.

Section FallbackWalk.

Variable p : page.
Variable pnum : Z.
Hypothesis width_nonzero : ~ (page_width p == 0)%Q.
Hypothesis height_nonzero : ~ (page_height p == 0)%Q.

Lemma visit_span_extends (sp : span) (signs : list SignHotspot) :
  exists k, visit_span (page_width p) (page_height p) pnum sp signs
            = Some (signs ++ k).
Proof.
  unfold visit_span.
  destruct (SIGN_PATTERN_match _) as [number|].
  - destruct (span_bbox sp) as [[[b0 b1] b2] b3].
    destruct (new_sign_some (page_width p) (page_height p) number pnum
                b0 b1 (b2 - b0)%Q (b3 - b1)%Q width_nonzero height_nonzero)
      as (sign & -> & _).
    now exists [sign].
  - exists []. now rewrite app_nil_r.
Qed.

Lemma structured_walk_extends (signs : list SignHotspot) :
  exists k, structured_walk p pnum signs = Some (signs ++ k).
Proof.
  unfold structured_walk. apply for_loop_extends. intros blk s.
  destruct (block_type blk =? 0).
  - apply for_loop_extends. intros ln t.
    apply for_loop_extends. intros sp u. apply visit_span_extends.
  - exists []. now rewrite app_nil_r.
Qed.

Lemma visit_lines_keep_new (blk : text_block) (n : nat) (lns : list string) :
  forall signs : list SignHotspot,
  exists k,
    for_loop lns (visit_line (page_width p) (page_height p) pnum blk n) signs
    = Some (signs ++ k)
    /\ labels k = keep_new (labels signs) (omap line_label lns).
Proof.
  induction lns as [|ln lns IH]; intros signs; cbn [for_loop omap list_omap].
  - exists []. now rewrite app_nil_r.
  - unfold visit_line at 1. unfold line_label at 1.
    destruct (SIGN_PATTERN_match (py_strip ln)) as [number|]; [|apply IH].
    cbn [keep_new].
    destruct (already_found number signs) eqn:Ef; cbn [negb].
    + apply already_found_iff in Ef.
      destruct (decide (number ∈ labels signs)); [apply IH | contradiction].
    + destruct (decide (number ∈ labels signs)) as [Hin|_].
      { apply already_found_iff in Hin. congruence. }
      destruct (new_sign_some (page_width p) (page_height p) number pnum
                  (tb_x0 blk) (tb_y0 blk) (tb_x1 blk - tb_x0 blk)%Q
                  ((tb_y1 blk - tb_y0 blk) / inject_Z (Z.of_nat n))%Q
                  width_nonzero height_nonzero)
        as (sign & -> & Hnum).
      cbn [mbind option_bind].
      destruct (IH (signs ++ [sign])) as (k & -> & Hk).
      exists (sign :: k). split; [now rewrite <- app_assoc|].
      cbn [labels map]. rewrite Hnum. f_equal.
      unfold labels in Hk |- *. rewrite Hk, map_app. now rewrite <- Hnum.
Qed.

Lemma fallback_blocks_keep_new (blks : list text_block) :
  forall signs : list SignHotspot,
  exists k,
    for_loop blks (fun blk signs =>
      let lns := py_split newline (py_strip (tb_text blk)) in
      for_loop lns
        (visit_line (page_width p) (page_height p) pnum blk (length lns))
        signs) signs
    = Some (signs ++ k)
    /\ labels k
       = keep_new (labels signs)
           (omap line_label
              (flat_map (fun blk => py_split newline (py_strip (tb_text blk)))
                        blks)).
Proof.
  induction blks as [|blk blks IH]; intros signs; cbn [for_loop flat_map].
  - exists []. now rewrite app_nil_r.
  - cbv zeta in IH |- *.
    destruct (visit_lines_keep_new blk
                (length (py_split newline (py_strip (tb_text blk))))
                (py_split newline (py_strip (tb_text blk))) signs)
      as (k1 & -> & Hk1).
    destruct (IH (signs ++ k1)) as (k2 & -> & Hk2).
    exists (k1 ++ k2). split; [now rewrite app_assoc|].
    rewrite omap_app, keep_new_app. unfold labels in *.
    rewrite map_app, Hk1. f_equal.
    rewrite Hk2, map_app. now rewrite Hk1.
Qed.

(** C6 (amended). With non-zero page dimensions the extractor returns the
    finds of the structured walk followed by the kept fallback finds; a
    matching fallback line is kept exactly when its label is not among the
    detections collected so far, by the structured walk or by an earlier
    fallback line.  Hence the kept fallback labels are pairwise distinct and
    are the candidate labels the structured walk did not capture. *)
Theorem fallback_keeps_labels_not_yet_found :
  exists found kept : list SignHotspot,
    structured_walk p pnum [] = Some found
    /\ extract_signs_from_page p pnum = Some (found ++ kept)
    /\ labels kept = keep_new (labels found) (fallback_candidates p)
    /\ NoDup (labels kept)
    /\ (forall n, n ∈ labels kept <->
                  n ∈ fallback_candidates p /\ n ∉ labels found).
Proof.
  destruct (structured_walk_extends []) as (found & Hfound).
  cbn [app] in Hfound.
  destruct (fallback_blocks_keep_new (text_blocks p) found) as (kept & Hrun & Hk).
  exists found, kept.
  split; [exact Hfound|].
  split.
  { unfold extract_signs_from_page. rewrite Hfound. exact Hrun. }
  fold (fallback_lines p) in Hk. fold (fallback_candidates p) in Hk.
  split; [exact Hk|]. rewrite Hk.
  split; [apply NoDup_keep_new | intros n; apply elem_of_keep_new].
Qed.

End FallbackWalk.

(** C6 (counterexample). The second fallback find of a label is dropped
    although the structured walk never captured that label. *)
Lemma fallback_finds_are_deduplicated :
  labels <$> extract_signs_from_page split_runs_page 1
  <> claimed_labels split_runs_page 1.
Proof. vm_compute. discriminate. Qed.

Lemma fallback_keeps_labels_not_yet_found_witness :
  exists found kept : list SignHotspot,
    structured_walk split_runs_page 1 [] = Some found
    /\ extract_signs_from_page split_runs_page 1 = Some (found ++ kept)
    /\ labels kept
       = keep_new (labels found) (fallback_candidates split_runs_page)
    /\ NoDup (labels kept)
    /\ (forall n, n ∈ labels kept <->
                  n ∈ fallback_candidates split_runs_page
                  /\ n ∉ labels found).
Proof.
  apply (fallback_keeps_labels_not_yet_found split_runs_page 1);
    vm_compute; discriminate.
Defined.

End PdfTextFacts.

(** ** Hotspot percentages of both paths *)

Module GeometryFacts.

Import Geometry.

Lemma ratio_range (v d : Q) :
  (0 < d)%Q -> (0 <= v <= d)%Q -> (0 <= v / d * 100 <= 100)%Q.
Proof.
  intros Hd [H0 H1].
  assert (Hlo : (0 <= v / d)%Q) by (apply Qle_shift_div_l; lra).
  assert (Hhi : (v / d <= 1)%Q) by (apply Qle_shift_div_r; lra).
  set (t := (v / d)%Q) in *. lra.
Qed.

Lemma round2_range (q : Q) : (0 <= q <= 100)%Q -> (0 <= round2 q <= 100)%Q.
Proof.
  intros [H0 H1]. unfold round2.
  assert (Hlo : 0 <= py_round (q * 100)).
  { transitivity (Qfloor (q * 100)); [|apply py_round_lower].
    change 0 with (Qfloor 0). apply Qfloor_resp_le. lra. }
  assert (Hhi : py_round (q * 100) <= 10000).
  { assert (Hf : Qfloor (q * 100) <= 10000).
    { change 10000 with (Qfloor 10000). apply Qfloor_resp_le. lra. }
    destruct (Z.eq_dec (Qfloor (q * 100)) 10000) as [E|E].
    - unfold py_round. rewrite E.
      assert (Hc : Qcompare (q * 100 - inject_Z 10000) (1 # 2) = Lt).
      { rewrite <- Qlt_alt. change (inject_Z 10000) with 10000%Q. lra. }
      rewrite Hc. lia.
    - pose proof (py_round_upper (q * 100)). lia. }
  rewrite Zle_Qle in Hlo, Hhi.
  change (inject_Z 0) with 0%Q in Hlo.
  change (inject_Z 10000) with 10000%Q in Hhi.
  set (z := inject_Z (py_round (q * 100))) in *.
  split.
  - apply Qle_shift_div_l; lra.
  - apply Qle_shift_div_r; lra.
Qed.

Lemma centre_range (a b c : Q) :
  (0 <= a)%Q -> (0 <= b)%Q -> (a + b <= c)%Q -> (0 <= a + b / 2 <= c)%Q.
Proof.
  intros Ha Hb Hc.
  assert (E : (b / 2 == (1 # 2) * b)%Q) by field.
  rewrite E. lra.
Qed.

Lemma inject_Z_le (a b : Z) : a <= b -> (inject_Z a <= inject_Z b)%Q.
Proof. intros H. now rewrite <- Zle_Qle. Qed.

(** C2 (counterexample). The hotspot of a run that starts near the left
    edge of the page begins left of the page: its x percentage is negative. *)
Lemma hotspot_left_of_page :
  exists sign : PdfText.SignHotspot,
    PdfText.extract_signs_from_page margin_page 1 = Some [sign]
    /\ ~ in_range (PdfText.to_dict_hotspot sign).
Proof.
  eexists. split; [vm_compute; reflexivity|].
  vm_compute. intros [[Hneg _] _]. apply Hneg. reflexivity.
Qed.

(** C2 (amended). The hotspot coordinates are percentages of the page
    dimensions, without clamping.  On the OCR path, for a box within an
    image of positive dimensions, all four coordinates of the detection
    lie in [0, 100]; on the embedded-text path, for a text box whose
    growth by 30% on every side still lies within a page of positive
    dimensions, all four coordinates of the hotspot lie in [0, 100]. *)
Theorem hotspot_percentages_in_range :
  (forall (W H x y w h : Z) (r : Ocr.ocr_result) (s : Ocr.state),
      0 < W -> 0 < H -> Ocr.inside_image W H (x, y, w, h) ->
      exists d : Ocr.SignDetection,
        Ocr.make_detection W H (x, y, w, h) r s = (inr d, s)
        /\ in_range (Ocr.to_dict_bbox d))
  /\ (forall (pw ph : Q) (number : string) (pnum : Z) (tx ty tw th : Q),
        (0 < pw)%Q -> (0 < ph)%Q -> grown_box_in_page pw ph tx ty tw th ->
        exists sign : PdfText.SignHotspot,
          PdfText.new_sign pw ph number pnum tx ty tw th = Some sign
          /\ in_range (PdfText.to_dict_hotspot sign)).
Proof.
  split.
  - intros W H x y w h r s HW HH (Hx & Hy & Hw & Hh & Hxw & Hyh).
    rewrite OcrFacts.make_detection_run by lia.
    eexists. split; [reflexivity|].
    assert (QW : (0 < inject_Z W)%Q) by (change 0%Q with (inject_Z 0); now rewrite <- Zlt_Qlt).
    assert (QH : (0 < inject_Z H)%Q) by (change 0%Q with (inject_Z 0); now rewrite <- Zlt_Qlt).
    apply inject_Z_le in Hx, Hy, Hw, Hh, Hxw, Hyh.
    rewrite inject_Z_plus in Hxw, Hyh.
    change (inject_Z 0) with 0%Q in *.
    unfold Ocr.to_dict_bbox, Ocr.detection_of, in_range.
    cbn [Ocr.x_percentage Ocr.y_percentage Ocr.width_percentage
         Ocr.height_percentage].
    repeat apply conj; apply round2_range, ratio_range; try assumption;
      try apply centre_range; try assumption; lra.
  - intros pw ph number pnum tx ty tw th Hpw Hph (Hw & Hh & Hl & Hr & Ht & Hb).
    unfold PdfText.new_sign.
    rewrite !PdfTextFacts.percent_of_some by lra.
    eexists. split; [reflexivity|].
    unfold PdfText.to_dict_hotspot, in_range, PdfText.HOTSPOT_EXPANSION.
    cbn [PdfText.hotspot_x_percentage PdfText.hotspot_y_percentage
         PdfText.hotspot_width_percentage PdfText.hotspot_height_percentage].
    repeat apply conj; apply round2_range, ratio_range; try assumption; lra.
Qed.

Lemma hotspot_percentages_in_range_witness :
  (exists d : Ocr.SignDetection,
      Ocr.make_detection 1000 800 (100, 100, 30, 40)
        (Ocr.mk_result "2001" 90 8 Ocr.otsu) (Ocr.mk_state [] [])
      = (inr d, Ocr.mk_state [] [])
      /\ in_range (Ocr.to_dict_bbox d))
  /\ (exists sign : PdfText.SignHotspot,
        PdfText.new_sign 612 792 "2001" 1 100 100 30 12 = Some sign
        /\ in_range (PdfText.to_dict_hotspot sign)).
Proof.
  split.
  - apply (proj1 hotspot_percentages_in_range); [lia | lia |].
    unfold Ocr.inside_image. lia.
  - apply (proj2 hotspot_percentages_in_range);
      [reflexivity | reflexivity |].
    unfold grown_box_in_page. repeat split; vm_compute; discriminate.
Defined.

End GeometryFacts.

(** ** Proximity grouper *)

Module GrouperFacts.

Import PyStr PyStrFacts Grouper.

Example scenario_c :
  group_page 2 [plain "2001.1" 10 20; plain "2001.2" 10 (43 # 2)]
  = [set_group "2001 series (2 signs)" 2 (plain "2001.1" 10 20);
     set_group "2001 series (2 signs)" 2 (plain "2001.2" 10 (43 # 2))].
Proof. vm_compute. reflexivity. Qed.

(** *** Series labels and their base *)

Lemma base_number_cons (c : ascii) (s : string) :
  base_number (String c s)
  = if Ascii.eqb c dot then EmptyString else String c (base_number s).
Proof.
  unfold base_number. cbn [py_split].
  destruct (Ascii.eqb c dot); [reflexivity|].
  destruct (py_split dot s) eqn:E; [|reflexivity].
  exfalso. now apply (py_split_nonempty dot s).
Qed.

Lemma base_number_no_dot (s : string) : contains dot (base_number s) = false.
Proof.
  induction s as [|c s IH]; [reflexivity|].
  rewrite base_number_cons. destruct (Ascii.eqb c dot) eqn:E; [reflexivity|].
  unfold contains in *. cbn [any_char]. unfold is_char at 1. now rewrite E.
Qed.

(** A label starts with [base + "."] exactly when it is a series label
    whose base is [base]. *)
Lemma startswith_base (b s : string) :
  contains dot b = false ->
  startswith s (b +:+ ".") = true
  <-> is_series s = true /\ base_number s = b.
Proof.
  unfold is_series, contains. revert s.
  induction b as [|a b IH]; intros s Hb.
  - change (EmptyString +:+ ".") with (String dot EmptyString).
    destruct s as [|c s]; cbn [startswith any_char].
    { split; [discriminate | intros [H _]; discriminate]. }
    rewrite base_number_cons. unfold is_char at 1.
    destruct (Ascii.eqb c dot); cbn [andb orb].
    + split; [now split | reflexivity].
    + split; [discriminate | intros [_ H]; discriminate].
  - cbn [any_char] in Hb. apply orb_false_iff in Hb as [Ha Hb].
    unfold is_char in Ha.
    change (String a b +:+ ".") with (String a (b +:+ ".")).
    destruct s as [|c s]; cbn [startswith any_char].
    { split; [discriminate | intros [H _]; discriminate]. }
    rewrite base_number_cons. unfold is_char at 1.
    destruct (Ascii.eqb_spec c a) as [->|Hne].
    + rewrite Ha. cbn [andb orb]. rewrite (IH s Hb).
      split.
      * intros [H1 H2]. split; [exact H1 | now rewrite H2].
      * intros [H1 H2]. injection H2 as H2. now split.
    + cbn [andb]. split; [discriminate|].
      destruct (Ascii.eqb c dot); intros [_ H]; [discriminate|].
      injection H as H1 H2. contradiction.
Qed.

(** *** The inner loop *)

Lemma nearby_iff (t : Q) (sign1 sign2 : sign) :
  nearby t sign1 sign2 = true <-> offsets_ok t sign1 sign2.
Proof.
  unfold nearby, offsets_ok, offset_x, offset_y, thrice, held, fsub, fmul.
  cbv zeta.
  now rewrite orb_true_iff, !andb_true_iff, !Qlt_bool_iff.
Qed.

Lemma collect_elem (t : Q) (sign1 : sign) (i : nat) (base : string)
  (rest : list sign) :
  forall (j : nat) (grp : list nat) (used : gset nat) (k : nat),
    k ∈ (collect t sign1 i base j rest grp used).1
    <-> k ∈ grp
        \/ ((j <= k)%nat
            /\ exists sign2, rest !! (k - j)%nat = Some sign2
                             /\ admits t sign1 i base used k sign2).
Proof.
  induction rest as [|sign2 rest IH]; intros j grp used k; cbn [collect].
  - cbn [fst]. split; [now left|]. intros [H|(_ & s2 & H & _)]; [exact H|].
    now rewrite lookup_nil in H.
  - destruct (bool_decide (j ≠ i) && bool_decide (j ∉ used)
              && startswith (sign_number sign2) (base +:+ ".")
              && nearby t sign1 sign2) eqn:Etest.
    + apply andb_true_iff in Etest as [Etest Hnear].
      apply andb_true_iff in Etest as [Etest Hstart].
      apply andb_true_iff in Etest as [Hji Hju].
      apply bool_decide_eq_true in Hji, Hju. apply nearby_iff in Hnear.
      rewrite IH, elem_of_app, list_elem_of_singleton. split.
      * intros [[H| ->]|(Hle & s2 & Hlk & Hk1 & Hk2 & Hk3)].
        -- now left.
        -- right. split; [lia|]. exists sign2.
           rewrite Nat.sub_diag. split; [reflexivity|]. now repeat split.
        -- right. split; [lia|]. exists s2.
           replace (k - j)%nat with (S (k - S j)) by lia.
           split; [exact Hlk|]. split; [exact Hk1|].
           split; [set_solver | exact Hk3].
      * intros [H|(Hle & s2 & Hlk & Hk1 & Hk2 & Hk3)]; [now left; left|].
        destruct (decide (k = j)) as [->|Hne]; [now left; right|].
        right. split; [lia|]. exists s2.
        replace (k - j)%nat with (S (k - S j)) in Hlk by lia.
        split; [exact Hlk|]. split; [exact Hk1|].
        split; [set_solver | exact Hk3].
    + rewrite IH. split.
      * intros [H|(Hle & s2 & Hlk & Hk)]; [now left|].
        right. split; [lia|]. exists s2.
        replace (k - j)%nat with (S (k - S j)) by lia. now split.
      * intros [H|(Hle & s2 & Hlk & Hk1 & Hk2 & Hk3 & Hk4)]; [now left|].
        destruct (decide (k = j)) as [->|Hne].
        -- exfalso. rewrite Nat.sub_diag in Hlk. injection Hlk as <-.
           apply nearby_iff in Hk4.
           rewrite Hk3, Hk4, !bool_decide_eq_true_2 in Etest by assumption.
           discriminate.
        -- right. split; [lia|]. exists s2.
           replace (k - j)%nat with (S (k - S j)) in Hlk by lia.
           now repeat split.
Qed.

(** *** Annotation *)

Lemma lookup_annotate (grp : list nat) (l : string) (n : nat)
  (ss : list sign) (k : nat) :
  annotate grp l n ss !! k
  = if bool_decide (k ∈ grp) then set_group l n <$> ss !! k else ss !! k.
Proof.
  unfold annotate. revert ss.
  induction grp as [|g grp IH]; intros ss; cbn [foldl]; [reflexivity|].
  rewrite IH. destruct (decide (k = g)) as [->|Hne].
  - rewrite list_lookup_alter_eq.
    rewrite (bool_decide_eq_true_2 (g ∈ g :: grp)) by apply list_elem_of_here.
    destruct (bool_decide (g ∈ grp)); [|reflexivity].
    now destruct (ss !! g).
  - rewrite list_lookup_alter_ne by congruence.
    destruct (bool_decide (k ∈ grp)) eqn:E.
    + apply bool_decide_eq_true in E.
      now rewrite bool_decide_eq_true_2 by now apply list_elem_of_further.
    + apply bool_decide_eq_false in E.
      rewrite bool_decide_eq_false_2; [reflexivity|].
      rewrite elem_of_cons. tauto.
Qed.

(** *** A seed and its group *)

(** C8 (counterexample). A label of the seed's base that is not a series
    label satisfies the proximity test and yet is left out of the group. *)
Lemma plain_label_of_the_base_is_left_out :
  base_number (sign_number (plain "2001" 10 (43 # 2)))
  = base_number (sign_number (plain "2001.1" 10 20))
  /\ offsets_ok 2 (plain "2001.1" 10 20) (plain "2001" 10 (43 # 2))
  /\ group_page 2 [plain "2001.1" 10 20; plain "2001" 10 (43 # 2)]
     = [plain "2001.1" 10 20; plain "2001" 10 (43 # 2)].
Proof.
  split; [reflexivity|]. split; [|vm_compute; reflexivity].
  apply nearby_iff. vm_compute. reflexivity.
Qed.

(** C8 (amended). For an unvisited seed carrying a decimal suffix, an
    unvisited candidate that itself carries a decimal suffix and has the
    seed's integer base joins the seed's group exactly when its offsets
    satisfy (|dx| < t and |dy| < 3t) or (|dy| < t and |dx| < 3t), the
    offsets and the product 3t being the floats the program computes; a
    group of two or more has each member annotated with the shared label
    and the size, a singleton leaves every sign as it was; and the two
    labels of scenario C form one group of size 2. *)
Theorem series_members_join_when_nearby (t : Q) (signs : list sign)
  (used : gset nat) (i : nat) (seed : sign)
  (Hseed : signs !! i = Some seed)
  (Hfresh : i ∉ used)
  (Hseries : is_series (sign_number seed) = true) :
  (exists grp : list nat,
      (forall j : nat,
          j ∈ grp <->
          j = i
          \/ (j <> i /\ (j ∉ used)
              /\ exists cand : sign,
                   signs !! j = Some cand
                   /\ is_series (sign_number cand) = true
                   /\ base_number (sign_number cand)
                      = base_number (sign_number seed)
                   /\ offsets_ok t seed cand))
      /\ (forall j : nat,
            (visit_seed t i (signs, used)).1 !! j
            = if bool_decide (j ∈ grp) && (2 <=? length grp)%nat
              then set_group
                     (group_label (base_number (sign_number seed)) (length grp))
                     (length grp) <$> signs !! j
              else signs !! j))
  /\ group_page 2 [plain "2001.1" 10 20; plain "2001.2" 10 (43 # 2)]
     = [set_group "2001 series (2 signs)" 2 (plain "2001.1" 10 20);
        set_group "2001 series (2 signs)" 2 (plain "2001.2" 10 (43 # 2))].
Proof.
  split; [|exact scenario_c].
  unfold visit_seed. rewrite Hseed.
  rewrite bool_decide_eq_false_2 by exact Hfresh. rewrite Hseries.
  set (base := base_number (sign_number seed)).
  pose proof (collect_elem t seed i base signs 0 [i] ({[i]} ∪ used)) as Helem.
  destruct (collect t seed i base 0 signs [i] ({[i]} ∪ used)) as [grp used'].
  cbn [fst] in Helem. exists grp. split.
  - intros j. rewrite Helem, list_elem_of_singleton, Nat.sub_0_r.
    split.
    + intros [->|(_ & cand & Hlk & Hji & Hju & Hstart & Hoff)]; [now left|].
      right. apply startswith_base in Hstart as [Hs Hb];
        [|apply base_number_no_dot].
      split; [exact Hji|]. split; [set_solver|]. now exists cand.
    + intros [->|(Hji & Hju & cand & Hlk & Hs & Hb & Hoff)]; [now left|].
      right. split; [lia|]. exists cand. split; [exact Hlk|].
      split; [exact Hji|]. split; [set_solver|]. split; [|exact Hoff].
      apply startswith_base; [apply base_number_no_dot | now split].
  - intros j.
    change (2 <=? length grp)%nat with (1 <? length grp)%nat.
    destruct (1 <? length grp)%nat; cbn [fst].
    + rewrite lookup_annotate, andb_true_r. reflexivity.
    + now rewrite andb_false_r.
Qed.

Lemma series_members_join_when_nearby_witness :
  exists grp : list nat,
    (forall j : nat,
        j ∈ grp <->
        j = 0%nat
        \/ (j <> 0%nat /\ (j ∉ (∅ : gset nat))
            /\ exists cand : sign,
                 [plain "2001.1" 10 20; plain "2001.2" 10 (43 # 2)] !! j
                 = Some cand
                 /\ is_series (sign_number cand) = true
                 /\ base_number (sign_number cand)
                    = base_number (sign_number (plain "2001.1" 10 20))
                 /\ offsets_ok 2 (plain "2001.1" 10 20) cand))
    /\ (forall j : nat,
          (visit_seed 2 0
             ([plain "2001.1" 10 20; plain "2001.2" 10 (43 # 2)], ∅)).1 !! j
          = if bool_decide (j ∈ grp) && (2 <=? length grp)%nat
            then set_group
                   (group_label
                      (base_number (sign_number (plain "2001.1" 10 20)))
                      (length grp))
                   (length grp)
                 <$> [plain "2001.1" 10 20; plain "2001.2" 10 (43 # 2)] !! j
            else [plain "2001.1" 10 20; plain "2001.2" 10 (43 # 2)] !! j).
Proof.
  apply (series_members_join_when_nearby 2
           [plain "2001.1" 10 20; plain "2001.2" 10 (43 # 2)] ∅ 0%nat
           (plain "2001.1" 10 20)).
  - reflexivity.
  - apply not_elem_of_empty.
  - reflexivity.
Defined.

(** Two series labels whose decimal abscissae, 14.06 and 16.06, are two
    apart: the floats that hold them are a little less than two apart, the
    test passes and the labels are grouped. *)
Example decimals_two_apart_are_grouped :
  offset_x (plain "2001.1" (1406 # 100) 20) (plain "2001.2" (1606 # 100) 23)
  = (1125899906842623 # 562949953421312)%Q
  /\ group_page 2 [plain "2001.1" (1406 # 100) 20;
                   plain "2001.2" (1606 # 100) 23]
     = [set_group "2001 series (2 signs)" 2 (plain "2001.1" (1406 # 100) 20);
        set_group "2001 series (2 signs)" 2 (plain "2001.2" (1606 # 100) 23)].
Proof. split; vm_compute; reflexivity. Qed.

(** *** Running the grouper again *)

Lemma key_set_group (l : string) (n : nat) (s : sign) :
  key (set_group l n s) = key s.
Proof. reflexivity. Qed.

Lemma nearby_keys (t : Q) (a a' b b' : sign) :
  key a = key a' -> key b = key b' -> nearby t a b = nearby t a' b'.
Proof.
  unfold key, nearby. intros [= _ Hx Hy] [= _ Hx' Hy'].
  now rewrite Hx, Hy, Hx', Hy'.
Qed.

Lemma collect_keys (t : Q) (i : nat) (base : string) (sign1 sign1' : sign)
  (rest : list sign) :
  key sign1 = key sign1' ->
  forall (rest' : list sign) (j : nat) (grp : list nat) (used : gset nat),
    key <$> rest = key <$> rest' ->
    collect t sign1 i base j rest grp used
    = collect t sign1' i base j rest' grp used.
Proof.
  intros H1. induction rest as [|s2 rest IH];
    intros [|s2' rest'] j grp used Hk; try discriminate; [reflexivity|].
  assert (Hs : key s2 = key s2') by (cbn in Hk; congruence).
  assert (Hrest : key <$> rest = key <$> rest') by (cbn in Hk; congruence).
  cbn [collect].
  rewrite (nearby_keys t sign1 sign1' s2 s2' H1 Hs).
  assert (Hn : sign_number s2 = sign_number s2') by (unfold key in Hs; congruence).
  rewrite Hn.
  destruct (_ && _ && _ && _); now apply IH.
Qed.

Lemma keys_annotate (grp : list nat) (l : string) (n : nat) (ss : list sign) :
  key <$> annotate grp l n ss = key <$> ss.
Proof.
  apply list_eq. intros k. rewrite !list_lookup_fmap, lookup_annotate.
  destruct (bool_decide (k ∈ grp)); [|reflexivity].
  now destruct (ss !! k).
Qed.

Lemma keys_apply_ops (ops : list op) (ss : list sign) :
  key <$> apply_ops ops ss = key <$> ss.
Proof.
  unfold apply_ops. revert ss. induction ops as [|o ops IH]; intros ss;
    cbn [foldl]; [reflexivity|].
  rewrite IH. apply keys_annotate.
Qed.

(** The annotation a seed causes, and the positions it leaves visited,
    depend on the signs only through what the grouper reads of them. *)
Lemma visit_seed_op (t : Q) (i : nat) (ss : list sign) (used : gset nat) :
  exists (o : op) (used' : gset nat),
    forall ss' : list sign,
      key <$> ss' = key <$> ss ->
      visit_seed t i (ss', used) = (apply_op o ss', used').
Proof.
  unfold visit_seed.
  destruct (ss !! i) as [sign1|] eqn:Ei.
  - destruct (bool_decide (i ∈ used)) eqn:Eu.
    { exists (mk_op [] EmptyString 0), used. intros ss' Hk.
      destruct (ss' !! i); reflexivity. }
    set (base := base_number (sign_number sign1)).
    set (res := if is_series (sign_number sign1)
                then collect t sign1 i base 0 ss [i] ({[i]} ∪ used)
                else ([i], {[i]} ∪ used)).
    exists (if (1 <? length res.1)%nat
            then mk_op res.1 (group_label base (length res.1)) (length res.1)
            else mk_op [] EmptyString 0), res.2.
    intros ss' Hk.
    assert (Hi : key <$> ss' !! i = Some (key sign1)).
    { rewrite <- list_lookup_fmap, Hk, list_lookup_fmap, Ei. reflexivity. }
    destruct (ss' !! i) as [sign1'|]; [|discriminate].
    assert (Hi' : key sign1' = key sign1) by (cbn in Hi; congruence).
    clear Hi. rename Hi' into Hi.
    assert (Hn : sign_number sign1' = sign_number sign1)
      by (unfold key in Hi; congruence).
    rewrite Hn. fold base.
    rewrite (collect_keys t i base sign1' sign1 ss' Hi ss 0 [i] _ Hk).
    fold res. destruct res as [grp used']. cbn [fst snd].
    now destruct (1 <? length grp)%nat.
  - exists (mk_op [] EmptyString 0), used. intros ss' Hk.
    assert (Hi : key <$> ss' !! i = None).
    { rewrite <- list_lookup_fmap, Hk, list_lookup_fmap, Ei. reflexivity. }
    now destruct (ss' !! i).
Qed.

Lemma visit_seeds_ops (t : Q) (idxs : list nat) :
  forall (ss : list sign) (used : gset nat),
  exists (ops : list op) (used' : gset nat),
    forall ss' : list sign,
      key <$> ss' = key <$> ss ->
      foldl (fun st i => visit_seed t i st) (ss', used) idxs
      = (apply_ops ops ss', used').
Proof.
  induction idxs as [|i idxs IH]; intros ss used.
  - exists [], used. reflexivity.
  - destruct (visit_seed_op t i ss used) as (o & u1 & Ho).
    destruct (IH (apply_op o ss) u1) as (ops & u2 & Hops).
    exists (o :: ops), u2. intros ss' Hk. cbn [foldl].
    rewrite (Ho ss' Hk). rewrite Hops; [reflexivity|].
    unfold apply_op. now rewrite !keys_annotate.
Qed.

Lemma lookup_apply_ops (ops : list op) (ss : list sign) (k : nat) :
  apply_ops ops ss !! k = elem_ops ops k <$> ss !! k.
Proof.
  unfold apply_ops, elem_ops. revert ss.
  induction ops as [|o ops IH]; intros ss; cbn [foldl].
  - now destruct (ss !! k).
  - rewrite IH. unfold apply_op. rewrite lookup_annotate.
    destruct (bool_decide (k ∈ op_group o)) eqn:E;
      destruct (ss !! k) as [r|]; simpl; unfold elem_op;
      rewrite ?E; reflexivity.
Qed.

Lemma elem_ops_apply_hit (ops : list op) (k : nat) (h : option op) (r : sign) :
  elem_ops ops k (apply_hit h r) = apply_hit (last_hit k h ops) r.
Proof.
  unfold elem_ops, last_hit. revert h.
  induction ops as [|o ops IH]; intros h; cbn [foldl]; [reflexivity|].
  rewrite <- IH. f_equal. unfold elem_op.
  destruct (bool_decide (k ∈ op_group o)); [|reflexivity].
  now destruct h.
Qed.

Lemma last_hit_acc (ops : list op) (k : nat) (h : option op) :
  last_hit k h ops
  = match last_hit k None ops with Some o => Some o | None => h end.
Proof.
  unfold last_hit. revert h.
  induction ops as [|o ops IH]; intros h; cbn [foldl]; [reflexivity|].
  destruct (bool_decide (k ∈ op_group o)).
  - rewrite (IH (Some o)), (IH None) at 1.
    rewrite (IH (Some o)). now destruct (foldl _ None ops).
  - apply IH.
Qed.

Lemma elem_ops_idempotent (ops : list op) (k : nat) (r : sign) :
  elem_ops ops k (elem_ops ops k r) = elem_ops ops k r.
Proof.
  pose proof (elem_ops_apply_hit ops k None r) as H0. cbn [apply_hit] in H0.
  rewrite H0 at 1. rewrite H0. rewrite elem_ops_apply_hit.
  rewrite last_hit_acc. now destruct (last_hit k None ops).
Qed.

Lemma apply_ops_idempotent (ops : list op) (ss : list sign) :
  apply_ops ops (apply_ops ops ss) = apply_ops ops ss.
Proof.
  apply list_eq. intros k. rewrite !lookup_apply_ops.
  destruct (ss !! k) as [r|]; [|reflexivity].
  cbn. f_equal. apply elem_ops_idempotent.
Qed.

Lemma group_page_idempotent (t : Q) (ss : list sign) :
  group_page t (group_page t ss) = group_page t ss.
Proof.
  unfold group_page at 2 3.
  destruct (length ss <? 2)%nat eqn:El.
  - unfold group_page. now rewrite El.
  - destruct (visit_seeds_ops t (seq 0 (length ss)) ss ∅) as (ops & u & Hops).
    rewrite (Hops ss eq_refl). cbn [fst].
    assert (Hk : key <$> apply_ops ops ss = key <$> ss) by apply keys_apply_ops.
    assert (Hlen : length (apply_ops ops ss) = length ss).
    { rewrite <- (length_fmap key), Hk. apply length_fmap. }
    unfold group_page. rewrite Hlen, El.
    rewrite (Hops _ Hk). cbn [fst]. apply apply_ops_idempotent.
Qed.

(** C9. Applying the grouper to its own output changes nothing: every
    sign keeps the group label and group size the first run left it with. *)
Theorem group_nearby_signs_idempotent (t : Q) (pages : list page_data) :
  group_nearby_signs t (group_nearby_signs t pages)
  = group_nearby_signs t pages.
Proof.
  unfold group_nearby_signs. rewrite map_map.
  apply map_ext. intros pd. cbn [page signs].
  now rewrite group_page_idempotent.
Qed.

Lemma group_nearby_signs_idempotent_witness :
  group_nearby_signs default_threshold
    (group_nearby_signs default_threshold
       [mk_page_data 1
          [plain "2001.1" 10 20; plain "2001" 10 (43 # 2);
           plain "2001.2" 10 (43 # 2)]])
  = group_nearby_signs default_threshold
      [mk_page_data 1
         [plain "2001.1" 10 20; plain "2001" 10 (43 # 2);
          plain "2001.2" 10 (43 # 2)]].
Proof.
  exact (group_nearby_signs_idempotent default_threshold
           [mk_page_data 1
              [plain "2001.1" 10 20; plain "2001" 10 (43 # 2);
               plain "2001.2" 10 (43 # 2)]]).
Defined.

End GrouperFacts.

(** ** Stacked-box splitter, any height *)

Module DetectorFacts.

Import Splitter SplitterFacts Detector.

(** [round] is within one half of its argument. *)
Lemma py_round_near (q : Q) :
  (inject_Z (py_round q) - (1 # 2) <= q <= inject_Z (py_round q) + (1 # 2))%Q.
Proof.
  unfold py_round.
  pose proof (Qfloor_le q) as Hlo. pose proof (Qlt_floor q) as Hhi.
  rewrite inject_Z_plus in Hhi. change (inject_Z 1) with 1%Q in Hhi.
  destruct (Qcompare (q - inject_Z (Qfloor q)) (1 # 2)) eqn:E.
  - apply Qeq_alt in E.
    destruct (Z.even (Qfloor q));
      rewrite ?inject_Z_plus; change (inject_Z 1) with 1%Q; lra.
  - apply Qlt_alt in E. lra.
  - apply Qgt_alt in E. rewrite inject_Z_plus. change (inject_Z 1) with 1%Q. lra.
Qed.

Lemma inject_Z_pos (z : Z) : 0 < z -> (0 < inject_Z z)%Q.
Proof. intros H. change 0%Q with (inject_Z 0). now rewrite <- Zlt_Qlt. Qed.

Lemma floor_add_le (a b : Q) : Qfloor a + Qfloor b <= Qfloor (a + b).
Proof.
  rewrite <- (Qfloor_Z (Qfloor a + Qfloor b)). apply Qfloor_resp_le.
  rewrite inject_Z_plus.
  pose proof (Qfloor_le a). pose proof (Qfloor_le b). lra.
Qed.

Lemma py_int_nonneg (q : Q) : (0 <= q)%Q -> py_int q = Qfloor q.
Proof.
  intros H. unfold py_int. apply Qle_bool_iff in H. now rewrite H.
Qed.

Lemma floor_nonneg (q : Q) : (0 <= q)%Q -> 0 <= Qfloor q.
Proof.
  intros H. change 0 with (Qfloor 0). now apply Qfloor_resp_le.
Qed.

Lemma Qle_of_le_div (a b c : Q) : (0 < c)%Q -> (a <= b / c)%Q -> (a * c <= b)%Q.
Proof.
  intros Hc H. apply (Qmult_le_compat_r _ _ c) in H; [|lra].
  assert (E : (b / c * c == b)%Q) by (field; lra).
  now rewrite E in H.
Qed.

Lemma Qle_of_div_le (a b c : Q) : (0 < c)%Q -> (a / c <= b)%Q -> (a <= b * c)%Q.
Proof.
  intros Hc H. apply (Qmult_le_compat_r _ _ c) in H; [|lra].
  assert (E : (a / c * c == a)%Q) by (field; lra).
  now rewrite E in H.
Qed.

(** Above the guard the count is at least two and the height of a row lies
    strictly between three quarters and one and a half standard heights. *)
Lemma split_count_bounds (h s : Z) :
  0 < s -> ((3 # 2) * inject_Z s < inject_Z h)%Q ->
  let c := py_round (inject_Z h / inject_Z s) in
  2 <= c
  /\ ((3 # 4) * inject_Z s < inject_Z h / inject_Z c)%Q
  /\ (inject_Z h / inject_Z c < (3 # 2) * inject_Z s)%Q.
Proof.
  intros Hs Hh c.
  pose proof (inject_Z_pos s Hs) as Qs.
  assert (Hc : 2 <= c).
  { apply py_round_above_three_halves. apply Qlt_shift_div_l; [exact Qs | exact Hh]. }
  split; [exact Hc|].
  assert (Qc : (0 < inject_Z c)%Q) by (apply inject_Z_pos; lia).
  pose proof (py_round_near (inject_Z h / inject_Z s)) as [Hlo Hhi].
  fold c in Hlo, Hhi.
  assert (H1 : ((inject_Z c - (1 # 2)) * inject_Z s <= inject_Z h)%Q).
  { apply Qle_of_le_div; [exact Qs | exact Hlo]. }
  assert (H2 : (inject_Z h <= (inject_Z c + (1 # 2)) * inject_Z s)%Q).
  { apply Qle_of_div_le; [exact Qs | exact Hhi]. }
  set (P := (inject_Z c * inject_Z s)%Q) in *.
  assert (E1 : ((inject_Z c - (1 # 2)) * inject_Z s == P - (1 # 2) * inject_Z s)%Q)
    by (unfold P; ring).
  assert (E2 : ((inject_Z c + (1 # 2)) * inject_Z s == P + (1 # 2) * inject_Z s)%Q)
    by (unfold P; ring).
  rewrite E1 in H1. rewrite E2 in H2.
  split.
  - apply Qlt_shift_div_l; [exact Qc|].
    assert (E : ((3 # 4) * inject_Z s * inject_Z c == (3 # 4) * P)%Q)
      by (unfold P; ring).
    rewrite E. lra.
  - apply Qlt_shift_div_r; [exact Qc|].
    assert (E : ((3 # 2) * inject_Z s * inject_Z c == (3 # 2) * P)%Q)
      by (unfold P; ring).
    rewrite E. lra.
Qed.

(** What the splitter returns above the guard. *)
Lemma detect_split_form (x y w h s : Z) :
  0 < s -> ((3 # 2) * inject_Z s < inject_Z h)%Q ->
  detect_stacked_boxes (x, y, w, h) s
  = Some (map (fun i : Z =>
                 (x,
                  py_int (inject_Z y
                          + inject_Z i
                            * (inject_Z h
                               / inject_Z (py_round (inject_Z h / inject_Z s)))),
                  w,
                  py_int (inject_Z h
                          / inject_Z (py_round (inject_Z h / inject_Z s)))))
              (py_range (py_round (inject_Z h / inject_Z s)))).
Proof.
  intros Hs Hh. unfold detect_stacked_boxes.
  assert (E : Qlt_bool (inject_Z s * (3 # 2)) (inject_Z h) = true)
    by (apply Qlt_bool_iff; lra).
  rewrite E.
  destruct (Z.eqb_spec s 0) as [->|_]; [lia|].
  destruct (split_count_bounds h s Hs Hh) as [Hc _].
  destruct (Z.ltb_spec 1 (py_round (inject_Z h / inject_Z s))) as [_|]; [|lia].
  reflexivity.
Qed.

Lemma detect_keep_form (x y w h s : Z) :
  (inject_Z h <= (3 # 2) * inject_Z s)%Q ->
  detect_stacked_boxes (x, y, w, h) s = Some [(x, y, w, h)].
Proof. apply detect_below_guard. Qed.

Lemma stacked_within_weaken (top top' bottom : Z) (bs : list box) :
  top <= top' -> stacked_within top' bottom bs -> stacked_within top bottom bs.
Proof.
  destruct bs as [|b bs]; cbn [stacked_within]; [lia|].
  intros Hle (H1 & H2 & H3). repeat split; [lia | exact H2 | exact H3].
Qed.

Section Rows.

Variables (x y w : Z) (ih : Q) (c : Z) (h : Z).
Hypothesis y_nonneg : 0 <= y.
Hypothesis ih_nonneg : (0 <= ih)%Q.
Hypothesis rows_fill : (inject_Z c * ih == inject_Z h)%Q.

Local Abbreviation row := (Detector.row x y w ih).

Lemma row_offset_nonneg (i : nat) : (0 <= inject_Z y + inject_Z (Z.of_nat i) * ih)%Q.
Proof.
  assert (Hy : (0 <= inject_Z y)%Q)
    by (change 0%Q with (inject_Z 0); now rewrite <- Zle_Qle).
  assert (Hi : (0 <= inject_Z (Z.of_nat i))%Q)
    by (change 0%Q with (inject_Z 0); rewrite <- Zle_Qle; lia).
  pose proof (Qmult_le_0_compat _ _ Hi ih_nonneg). lra.
Qed.

Lemma rows_stacked (n start : nat) :
  Z.of_nat (start + n) <= c ->
  stacked_within (Qfloor (inject_Z y + inject_Z (Z.of_nat start) * ih))
                 (y + h)
                 (map row (map Z.of_nat (seq start n))).
Proof.
  revert start. induction n as [|n IH]; intros start Hle; cbn [seq map stacked_within].
  - rewrite <- (Qfloor_Z (y + h)). apply Qfloor_resp_le.
    rewrite inject_Z_plus, <- rows_fill.
    assert (Hsc : (inject_Z (Z.of_nat start) <= inject_Z c)%Q)
      by (rewrite <- Zle_Qle; lia).
    pose proof (Qmult_le_compat_r _ _ ih Hsc ih_nonneg). lra.
  - assert (Ey : box_y (row (Z.of_nat start))
                 = Qfloor (inject_Z y + inject_Z (Z.of_nat start) * ih)).
    { unfold Detector.row. cbn [box_y fst snd].
      apply py_int_nonneg, row_offset_nonneg. }
    assert (Eh : box_h (row (Z.of_nat start)) = Qfloor ih).
    { unfold Detector.row. cbn [box_h snd]. now apply py_int_nonneg. }
    rewrite Ey, Eh.
    split; [lia|]. split; [now apply floor_nonneg|].
    eapply stacked_within_weaken; [|apply IH; lia].
    etransitivity; [apply floor_add_le|].
    apply Z.eq_le_incl. apply Qfloor_comp.
    rewrite Nat2Z.inj_succ. unfold Z.succ. rewrite inject_Z_plus.
    change (inject_Z 1) with 1%Q. ring.
Qed.

Lemma rows_same_column (l : list Z) :
  Forall (fun b => box_x b = x /\ box_w b = w) (map row l).
Proof.
  apply Forall_forall. intros b Hb.
  apply list_elem_of_In, in_map_iff in Hb as (i & <- & _). now cbn.
Qed.

Lemma rows_total_height (l : list Z) :
  total_height (map row l) = Z.of_nat (length l) * Qfloor ih.
Proof.
  induction l as [|i l IH]; [reflexivity|].
  cbn [map length]. unfold total_height in *. cbn [foldr].
  rewrite IH. unfold Detector.row at 1. cbn [box_h snd].
  rewrite (py_int_nonneg _ ih_nonneg). lia.
Qed.

End Rows.

(** The two outcomes of the splitter: the input alone, or [c] rows of the
    rational height [ih]. *)
Lemma detect_cases (x y w h s : Z) :
  0 < s ->
  ((inject_Z h <= (3 # 2) * inject_Z s)%Q
   /\ detect_stacked_boxes (x, y, w, h) s = Some [(x, y, w, h)])
  \/ exists (c : Z) (ih : Q),
       ((3 # 2) * inject_Z s < inject_Z h)%Q
       /\ 2 <= c /\ (0 <= ih)%Q
       /\ (inject_Z c * ih == inject_Z h)%Q
       /\ 3 * s - 4 < 4 * Qfloor ih /\ 2 * Qfloor ih < 3 * s
       /\ detect_stacked_boxes (x, y, w, h) s
          = Some (map (row x y w ih) (py_range c)).
Proof.
  intros Hs.
  destruct (Qlt_le_dec ((3 # 2) * inject_Z s) (inject_Z h)) as [Hsplit|Hkeep];
    [right | left; split; [exact Hkeep | now apply detect_keep_form]].
  destruct (split_count_bounds h s Hs Hsplit) as (Hc & Hlow & Hup).
  set (c := py_round (inject_Z h / inject_Z s)) in *.
  set (ih := (inject_Z h / inject_Z c)%Q) in *.
  pose proof (inject_Z_pos s Hs) as Qs.
  assert (Qc : (0 < inject_Z c)%Q) by (apply inject_Z_pos; lia).
  assert (Hih : (0 <= ih)%Q) by lra.
  pose proof (Qfloor_le ih) as Hfl. pose proof (Qlt_floor ih) as Hfu.
  rewrite inject_Z_plus in Hfu. change (inject_Z 1) with 1%Q in Hfu.
  exists c, ih. split; [exact Hsplit|]. split; [exact Hc|].
  split; [exact Hih|]. split; [unfold ih; field; lra|].
  split.
  { rewrite Zlt_Qlt. unfold Z.sub.
    rewrite inject_Z_plus, inject_Z_opp, !inject_Z_mult.
    change (inject_Z 3) with 3%Q. change (inject_Z 4) with 4%Q. lra. }
  split.
  { rewrite Zlt_Qlt. rewrite !inject_Z_mult.
    change (inject_Z 3) with 3%Q. change (inject_Z 2) with 2%Q. lra. }
  apply (detect_split_form x y w h s Hs Hsplit).
Qed.

(** X1. For a box at a non-negative [y] with a non-negative height, and a
    positive standard height, the splitter returns rectangles with the x and
    width of the input that follow one another downwards inside the input:
    none starts above the end of the one before, the first starts at or
    below the top of the input and the last ends at or above its bottom.
    Their heights add up to at most the input height, and to more than the
    input height less the number of rectangles. *)
Theorem split_rows_stay_inside (x y w h s : Z)
  (Hy : 0 <= y) (Hh : 0 <= h) (Hs : 0 < s) :
  exists bs : list box,
    detect_stacked_boxes (x, y, w, h) s = Some bs
    /\ Forall (fun b => box_x b = x /\ box_w b = w) bs
    /\ stacked_within y (y + h) bs
    /\ total_height bs <= h
    /\ h - Z.of_nat (length bs) < total_height bs.
Proof.
  destruct (detect_cases x y w h s Hs)
    as [[_ Hrun]|(c & ih & _ & Hc & Hih & Hfill & _ & _ & Hrun)].
  - exists [(x, y, w, h)]. split; [exact Hrun|].
    split; [constructor; [now cbn | constructor]|].
    cbn [stacked_within box_y box_h fst snd length total_height foldr].
    repeat split; lia.
  - eexists. split; [exact Hrun|].
    assert (Qc : (0 < inject_Z c)%Q) by (apply inject_Z_pos; lia).
    split; [apply rows_same_column|].
    split.
    { pose proof (rows_stacked x y w ih c h Hy Hih Hfill (Z.to_nat c) 0) as H.
      unfold py_range. eapply stacked_within_weaken; [|apply H; lia].
      rewrite <- (Qfloor_Z y) at 1. apply Qfloor_resp_le.
      change (inject_Z (Z.of_nat 0)) with 0%Q. lra. }
    rewrite (rows_total_height x y w ih Hih), length_map, length_py_range.
    rewrite Z2Nat.id by lia.
    pose proof (Qfloor_le ih) as Hfl. pose proof (Qlt_floor ih) as Hfu.
    rewrite inject_Z_plus in Hfu. change (inject_Z 1) with 1%Q in Hfu.
    assert (Hm1 : (inject_Z c * inject_Z (Qfloor ih) <= inject_Z h)%Q).
    { rewrite <- Hfill. apply Qmult_le_l; [exact Qc | exact Hfl]. }
    assert (Hm2 : (inject_Z h - inject_Z c < inject_Z c * inject_Z (Qfloor ih))%Q).
    { assert (Hlt : (inject_Z c * (ih - 1) < inject_Z c * inject_Z (Qfloor ih))%Q)
        by (apply Qmult_lt_l; [exact Qc | lra]).
      assert (E : (inject_Z c * (ih - 1) == inject_Z h - inject_Z c)%Q)
        by (rewrite <- Hfill; ring).
      now rewrite E in Hlt. }
    rewrite <- inject_Z_mult in Hm1, Hm2.
    unfold Qminus in Hm2. rewrite <- inject_Z_opp, <- inject_Z_plus in Hm2.
    rewrite <- Zle_Qle in Hm1. rewrite <- Zlt_Qlt in Hm2.
    split; lia.
Qed.

Lemma split_rows_stay_inside_witness :
  exists bs : list box,
    detect_stacked_boxes (5, 7, 30, 100) 40 = Some bs
    /\ Forall (fun b => box_x b = 5 /\ box_w b = 30) bs
    /\ stacked_within 7 (7 + 100) bs
    /\ total_height bs <= 100
    /\ 100 - Z.of_nat (length bs) < total_height bs.
Proof.
  apply (split_rows_stay_inside 5 7 30 100 40); lia.
Defined.

(** X2. For a positive standard height, no rectangle the splitter returns
    is split when handed to the splitter again; and when the input is split,
    four times the height of each returned rectangle exceeds three standard
    heights less four, and twice it stays below three standard heights. *)
Theorem split_rows_are_final (x y w h s : Z) (Hs : 0 < s) :
  exists bs : list box,
    detect_stacked_boxes (x, y, w, h) s = Some bs
    /\ Forall (fun b => detect_stacked_boxes b s = Some [b]) bs
    /\ (((3 # 2) * inject_Z s < inject_Z h)%Q ->
        Forall (fun b => 3 * s - 4 < 4 * box_h b /\ 2 * box_h b < 3 * s) bs).
Proof.
  destruct (detect_cases x y w h s Hs)
    as [[Hkeep Hrun]|(c & ih & _ & _ & Hih & _ & Hlo & Hhi & Hrun)].
  - exists [(x, y, w, h)]. split; [exact Hrun|].
    split; [constructor; [exact Hrun | constructor]|].
    intros Hsplit. exfalso. lra.
  - eexists. split; [exact Hrun|]. split.
    + apply Forall_forall. intros b Hb.
      apply list_elem_of_In, in_map_iff in Hb as (i & <- & _).
      unfold row. rewrite (py_int_nonneg _ Hih). apply detect_keep_form.
      rewrite Zlt_Qlt, !inject_Z_mult in Hhi.
      change (inject_Z 2) with 2%Q in Hhi.
      change (inject_Z 3) with 3%Q in Hhi. lra.
    + intros _. apply Forall_forall. intros b Hb.
      apply list_elem_of_In, in_map_iff in Hb as (i & <- & _).
      unfold row. cbn [box_h snd]. now rewrite (py_int_nonneg _ Hih).
Qed.

Lemma split_rows_are_final_witness :
  exists bs : list box,
    detect_stacked_boxes (5, 7, 30, 100) 40 = Some bs
    /\ Forall (fun b => detect_stacked_boxes b 40 = Some [b]) bs
    /\ (((3 # 2) * inject_Z 40 < inject_Z 100)%Q ->
        Forall (fun b => 3 * 40 - 4 < 4 * box_h b /\ 2 * box_h b < 3 * 40) bs).
Proof.
  apply (split_rows_are_final 5 7 30 100 40). lia.
Defined.

(** *** The detector's two loops *)

Lemma stacked_within_elem (top bottom : Z) (bs : list box) (b : box) :
  stacked_within top bottom bs -> b ∈ bs ->
  top <= box_y b /\ 0 <= box_h b /\ box_y b + box_h b <= bottom.
Proof.
  revert top. induction bs as [|b0 bs IH]; intros top Hst Hb.
  - inversion Hb.
  - cbn [stacked_within] in Hst. destruct Hst as (H1 & H2 & H3).
    assert (Hend : box_y b0 + box_h b0 <= bottom).
    { clear -H3. revert H3. generalize (box_y b0 + box_h b0).
      induction bs as [|b1 bs IH]; intros t; cbn [stacked_within]; [lia|].
      intros (Ha & Hb & Hc). apply IH in Hc. lia. }
    apply elem_of_cons in Hb as [->|Hb]; [lia|].
    destruct (IH _ H3 Hb) as (Ha & Hb' & Hc). lia.
Qed.

(** Every rectangle the splitter returns for a box of positive height lies
    in the column and between the top and bottom of the box, and has a
    positive height. *)
Lemma split_box_elem (x y w h s : Z) (bs : list box) (b : box) :
  0 <= y -> 0 < h -> 2 <= s ->
  detect_stacked_boxes (x, y, w, h) s = Some bs -> b ∈ bs ->
  box_x b = x /\ box_w b = w
  /\ y <= box_y b /\ box_y b + box_h b <= y + h /\ 0 < box_h b.
Proof.
  intros Hy Hh Hs Hrun Hb.
  destruct (detect_cases x y w h s ltac:(lia))
    as [[_ Hrun']|(c & ih & _ & Hc & Hih & Hfill & Hlo & _ & Hrun')];
    rewrite Hrun' in Hrun; injection Hrun as <-.
  - apply list_elem_of_singleton in Hb. subst b.
    cbn [box_x box_y box_w box_h fst snd]. repeat split; lia.
  - pose proof (rows_same_column x y w ih (py_range c)) as Hcol.
    rewrite Forall_forall in Hcol. destruct (Hcol b Hb) as [Ex Ew].
    assert (Hst : stacked_within y (y + h) (map (row x y w ih) (py_range c))).
    { pose proof (rows_stacked x y w ih c h Hy Hih Hfill (Z.to_nat c) 0) as H.
      unfold py_range. eapply stacked_within_weaken; [|apply H; lia].
      rewrite <- (Qfloor_Z y) at 1. apply Qfloor_resp_le.
      change (inject_Z (Z.of_nat 0)) with 0%Q. lra. }
    destruct (stacked_within_elem _ _ _ b Hst Hb) as (Ey & _ & Eb).
    split; [exact Ex|]. split; [exact Ew|]. split; [exact Ey|].
    split; [exact Eb|].
    apply list_elem_of_In, in_map_iff in Hb as (i & <- & _).
    unfold row. cbn [box_h snd]. rewrite (py_int_nonneg _ Hih). lia.
Qed.

Lemma Qle_inject_Z (a b : Z) : (inject_Z a <= inject_Z b)%Q -> a <= b.
Proof. intros H. now rewrite Zle_Qle. Qed.

(** What passing the test says about a rectangle, in whole numbers. *)
Lemma valid_box_true (W H x y w h : Z) :
  0 < W -> 0 < H ->
  valid_box W H (x, y, w, h) = Some true ->
  0 < w /\ 0 < h
  /\ 3 * W <= 1000 * w /\ 20 * w <= W
  /\ 2 * H <= 1000 * h /\ 100 * h <= 3 * H
  /\ h <= 2 * w /\ w <= 3 * h.
Proof.
  intros HW HH. unfold valid_box, within.
  destruct (Z.eqb_spec W 0) as [|_]; [lia|].
  destruct (Z.eqb_spec H 0) as [|_]; [lia|].
  pose proof (inject_Z_pos W HW) as QW. pose proof (inject_Z_pos H HH) as QH.
  unfold MIN_BOX_WIDTH_PERCENT, MAX_BOX_WIDTH_PERCENT,
    MIN_BOX_HEIGHT_PERCENT, MAX_BOX_HEIGHT_PERCENT,
    MIN_ASPECT_RATIO, MAX_ASPECT_RATIO.
  destruct (Qle_bool (3 # 10) (inject_Z w / inject_Z W * 100)) eqn:E1;
    [|discriminate].
  destruct (Qle_bool (inject_Z w / inject_Z W * 100) 5) eqn:E2;
    [|discriminate].
  destruct (Qle_bool (2 # 10) (inject_Z h / inject_Z H * 100)) eqn:E3;
    [|discriminate].
  destruct (Qle_bool (inject_Z h / inject_Z H * 100) 3) eqn:E4;
    [|discriminate].
  cbn [andb].
  apply Qle_bool_iff in E1, E2, E3, E4.
  assert (F1 : ((3 # 1000) * inject_Z W <= inject_Z w)%Q)
    by (apply Qle_of_le_div; [exact QW | lra]).
  assert (F2 : (inject_Z w <= (1 # 20) * inject_Z W)%Q)
    by (apply Qle_of_div_le; [exact QW | lra]).
  assert (F3 : ((2 # 1000) * inject_Z H <= inject_Z h)%Q)
    by (apply Qle_of_le_div; [exact QH | lra]).
  assert (F4 : (inject_Z h <= (3 # 100) * inject_Z H)%Q)
    by (apply Qle_of_div_le; [exact QH | lra]).
  assert (Hh : 0 < h).
  { rewrite Zlt_Qlt. change (inject_Z 0) with 0%Q. lra. }
  assert (Hw : 0 < w).
  { rewrite Zlt_Qlt. change (inject_Z 0) with 0%Q. lra. }
  destruct (Z.ltb_spec 0 h) as [_|]; [|lia].
  pose proof (inject_Z_pos h Hh) as Qh.
  destruct (Qle_bool (1 # 2) (inject_Z w / inject_Z h)) eqn:E5;
    [|discriminate].
  destruct (Qle_bool (inject_Z w / inject_Z h) 3) eqn:E6; [|discriminate].
  intros _. apply Qle_bool_iff in E5, E6.
  apply Qle_of_le_div in E5; [|exact Qh].
  apply Qle_of_div_le in E6; [|exact Qh].
  repeat split; try assumption; apply Qle_inject_Z;
    rewrite !inject_Z_mult;
    change (inject_Z 3) with 3%Q; change (inject_Z 1000) with 1000%Q;
    change (inject_Z 20) with 20%Q; change (inject_Z 2) with 2%Q;
    change (inject_Z 100) with 100%Q; lra.
Qed.

Lemma valid_box_some (W H : Z) (b : box) :
  W <> 0 -> H <> 0 -> exists ok, valid_box W H b = Some ok.
Proof.
  intros HW HH. destruct b as [[[x y] w] h]. unfold valid_box.
  destruct (Z.eqb_spec W 0) as [|_]; [contradiction|].
  destruct (Z.eqb_spec H 0) as [|_]; [contradiction|].
  destruct (_ && _); eauto.
Qed.

(** The first loop keeps the rectangles that pass the test. *)
Lemma filter_boxes_valid (W H : Z) (rects : list box) :
  W <> 0 -> H <> 0 ->
  exists valid : list box,
    filter_boxes W H rects = Some valid
    /\ Forall (fun b => b ∈ rects /\ valid_box W H b = Some true) valid.
Proof.
  intros HW HH. unfold filter_boxes.
  assert (Hinv : forall l (acc : list box),
             Forall (fun b => b ∈ rects /\ valid_box W H b = Some true) acc ->
             (forall b, b ∈ l -> b ∈ rects) ->
             exists valid,
               PdfText.for_loop l
                 (fun (b : box) (valid_boxes : list box) =>
                    ok ← valid_box W H b;
                    Some (if (ok : bool) then valid_boxes ++ [b]
                          else valid_boxes)) acc = Some valid
               /\ Forall (fun b => b ∈ rects /\ valid_box W H b = Some true)
                         valid).
  { induction l as [|b l IH]; intros acc Hacc Hsub; cbn [PdfText.for_loop].
    - eauto.
    - destruct (valid_box_some W H b HW HH) as [ok Hok]. rewrite Hok.
      cbn [mbind option_bind].
      apply IH.
      + destruct ok; [|exact Hacc].
        apply Forall_app. split; [exact Hacc|].
        constructor; [|constructor]. split; [|exact Hok].
        apply Hsub, list_elem_of_here.
      + intros b' Hb'. apply Hsub. now apply list_elem_of_further. }
  apply Hinv; [constructor | auto].
Qed.

(** The second loop never fails. *)
Lemma split_boxes_some (valid : list box) :
  exists final, split_boxes valid = Some final.
Proof.
  unfold split_boxes. generalize (@nil box).
  induction valid as [|b l IH]; intros acc; cbn [PdfText.for_loop]; [eauto|].
  destruct b as [[[x y] w] h].
  destruct (detect_cases x y w h STANDARD_SIGN_HEIGHT_PIXELS eq_refl)
    as [[_ ->]|(c & ih & _ & _ & _ & _ & _ & _ & ->)];
    cbn [mbind option_bind]; apply IH.
Qed.

(** The second loop, on rectangles of the image that passed the test. *)
Lemma split_boxes_sized (W H : Z) (valid final : list box) :
  0 < W -> 0 < H ->
  Forall (fun b => Ocr.inside_image W H b /\ valid_box W H b = Some true)
         valid ->
  split_boxes valid = Some final ->
  Forall (fun b => Ocr.inside_image W H b /\ sized_for W H b) final.
Proof.
  intros HW HH Hvalid. unfold split_boxes.
  assert (Hacc : Forall (fun b => Ocr.inside_image W H b /\ sized_for W H b)
                        (@nil box)) by constructor.
  revert Hacc. generalize (@nil box). revert final.
  induction Hvalid as [|b l [Hin Hok] Hl IH]; intros final acc Hacc Hrun;
    cbn [PdfText.for_loop] in Hrun.
  - now injection Hrun as <-.
  - destruct b as [[[x y] w] h].
    destruct Hin as (Hx & Hy & _ & _ & Hxw & Hyh).
    destruct (valid_box_true W H x y w h HW HH Hok)
      as (Hw & Hh & V1 & V2 & V3 & V4 & _).
    destruct (detect_stacked_boxes (x, y, w, h) STANDARD_SIGN_HEIGHT_PIXELS)
      as [bs|] eqn:Hbs; [|discriminate].
    cbn [mbind option_bind] in Hrun.
    apply (IH final (acc ++ bs)); [|exact Hrun].
    apply Forall_app. split; [exact Hacc|].
    apply Forall_forall. intros b' Hb'.
    assert (Hs : 2 <= STANDARD_SIGN_HEIGHT_PIXELS)
      by (unfold STANDARD_SIGN_HEIGHT_PIXELS; lia).
    destruct (split_box_elem x y w h _ bs b' Hy Hh Hs Hbs Hb')
      as (Ex & Ew & Ey & Eb & Epos).
    destruct b' as [[[bx by'] bw] bh].
    cbn [box_x box_y box_w box_h fst snd] in *. subst bx bw.
    unfold Ocr.inside_image, sized_for. cbn [box_w box_h fst snd].
    repeat split; lia.
Qed.

(** X3. For an image of positive dimensions and bounding rectangles that
    lie within it, the detector returns normally, and every rectangle it
    returns lies within the image, has positive width and height, a width
    between 0.3% and 5% of the image width and a height of at most 3% of the
    image height. *)
Theorem detected_boxes_fit_the_image (W H : Z) (rects : list box)
  (HW : 0 < W) (HH : 0 < H)
  (Hin : Forall (Ocr.inside_image W H) rects) :
  exists final : list box,
    detect_color_boxes W H rects = Some final
    /\ Forall (fun b => Ocr.inside_image W H b /\ sized_for W H b) final.
Proof.
  unfold detect_color_boxes.
  destruct (filter_boxes_valid W H rects) as (valid & -> & Hvalid);
    [lia | lia |].
  cbn [mbind option_bind].
  destruct (split_boxes_some valid) as [final Hfinal].
  exists final. split; [exact Hfinal|].
  apply (split_boxes_sized W H valid final HW HH); [|exact Hfinal].
  rewrite Forall_forall in Hin.
  eapply Forall_impl; [exact Hvalid|].
  intros b [Hb Hok]. split; [now apply Hin | exact Hok].
Qed.

Lemma detected_boxes_fit_the_image_witness :
  exists final : list box,
    detect_color_boxes 4000 3000 [(100, 100, 60, 85); (0, 0, 4000, 3000)]
    = Some final
    /\ Forall (fun b => Ocr.inside_image 4000 3000 b
                        /\ sized_for 4000 3000 b) final.
Proof.
  apply detected_boxes_fit_the_image; [lia | lia |].
  repeat constructor; cbn; lia.
Defined.

End DetectorFacts.

(** ** The label cleaner ([ColorBasedSignExtractor._clean_sign_number]) *)

Module CleanerFacts.

Import PyStr PyStrFacts Ocr.

Local Open Scope string_scope.
Local Open Scope nat_scope.

Lemma lstrip_by_head (p : ascii -> bool) (s : string) (c : ascii) :
  String.get 0 (lstrip_by p s) = Some c -> p c = false.
Proof.
  induction s as [|a s IH]; cbn [lstrip_by]; [discriminate|].
  destruct (p a) eqn:E; [exact IH|].
  cbn. intros [= <-]. exact E.
Qed.

Lemma rstrip_by_head (p : ascii -> bool) (s : string) (c : ascii) :
  String.get 0 (rstrip_by p s) = Some c -> String.get 0 s = Some c.
Proof.
  destruct s as [|a s]; cbn [rstrip_by]; [discriminate|].
  destruct (rstrip_by p s); [destruct (p a)|]; cbn; congruence.
Qed.

Lemma rstrip_by_last (p : ascii -> bool) (s : string) (c : ascii) :
  String.get (String.length (rstrip_by p s) - 1) (rstrip_by p s) = Some c ->
  p c = false.
Proof.
  induction s as [|a s IH]; cbn [rstrip_by]; [discriminate|].
  destruct (rstrip_by p s) as [|b r].
  - destruct (p a) eqn:E; cbn; [discriminate|]. intros [= <-]. exact E.
  - cbn [String.length] in *. rewrite Nat.sub_1_r in *. cbn [Nat.pred] in *.
    exact IH.
Qed.

Lemma lstrip_by_fixed (p : ascii -> bool) (s : string) :
  (forall c, String.get 0 s = Some c -> p c = false) -> lstrip_by p s = s.
Proof.
  destruct s as [|a s]; [reflexivity|]. intros H. cbn [lstrip_by].
  now rewrite (H a eq_refl).
Qed.

Lemma rstrip_by_fixed (p : ascii -> bool) (s : string) :
  (forall c, String.get (String.length s - 1) s = Some c -> p c = false) ->
  rstrip_by p s = s.
Proof.
  induction s as [|a s IH]; [reflexivity|]. intros H. cbn [rstrip_by].
  destruct s as [|b s].
  - cbn. now rewrite (H a eq_refl).
  - rewrite IH.
    + reflexivity.
    + intros c Hc. apply H. cbn [String.length] in *.
      rewrite Nat.sub_1_r in *. cbn [Nat.pred] in *. exact Hc.
Qed.

Lemma py_strip_char_head (d : ascii) (s : string) :
  String.get 0 (py_strip_char d s) <> Some d.
Proof.
  unfold py_strip_char. intros H. apply rstrip_by_head, lstrip_by_head in H.
  unfold is_char in H. now rewrite Ascii.eqb_refl in H.
Qed.

Lemma py_strip_char_last (d : ascii) (s : string) :
  String.get (String.length (py_strip_char d s) - 1) (py_strip_char d s)
  <> Some d.
Proof.
  unfold py_strip_char. intros H. apply rstrip_by_last in H.
  unfold is_char in H. now rewrite Ascii.eqb_refl in H.
Qed.

Lemma py_strip_char_fixed (d : ascii) (s : string) :
  String.get 0 s <> Some d ->
  String.get (String.length s - 1) s <> Some d ->
  py_strip_char d s = s.
Proof.
  intros Hh Hl. unfold py_strip_char.
  rewrite (lstrip_by_fixed _ s).
  - apply rstrip_by_fixed. intros c Hc. unfold is_char.
    destruct (Ascii.eqb_spec c d) as [->|]; [contradiction | reflexivity].
  - intros c Hc. unfold is_char.
    destruct (Ascii.eqb_spec c d) as [->|]; [contradiction | reflexivity].
Qed.

(** X4. Whatever the text, the cleaner returns either the empty string or
    the text without its leading and trailing periods; a non-empty result
    has a digit and at most one period; the result neither starts nor ends
    with a period; and cleaning a cleaned text changes nothing. *)
Theorem cleaned_label_shape (t : string) :
  let r := _clean_sign_number t in
  (r = "" \/ r = py_strip_char dot t)
  /\ (r <> "" -> any_char is_digit r = true /\ count_char dot r <= 1)
  /\ String.get 0 r <> Some dot
  /\ String.get (String.length r - 1) r <> Some dot
  /\ _clean_sign_number r = r.
Proof.
  cbv zeta.
  assert (Hcases : _clean_sign_number t = ""
                   \/ (_clean_sign_number t = py_strip_char dot t
                       /\ any_char is_digit (py_strip_char dot t) = true
                       /\ count_char dot (py_strip_char dot t) <= 1)).
  { unfold _clean_sign_number. rewrite length_py_split.
    destruct (any_char is_digit (py_strip_char dot t)); [|now left].
    destruct (Nat.leb_spec (S (count_char dot (py_strip_char dot t))) 2);
      [right | now left].
    repeat split. lia. }
  destruct Hcases as [->|(-> & Hd & Hc)].
  - repeat split; try (cbn; congruence). now left.
  - split; [now right|]. split; [intros _; split; [exact Hd | lia]|].
    split; [apply py_strip_char_head|]. split; [apply py_strip_char_last|].
    unfold _clean_sign_number.
    rewrite (py_strip_char_fixed dot (py_strip_char dot t))
      by (apply py_strip_char_head || apply py_strip_char_last).
    rewrite Hd, length_py_split.
    destruct (Nat.leb_spec (S (count_char dot (py_strip_char dot t))) 2);
      [reflexivity | lia].
Qed.

End CleanerFacts.

(** ** Survival of a combination *)

Module SurvivalFacts.

Import PyStr PyStrFacts Ocr OcrFacts CleanerFacts Survival.

Local Open Scope string_scope.

Lemma append_cons (c : ascii) (s t : string) :
  String c s +:+ t = String c (s +:+ t).
Proof. reflexivity. Qed.

Lemma append_empty_r (s : string) : s +:+ "" = s.
Proof.
  induction s as [|c s IH]; [reflexivity|]. now rewrite append_cons, IH.
Qed.

(** *** The character classes *)

Lemma blank_is_space (c : ascii) : blank c <-> is_space c = true.
Proof.
  unfold blank, is_space, between, code.
  set (n := nat_of_ascii c).
  rewrite !elem_of_cons, elem_of_nil.
  rewrite !orb_true_iff, !andb_true_iff, !Nat.leb_le, !Nat.eqb_eq. lia.
Qed.

Lemma period_is_char (c : ascii) : period c <-> is_char dot c = true.
Proof. unfold period, is_char, dot. now rewrite Ascii.eqb_eq. Qed.

Lemma digit_is_digit (c : ascii) : digit c <-> is_digit c = true.
Proof.
  unfold digit, is_digit, between, code.
  set (n := nat_of_ascii c).
  rewrite !elem_of_cons, elem_of_nil.
  rewrite !orb_true_iff, !andb_true_iff, !Nat.leb_le, !Nat.eqb_eq. lia.
Qed.

(** *** Trimming *)

Section Trimming.

Variable p : ascii -> bool.
Variable P : ascii -> Prop.
Hypothesis reflects : forall c, P c <-> p c = true.

Lemma lstrip_by_prefix (s : string) :
  exists pre : string,
    s = pre +:+ lstrip_by p s /\ Forall P (String.list_ascii_of_string pre).
Proof.
  induction s as [|a s (pre & E & Hpre)].
  - exists "". split; [reflexivity | constructor].
  - cbn [lstrip_by]. destruct (p a) eqn:Ea.
    + exists (String a pre). rewrite append_cons, <- E. split; [reflexivity|].
      cbn [String.list_ascii_of_string].
      constructor; [now apply reflects | exact Hpre].
    + exists "". split; [reflexivity | constructor].
Qed.

Lemma rstrip_by_suffix (s : string) :
  exists post : string,
    s = rstrip_by p s +:+ post /\ Forall P (String.list_ascii_of_string post).
Proof.
  induction s as [|a s (post & E & Hpost)].
  - exists "". split; [reflexivity | constructor].
  - cbn [rstrip_by]. destruct (rstrip_by p s) as [|b r] eqn:Er.
    + change ("" +:+ post) with post in E. subst s.
      destruct (p a) eqn:Ea.
      * exists (String a post). split; [reflexivity|].
        cbn [String.list_ascii_of_string].
        constructor; [now apply reflects | exact Hpost].
      * exists post. split; [reflexivity | exact Hpost].
    + exists post. rewrite append_cons, <- E. split; [reflexivity | exact Hpost].
Qed.

Lemma lstrip_by_skips (pre s : string) :
  Forall P (String.list_ascii_of_string pre) ->
  lstrip_by p (pre +:+ s) = lstrip_by p s.
Proof.
  induction pre as [|a pre IH]; [reflexivity|].
  cbn [String.list_ascii_of_string]. intros H.
  apply Forall_cons in H as [Ha H].
  rewrite append_cons. cbn [lstrip_by].
  apply reflects in Ha. rewrite Ha. now apply IH.
Qed.

Lemma lstrip_by_all (post : string) :
  Forall P (String.list_ascii_of_string post) -> lstrip_by p post = "".
Proof.
  intros H. rewrite <- (append_empty_r post). now rewrite lstrip_by_skips.
Qed.

Lemma rstrip_by_all (post : string) :
  Forall P (String.list_ascii_of_string post) -> rstrip_by p post = "".
Proof.
  induction post as [|a post IH]; [reflexivity|].
  cbn [String.list_ascii_of_string]. intros H.
  apply Forall_cons in H as [Ha H].
  cbn [rstrip_by]. rewrite (IH H). apply reflects in Ha. now rewrite Ha.
Qed.

Lemma rstrip_by_drops (t post : string) :
  Forall P (String.list_ascii_of_string post) ->
  rstrip_by p (t +:+ post) = rstrip_by p t.
Proof.
  intros H. induction t as [|a t IH].
  - change ("" +:+ post) with post. now apply rstrip_by_all.
  - rewrite append_cons. cbn [rstrip_by]. now rewrite IH.
Qed.

(** What the two strip loops leave is the trimmed text, and nothing else
    is. *)
Lemma strip_trimmed (s : string) :
  trimmed_of P s (rstrip_by p (lstrip_by p s)).
Proof.
  destruct (lstrip_by_prefix s) as (pre & E1 & Hpre).
  destruct (rstrip_by_suffix (lstrip_by p s)) as (post & E2 & Hpost).
  exists pre, post. split; [now rewrite <- E2|].
  split; [exact Hpre|]. split; [exact Hpost|]. split.
  - intros c Hc HP. apply rstrip_by_head, lstrip_by_head in Hc.
    apply reflects in HP. congruence.
  - intros c Hc HP. apply rstrip_by_last in Hc.
    apply reflects in HP. congruence.
Qed.

Lemma trimmed_strip (s t : string) :
  trimmed_of P s t -> t = rstrip_by p (lstrip_by p s).
Proof.
  intros (pre & post & -> & Hpre & Hpost & Hhead & Hlast).
  rewrite lstrip_by_skips by exact Hpre.
  destruct t as [|c t'].
  - change ("" +:+ post) with post. now rewrite lstrip_by_all.
  - rewrite (lstrip_by_fixed p (String c t' +:+ post)).
    + rewrite rstrip_by_drops by exact Hpost. symmetry.
      apply rstrip_by_fixed. intros a Ha.
      specialize (Hlast a Ha). rewrite reflects in Hlast.
      now destruct (p a).
    + rewrite append_cons. cbn [String.get]. intros a [= <-].
      specialize (Hhead c eq_refl). rewrite reflects in Hhead.
      now destruct (p c).
Qed.

End Trimming.

(** *** Digits and periods *)

Lemma has_digit_any (t : string) : has_digit t <-> any_char is_digit t = true.
Proof.
  unfold has_digit.
  induction t as [|c t IH]; cbn [String.list_ascii_of_string any_char].
  - split; [intros H; inversion H | discriminate].
  - now rewrite Exists_cons, orb_true_iff, IH, digit_is_digit.
Qed.

Lemma periods_count (t : string) : periods t = count_char dot t.
Proof.
  unfold periods. induction t as [|c t IH]; [reflexivity|].
  cbn [String.list_ascii_of_string count_char]. rewrite filter_cons.
  destruct (Ascii.eqb_spec c dot) as [->|Hne].
  - rewrite decide_True by reflexivity. cbn [length]. now rewrite IH.
  - rewrite decide_False by exact Hne. now rewrite IH.
Qed.

(** *** The averaged confidence *)

Lemma total_foldl (cs : list Q) :
  forall acc : Q, total acc cs = foldl fadd acc cs.
Proof.
  induction cs as [|c cs IH]; intros acc; [reflexivity|].
  cbn [total foldl]. apply IH.
Qed.

Lemma mean_average (cs : list Q) : cs <> [] -> mean cs = average cs.
Proof.
  intros Hne. unfold mean, average, py_sum, fdiv, of_int.
  rewrite total_foldl. now destruct cs.
Qed.

Lemma marker_not_minus_one (c : conf_value) :
  c = conf_str "-1" <-> not_minus_one c = false.
Proof.
  destruct c as [s|q]; cbn [not_minus_one].
  - rewrite negb_false_iff, String.eqb_eq. split; congruence.
  - split; discriminate.
Qed.

Section Engine.

Variable image_to_string : box -> preprocess -> Z -> exn + string.
Variable image_to_data : box -> preprocess -> Z -> exn + list conf_value.
Variable py_float : string -> option Q.

Local Abbreviation survives :=
  (Survival.survives image_to_string image_to_data py_float).
Local Abbreviation candidate :=
  (Ocr.candidate image_to_string image_to_data py_float).
Local Abbreviation survivors :=
  (Ocr.survivors image_to_string image_to_data py_float).

Lemma value_of_to_float (c : conf_value) (q : Q) :
  value_of py_float c q <-> to_float py_float c = inr q.
Proof.
  destruct c as [s|x]; cbn [value_of to_float].
  - destruct (py_float s) as [x|]; split.
    + intros (x' & [= <-] & ->). reflexivity.
    + intros [= <-]. now exists x.
    + intros (x' & Hx & _). discriminate.
    + discriminate.
  - split; [now intros -> | now intros [= <-]].
Qed.

Lemma reported_confidences_of (data : list conf_value) (cs : list Q) :
  reported py_float data cs <-> confidences_of py_float data = inr cs.
Proof.
  split.
  - induction 1 as [|data cs _ IH|c q data cs Hc Hq _ IH];
      cbn [confidences_of].
    + reflexivity.
    + exact IH.
    + apply value_of_to_float in Hq. destruct (not_minus_one c) eqn:E.
      * now rewrite Hq, IH.
      * apply marker_not_minus_one in E. contradiction.
  - revert cs. induction data as [|c data IH]; intros cs;
      cbn [confidences_of].
    + intros [= <-]. constructor.
    + destruct (not_minus_one c) eqn:E.
      * destruct (to_float py_float c) as [|q] eqn:Eq; [discriminate|].
        destruct (confidences_of py_float data) as [|qs]; [discriminate|].
        intros [= <-].
        apply reported_value; [|now apply value_of_to_float|now apply IH].
        intros Hc. apply marker_not_minus_one in Hc. congruence.
      * apply marker_not_minus_one in E. subst c. intros H.
        apply reported_marker. now apply IH.
Qed.

(** The loop keeps a combination exactly when it survives. *)
Lemma survives_candidate (b : box) (img : preprocess) (m : Z)
  (r : ocr_result) :
  survives b img m r <-> candidate b img m = Some r.
Proof.
  rewrite candidate_spec. unfold Survival.survives, Ocr.scored. split.
  - intros (raw & stripped & t & data & cs & Hraw & Hs & Ht & Hd & Hp & Hl
            & Hdata & Hrep & Hne & Hm & ->).
    apply (trimmed_strip is_space blank blank_is_space) in Hs.
    apply (trimmed_strip (is_char dot) period period_is_char) in Ht.
    subst stripped.
    change (t = trimmed raw) in Ht. subst t.
    exists raw, (mean cs).
    split; [exact Hraw|]. split; [now apply has_digit_any|].
    split; [now rewrite <- periods_count|]. split; [exact Hl|]. split.
    { rewrite Hdata. apply reported_confidences_of in Hrep. rewrite Hrep.
      now rewrite mean_average. }
    split; [exact Hm | reflexivity].
  - intros (raw & c & Hraw & Hd & Hp & Hl & Hsc & Hc & ->).
    destruct (image_to_data b img m) as [|data] eqn:Hdata; [discriminate|].
    destruct (confidences_of py_float data) as [|cs] eqn:Hcs; [discriminate|].
    injection Hsc as <-.
    assert (Hne : cs <> []).
    { intros ->. cbn [average] in Hc. lra. }
    exists raw, (py_strip raw), (trimmed raw), data, cs.
    rewrite (mean_average cs Hne).
    split; [exact Hraw|].
    split; [apply (strip_trimmed is_space blank blank_is_space)|].
    split; [apply (strip_trimmed (is_char dot) period period_is_char)|].
    split; [now apply has_digit_any|].
    split; [now rewrite periods_count|]. split; [exact Hl|].
    split; [reflexivity|].
    split; [now apply reported_confidences_of|].
    split; [exact Hne|]. split; [exact Hc | reflexivity].
Qed.


End Engine.

(** Six confidences whose decimals average to thirty: the floats add up to
    a little more, and the reading is kept. *)
Example borderline_extract :
  fst (extract_sign_number borderline_image_to_string
         borderline_image_to_data sample_float (100, 100, 30, 40)
         (mk_state [] []))
  = inr (Some (mk_result "2001" (8444249301319681 # 281474976710656)
                 8 otsu)).
Proof. vm_compute. reflexivity. Qed.


End SurvivalFacts.

(** ** The colour pipeline *)

Module PipelineFacts.

Import PyStr Ocr OcrFacts Detector DetectorFacts Pipeline.

Local Open Scope py_scope.

Lemma length_omap_le {A B} (f : A -> option B) (l : list A) :
  (length (omap f l) <= length l)%nat.
Proof.
  induction l as [|a l IH]; cbn; [lia|]. destruct (f a); cbn; lia.
Qed.

Lemma detect_color_boxes_some (W H : Z) (rects : list box) :
  W <> 0 -> H <> 0 ->
  exists boxes, detect_color_boxes W H rects = Some boxes.
Proof.
  intros HW HH. unfold detect_color_boxes.
  destruct (filter_boxes_valid W H rects HW HH) as (valid & -> & _).
  cbn [mbind option_bind]. apply split_boxes_some.
Qed.

(** The boxes of the detector, for rectangles within the image. *)
Lemma detect_color_boxes_sized (W H : Z) (rects boxes : list box) :
  0 < W -> 0 < H ->
  Forall (inside_image W H) rects ->
  detect_color_boxes W H rects = Some boxes ->
  Forall (fun b => inside_image W H b /\ sized_for W H b) boxes.
Proof.
  intros HW HH Hin. unfold detect_color_boxes.
  destruct (filter_boxes_valid W H rects) as (valid & -> & Hvalid);
    [lia | lia |].
  cbn [mbind option_bind]. apply (split_boxes_sized W H valid boxes HW HH).
  rewrite Forall_forall in Hin.
  eapply Forall_impl; [exact Hvalid|].
  intros b [Hb Hok]. split; [now apply Hin | exact Hok].
Qed.

Section Engine.

Variable image_to_string : image -> box -> preprocess -> Z -> exn + string.
Variable image_to_data
  : image -> box -> preprocess -> Z -> exn + list conf_value.
Variable py_float : string -> option Q.

Local Abbreviation process_image :=
  (Pipeline.process_image image_to_string image_to_data py_float).
Local Abbreviation process_pages :=
  (Pipeline.process_pages image_to_string image_to_data py_float).
Local Abbreviation process_pdf :=
  (Pipeline.process_pdf image_to_string image_to_data py_float).
Local Abbreviation detections_of im boxes :=
  (omap (Ocr.detect_box (image_to_string im) (image_to_data im) py_float
           (image_width im) (image_height im)) boxes).

Lemma process_image_run (im : image) (boxes : list box) (s : state) :
  image_width im <> 0 -> image_height im <> 0 ->
  detect_color_boxes (image_width im) (image_height im) (contour_rects im)
  = Some boxes ->
  exists s', process_image im s = (inr (detections_of im boxes, boxes), s').
Proof.
  intros HW HH Hboxes.
  unfold Pipeline.process_image, detect, bind at 1. rewrite Hboxes.
  unfold ret at 1. unfold Ocr.process_image, bind.
  destruct (process_boxes_run (image_to_string im) (image_to_data im)
              py_float _ _ boxes HW HH [] s) as [rs ->].
  eexists. reflexivity.
Qed.

Lemma survivor_acceptable (im : image) (b : box) (r : ocr_result) :
  r ∈ Ocr.survivors (image_to_string im) (image_to_data im) py_float b ->
  acceptable (text r) = true /\ (30 < confidence r)%Q.
Proof.
  intros Hr. split; [|exact (survivor_confident _ _ _ b r Hr)].
  unfold Ocr.survivors in Hr.
  apply list_elem_of_omap in Hr as ([img m] & _ & Hc).
  unfold Ocr.candidate in Hc. cbn [fst snd] in Hc.
  destruct (image_to_string im b img m) as [|raw]; [discriminate|].
  destruct (acceptable (trimmed raw)) eqn:E; [|discriminate].
  destruct (Ocr.scored _ _ b img m) as [c|]; [|discriminate].
  destruct (Qlt_bool 30 c); [|discriminate].
  injection Hc as <-. exact E.
Qed.

Lemma detection_sound (W H : Z) (b : box) (r : ocr_result) :
  0 < W -> 0 < H ->
  inside_image W H b -> sized_for W H b ->
  acceptable (text r) = true -> (30 < confidence r)%Q ->
  sound (detection_of W H b r).
Proof.
  intros HW HH Hin Hsz Hacc Hconf. destruct b as [[[x y] w] h].
  destruct Hin as (Hx & Hy & _ & _ & Hxw & Hyh).
  destruct Hsz as (Hw & Hh & V1 & V2 & V3).
  cbn [box_w box_h fst snd] in *.
  pose proof (inject_Z_pos W HW) as QW. pose proof (inject_Z_pos H HH) as QH.
  pose proof (inject_Z_pos w Hw) as Qw. pose proof (inject_Z_pos h Hh) as Qh.
  rewrite Zle_Qle in Hx, Hy, Hxw, Hyh, V1, V2, V3.
  rewrite ?inject_Z_plus, ?inject_Z_mult in *.
  change (inject_Z 0) with 0%Q in *. change (inject_Z 3) with 3%Q in *.
  change (inject_Z 1000) with 1000%Q in *.
  change (inject_Z 20) with 20%Q in *.
  change (inject_Z 100) with 100%Q in *.
  unfold sound, detection_of.
  cbn [sign_number det_confidence x_percentage y_percentage
       width_percentage height_percentage].
  assert (Ew : (inject_Z w / 2 == (1 # 2) * inject_Z w)%Q) by field.
  assert (Eh : (inject_Z h / 2 == (1 # 2) * inject_Z h)%Q) by field.
  assert (R : forall v d lo hi : Q,
             (0 < d)%Q -> (lo * d < 100 * v)%Q -> (100 * v < hi * d)%Q ->
             (lo < v / d * 100 /\ v / d * 100 < hi)%Q).
  { intros v d lo hi Hd Hlo Hhi.
    assert (E : (v / d * 100 == (100 * v) / d)%Q) by (field; lra).
    rewrite E. split.
    - apply Qlt_shift_div_l; [exact Hd | exact Hlo].
    - apply Qlt_shift_div_r; [exact Hd | exact Hhi]. }
  assert (R' : forall v d lo hi : Q,
             (0 < d)%Q -> (lo * d <= 100 * v)%Q -> (100 * v <= hi * d)%Q ->
             (lo <= v / d * 100 /\ v / d * 100 <= hi)%Q).
  { intros v d lo hi Hd Hlo Hhi.
    assert (E : (v / d * 100 == (100 * v) / d)%Q) by (field; lra).
    rewrite E. split.
    - apply Qle_shift_div_l; [exact Hd | exact Hlo].
    - apply Qle_shift_div_r; [exact Hd | exact Hhi]. }
  split; [exact Hacc|]. split; [exact Hconf|].
  split; [apply R; [exact QW | rewrite Ew; lra | rewrite Ew; lra]|].
  split; [apply R; [exact QH | rewrite Eh; lra | rewrite Eh; lra]|].
  split; [apply R'; [exact QW | lra | lra]|].
  split.
  - apply (R (inject_Z h) (inject_Z H) 0%Q 101%Q); [exact QH | lra | lra].
  - apply (R' (inject_Z h) (inject_Z H) 0%Q 3%Q); [exact QH | lra | lra].
Qed.

(** X5. For an image of positive dimensions whose contour rectangles lie
    within it, [process_image] returns normally the boxes of the detector
    and at most as many detections; each detection has a label of at least
    three characters with a digit and at most one period, a confidence
    above thirty, a centre strictly inside the page, a width between 0.3%
    and 5% of the page width and a positive height of at most 3% of the
    page height. *)
Theorem process_image_detections_sound (im : image) (s : state)
  (HW : 0 < image_width im) (HH : 0 < image_height im)
  (Hin : Forall (inside_image (image_width im) (image_height im))
                (contour_rects im)) :
  exists (detections : list SignDetection) (boxes : list box) (s' : state),
    process_image im s = (inr (detections, boxes), s')
    /\ detect_color_boxes (image_width im) (image_height im)
         (contour_rects im) = Some boxes
    /\ (length detections <= length boxes)%nat
    /\ Forall sound detections.
Proof.
  destruct (detect_color_boxes_some (image_width im) (image_height im)
              (contour_rects im)) as [boxes Hboxes]; [lia | lia |].
  pose proof (detect_color_boxes_sized _ _ _ _ HW HH Hin Hboxes) as Hfit.
  destruct (process_image_run im boxes s) as [s' Hrun]; [lia | lia | exact Hboxes |].
  eexists _, boxes, s'. split; [exact Hrun|]. split; [exact Hboxes|].
  split; [apply length_omap_le|].
  apply Forall_forall. intros d Hd.
  apply list_elem_of_omap in Hd as (b & Hb & Hd).
  unfold Ocr.detect_box in Hd.
  destruct (choose _) as [r|] eqn:Hr; [|discriminate].
  cbn in Hd. injection Hd as <-.
  assert (Hsurv : r ∈ Ocr.survivors (image_to_string im) (image_to_data im)
                        py_float b).
  { unfold choose in Hr. destruct (Ocr.survivors _ _ _ b) as [|r0 rs];
      [discriminate|].
    injection Hr as <-. apply py_max_from_in. }
  destruct (survivor_acceptable im b r Hsurv) as [Hacc Hconf].
  rewrite Forall_forall in Hfit. destruct (Hfit b Hb) as [Hinb Hsz].
  now apply detection_sound.
Qed.

Lemma count_signs_cons (p : page_results) (ps : list page_results) :
  count_signs (p :: ps) = signs_detected p + count_signs ps.
Proof. reflexivity. Qed.

Lemma process_pages_run (images : list image) :
  Forall (fun im => image_width im <> 0 /\ image_height im <> 0) images ->
  forall (n : Z) (acc : all_results) (s : state),
  exists (res : all_results) (new : list page_results) (s' : state),
    process_pages n images acc s = (inr res, s')
    /\ source_pdf res = source_pdf acc
    /\ total_signs_detected res = total_signs_detected acc + count_signs new
    /\ pages res = pages acc ++ new
    /\ (forall i p, new !! i = Some p ->
          page p = n + Z.of_nat i
          /\ signs_detected p = Z.of_nat (length (signs p)))
    /\ Forall2 (fun im p =>
                  forall s0, exists dets boxes s1,
                    process_image im s0 = (inr (dets, boxes), s1)
                    /\ signs p = map to_dict dets) images new.
Proof.
  induction 1 as [|im rest [HW HH] Hrest IH]; intros n acc s.
  - exists acc, [], s. cbn [Pipeline.process_pages]. unfold ret.
    rewrite app_nil_r. repeat split; try constructor.
    + unfold count_signs. cbn. lia.
    + rewrite lookup_nil in H. discriminate.
    + rewrite lookup_nil in H. discriminate.
  - destruct (detect_color_boxes_some _ _ (contour_rects im) HW HH)
      as [boxes Hboxes].
    destruct (process_image_run im boxes s HW HH Hboxes) as [s1 Hrun].
    cbn [Pipeline.process_pages]. unfold bind at 1. rewrite Hrun.
    cbn [fst].
    set (p0 := mk_page_results n
                 (Z.of_nat (length (detections_of im boxes)))
                 (map to_dict (detections_of im boxes))).
    destruct (IH (n + 1)
                (mk_all_results (source_pdf acc)
                   (total_signs_detected acc
                    + Z.of_nat (length (detections_of im boxes)))
                   (pages acc ++ [p0])) s1)
      as (res & new & s' & -> & Hsrc & Htot & Hpages & Hnum & Hrel).
    cbn [source_pdf total_signs_detected pages] in Hsrc, Htot, Hpages.
    exists res, (p0 :: new), s'.
    split; [reflexivity|]. split; [exact Hsrc|].
    split; [rewrite Htot, count_signs_cons; cbn [signs_detected p0]; lia|].
    split; [rewrite Hpages, <- app_assoc; reflexivity|].
    split.
    + intros [|i] p Hp.
      * cbn in Hp. injection Hp as <-. cbn [page signs_detected signs p0].
        rewrite length_map. split; [lia | reflexivity].
      * cbn in Hp. destruct (Hnum i p Hp) as [-> Hlen].
        split; [lia | exact Hlen].
    + constructor; [|exact Hrel].
      intros s0.
      destruct (process_image_run im boxes s0 HW HH Hboxes) as [s2 Hrun2].
      eexists _, _, _. split; [exact Hrun2 | reflexivity].
Qed.

(** X6. For page images of non-zero dimensions, [process_pdf] returns
    normally one entry per image, in order and numbered from one; each
    entry holds the dictionaries of the detections [process_image] returns
    for its image together with their number, and the total is the sum of
    the per-page numbers. *)
Theorem process_pdf_counts_add_up (name : string) (images : list image)
  (s : state)
  (Hdims : Forall (fun im => image_width im <> 0 /\ image_height im <> 0)
                  images) :
  exists (res : all_results) (s' : state),
    process_pdf name images s = (inr res, s')
    /\ source_pdf res = name
    /\ total_signs_detected res = count_signs (pages res)
    /\ (forall i p, pages res !! i = Some p ->
          page p = Z.of_nat i + 1
          /\ signs_detected p = Z.of_nat (length (signs p)))
    /\ Forall2 (fun im p =>
                  forall s0, exists dets boxes s1,
                    process_image im s0 = (inr (dets, boxes), s1)
                    /\ signs p = map to_dict dets) images (pages res).
Proof.
  destruct (process_pages_run images Hdims 1 (mk_all_results name 0 []) s)
    as (res & new & s' & Hrun & Hsrc & Htot & Hpages & Hnum & Hrel).
  cbn [source_pdf total_signs_detected pages app] in Hsrc, Htot, Hpages.
  exists res, s'. split; [exact Hrun|]. split; [exact Hsrc|].
  rewrite Hpages. split; [lia|]. split; [|exact Hrel].
  intros i p Hp. destruct (Hnum i p Hp). split; [lia | assumption].
Qed.

End Engine.

Lemma process_image_detections_sound_witness :
  exists (detections : list SignDetection) (boxes : list box) (s' : state),
    Pipeline.process_image (fun _ => sample_image_to_string)
      (fun _ => sample_image_to_data) sample_float
      (mk_image 4000 3000 [(100, 100, 60, 85); (0, 0, 4000, 3000)])
      (mk_state [] [])
    = (inr (detections, boxes), s')
    /\ detect_color_boxes 4000 3000 [(100, 100, 60, 85); (0, 0, 4000, 3000)]
       = Some boxes
    /\ (length detections <= length boxes)%nat
    /\ Forall sound detections.
Proof.
  apply (process_image_detections_sound (fun _ => sample_image_to_string)
           (fun _ => sample_image_to_data) sample_float
           (mk_image 4000 3000 [(100, 100, 60, 85); (0, 0, 4000, 3000)]));
    cbn [image_width image_height contour_rects]; [lia | lia |].
  repeat constructor; cbn; lia.
Defined.

Lemma process_pdf_counts_add_up_witness :
  exists (res : all_results) (s' : state),
    Pipeline.process_pdf (fun _ => sample_image_to_string)
      (fun _ => sample_image_to_data) sample_float "plan.pdf"
      [mk_image 4000 3000 [(100, 100, 60, 85)]; mk_image 4000 3000 []]
      (mk_state [] [])
    = (inr res, s')
    /\ source_pdf res = "plan.pdf"%string
    /\ total_signs_detected res = count_signs (pages res)
    /\ (forall i p, pages res !! i = Some p ->
          page p = Z.of_nat i + 1
          /\ signs_detected p = Z.of_nat (length (signs p)))
    /\ Forall2 (fun im p =>
                  forall s0, exists dets boxes s1,
                    Pipeline.process_image (fun _ => sample_image_to_string)
                      (fun _ => sample_image_to_data) sample_float im s0
                    = (inr (dets, boxes), s1)
                    /\ signs p = map to_dict dets)
         [mk_image 4000 3000 [(100, 100, 60, 85)]; mk_image 4000 3000 []]
         (pages res).
Proof.
  apply (process_pdf_counts_add_up (fun _ => sample_image_to_string)
           (fun _ => sample_image_to_data) sample_float).
  repeat constructor; cbn; lia.
Defined.

End PipelineFacts.

(** ** The text layer seen by the embedded-text extractor *)

Module TextLayerFacts.

Import PyStr PyStrFacts PdfText PdfTextFacts TextLayer.

(** *** Loops over concatenated lists *)

Lemma for_loop_app {A S : Type} (body : A -> S -> option S)
  (l1 l2 : list A) (s : S) :
  for_loop (l1 ++ l2) body s = for_loop l1 body s ≫= for_loop l2 body.
Proof.
  revert s. induction l1 as [|a l1 IH]; intros s; cbn; [reflexivity|].
  destruct (body a s); [apply IH | reflexivity].
Qed.

Lemma for_loop_ext {A S : Type} (body1 body2 : A -> S -> option S)
  (l : list A) (s : S) :
  (forall a s, body1 a s = body2 a s) ->
  for_loop l body1 s = for_loop l body2 s.
Proof.
  intros H. revert s. induction l as [|a l IH]; intros s; cbn; [reflexivity|].
  rewrite H. destruct (body2 a s); [apply IH | reflexivity].
Qed.

Lemma for_loop_flat_map {A B S : Type} (f : A -> list B)
  (body : B -> S -> option S) (l : list A) (s : S) :
  for_loop (flat_map f l) body s
  = for_loop l (fun a s => for_loop (f a) body s) s.
Proof.
  revert s. induction l as [|a l IH]; intros s; cbn [flat_map for_loop];
    [reflexivity|].
  rewrite for_loop_app.
  destruct (for_loop (f a) body s); cbn; [apply IH | reflexivity].
Qed.

Lemma for_loop_invariant_in {A S : Type} (P : S -> Prop)
  (body : A -> S -> option S) (l : list A) :
  (forall a s s', a ∈ l -> P s -> body a s = Some s' -> P s') ->
  forall s s', P s -> for_loop l body s = Some s' -> P s'.
Proof.
  induction l as [|a l IH]; intros Hbody s s' Hs Hrun; cbn in Hrun.
  - now injection Hrun as <-.
  - destruct (body a s) as [s1|] eqn:E; [|discriminate].
    eapply IH; [| |exact Hrun].
    + intros b t t' Hb. apply Hbody. now apply list_elem_of_further.
    + eapply Hbody; eauto. apply list_elem_of_here.
Qed.

(** The structured walk is one loop over the runs of the text blocks. *)
Lemma structured_walk_flat (p : page) (pnum : Z) (signs : list SignHotspot) :
  structured_walk p pnum signs
  = for_loop (structured_spans p)
      (visit_span (page_width p) (page_height p) pnum) signs.
Proof.
  unfold structured_walk, structured_spans.
  rewrite for_loop_flat_map. apply for_loop_ext. intros blk s.
  destruct (block_type blk =? 0); [|reflexivity].
  now rewrite for_loop_flat_map.
Qed.

(** *** One detection *)

Lemma new_sign_spec (pw ph : Q) (number : string) (pnum : Z)
  (tx ty tw th : Q) (sign : SignHotspot) :
  ~ (pw == 0)%Q -> ~ (ph == 0)%Q ->
  new_sign pw ph number pnum tx ty tw th = Some sign ->
  sign_number sign = number /\ page_num sign = pnum
  /\ text_box sign = (tx, ty, tw, th).
Proof.
  intros Hw Hh. unfold new_sign.
  rewrite !percent_of_some by assumption. cbn [mbind option_bind].
  intros [= <-]. unfold text_box.
  cbn [sign_number page_num text_x text_y text_width text_height].
  repeat split.
Qed.

Lemma new_sign_zero (pw ph : Q) (number : string) (pnum : Z)
  (tx ty tw th : Q) :
  (pw == 0)%Q \/ (ph == 0)%Q ->
  new_sign pw ph number pnum tx ty tw th = None.
Proof.
  intros Hz. unfold new_sign, percent_of.
  destruct (Qeq_bool pw 0) eqn:Ew; [reflexivity|].
  destruct (Qeq_bool ph 0) eqn:Eh; [reflexivity|].
  apply Qeq_bool_neq in Ew, Eh. tauto.
Qed.

Section Page.

Variable p : page.
Variable pnum : Z.

Local Abbreviation visit_span :=
  (PdfText.visit_span (page_width p) (page_height p) pnum).
Local Abbreviation visit_line :=
  (PdfText.visit_line (page_width p) (page_height p) pnum).

Section NonZero.

Hypothesis width_nonzero : ~ (page_width p == 0)%Q.
Hypothesis height_nonzero : ~ (page_height p == 0)%Q.

Lemma visit_span_explained (sp : span) (signs signs' : list SignHotspot) :
  sp ∈ structured_spans p ->
  Forall (explained p pnum) signs ->
  visit_span sp signs = Some signs' ->
  Forall (explained p pnum) signs'.
Proof.
  intros Hsp Hs. unfold PdfText.visit_span.
  destruct (SIGN_PATTERN_match (py_strip (span_text sp))) as [number|] eqn:E;
    [|now intros [= <-]].
  destruct (span_bbox sp) as [[[b0 b1] b2] b3] eqn:Eb.
  destruct (new_sign _ _ _ _ _ _ _ _) as [sign|] eqn:En; [|discriminate].
  cbn [mbind option_bind]. intros [= <-].
  destruct (new_sign_spec _ _ _ _ _ _ _ _ _ width_nonzero height_nonzero En)
    as (Hnum & Hpage & Hbox).
  apply Forall_app. split; [exact Hs|]. constructor; [|constructor].
  split; [exact Hpage|]. split.
  { rewrite Hnum. eapply SIGN_PATTERN_match_pattern, E. }
  left. exists sp.
  split; [exact Hsp|]. split; [unfold span_label; now rewrite Hnum|].
  rewrite Hbox. unfold span_box. now rewrite Eb.
Qed.

Lemma visit_line_explained (blk : text_block) (ln : string)
  (signs signs' : list SignHotspot) :
  blk ∈ text_blocks p ->
  ln ∈ py_split newline (py_strip (tb_text blk)) ->
  Forall (explained p pnum) signs ->
  visit_line blk (length (py_split newline (py_strip (tb_text blk)))) ln signs
  = Some signs' ->
  Forall (explained p pnum) signs'.
Proof.
  intros Hblk Hln Hs. unfold PdfText.visit_line.
  destruct (SIGN_PATTERN_match (py_strip ln)) as [number|] eqn:E;
    [|now intros [= <-]].
  destruct (negb (already_found number signs)); [|now intros [= <-]].
  destruct (new_sign _ _ _ _ _ _ _ _) as [sign|] eqn:En; [|discriminate].
  cbn [mbind option_bind]. intros [= <-].
  destruct (new_sign_spec _ _ _ _ _ _ _ _ _ width_nonzero height_nonzero En)
    as (Hnum & Hpage & Hbox).
  apply Forall_app. split; [exact Hs|]. constructor; [|constructor].
  split; [exact Hpage|]. split.
  { rewrite Hnum. eapply SIGN_PATTERN_match_pattern, E. }
  right. exists blk, ln.
  split; [exact Hblk|]. split; [exact Hln|].
  split; [unfold line_label; now rewrite Hnum|].
  rewrite Hbox. reflexivity.
Qed.

(** X7. On a page of non-zero dimensions the extractor returns normally,
    and every detection it returns carries the page number it was given and
    a label of the pattern's shape, and stems either from a run of a text
    block whose trimmed text matches, with the box of that run, or from a
    matching line of a plain block, with the origin and width of the block
    and its height divided by its number of lines. *)
Theorem extracted_signs_are_explained :
  exists signs : list SignHotspot,
    extract_signs_from_page p pnum = Some signs
    /\ Forall (explained p pnum) signs.
Proof.
  destruct (structured_walk_extends p pnum width_nonzero height_nonzero [])
    as (found & Hfound).
  cbn [app] in Hfound.
  destruct (fallback_blocks_keep_new p pnum width_nonzero height_nonzero
              (text_blocks p) found) as (kept & Hrun & _).
  exists (found ++ kept). split.
  { unfold extract_signs_from_page. rewrite Hfound. exact Hrun. }
  assert (Hf : Forall (explained p pnum) found).
  { rewrite structured_walk_flat in Hfound.
    eapply (for_loop_invariant_in (Forall (explained p pnum)));
      [|constructor|exact Hfound].
    intros sp s s'. apply visit_span_explained. }
  eapply (for_loop_invariant_in (Forall (explained p pnum)));
    [|exact Hf|exact Hrun].
  intros blk s s' Hblk Hs Hb. cbv zeta in Hb.
  eapply (for_loop_invariant_in (Forall (explained p pnum)));
    [|exact Hs|exact Hb].
  intros ln t t' Hln. now apply visit_line_explained.
Qed.

Lemma spans_walk_labels (sps : list span) (signs : list SignHotspot) :
  exists k,
    for_loop sps visit_span signs = Some (signs ++ k)
    /\ labels k = omap span_label sps
    /\ map text_box k
       = map span_box (filter (fun sp => is_Some (span_label sp)) sps).
Proof.
  revert signs. induction sps as [|sp sps IH]; intros signs;
    cbn [for_loop omap list_omap].
  - exists []. now rewrite app_nil_r.
  - unfold PdfText.visit_span at 1.
    change (SIGN_PATTERN_match (py_strip (span_text sp)))
      with (span_label sp).
    rewrite filter_cons.
    destruct (span_label sp) as [number|] eqn:E.
    + destruct (span_bbox sp) as [[[b0 b1] b2] b3] eqn:Eb.
      destruct (new_sign_some (page_width p) (page_height p) number pnum
                  b0 b1 (b2 - b0)%Q (b3 - b1)%Q width_nonzero height_nonzero)
        as (sign & En & _).
      rewrite En. cbn [mbind option_bind].
      destruct (new_sign_spec _ _ _ _ _ _ _ _ _ width_nonzero height_nonzero
                  En) as (Hnum & _ & Hbox).
      destruct (IH (signs ++ [sign])) as (k & -> & Hl & Hb).
      exists (sign :: k). split; [now rewrite <- app_assoc|].
      rewrite (decide_True (P := is_Some (Some number))) by eauto.
      cbn [labels map]. unfold labels in Hl. rewrite Hl, Hnum, Hb, Hbox.
      split; [reflexivity|]. unfold span_box at 2. now rewrite Eb.
    + rewrite (decide_False (P := is_Some None)) by apply is_Some_None.
      apply IH.
Qed.

(** X8. On a page of non-zero dimensions the structured walk finds every
    run of a text block whose trimmed text matches the pattern, in document
    order and repeats included, each with the box of its run; the labels of
    the extractor are those, followed by the labels of the matching lines
    of the plain blocks that have not been seen before. *)
Theorem structured_walk_keeps_every_matching_run :
  exists found signs : list SignHotspot,
    structured_walk p pnum [] = Some found
    /\ labels found = structured_candidates p
    /\ map text_box found
       = map span_box
           (filter (fun sp => is_Some (span_label sp)) (structured_spans p))
    /\ extract_signs_from_page p pnum = Some signs
    /\ labels signs
       = structured_candidates p
         ++ keep_new (structured_candidates p) (fallback_candidates p).
Proof.
  destruct (spans_walk_labels (structured_spans p) [])
    as (found & Hfound & Hl & Hb).
  cbn [app] in Hfound. rewrite <- structured_walk_flat in Hfound.
  destruct (fallback_blocks_keep_new p pnum width_nonzero height_nonzero
              (text_blocks p) found) as (kept & Hrun & Hk).
  exists found, (found ++ kept).
  split; [exact Hfound|]. split; [exact Hl|]. split; [exact Hb|].
  split.
  { unfold extract_signs_from_page. rewrite Hfound. exact Hrun. }
  unfold labels in *. rewrite map_app, Hk, Hl. reflexivity.
Qed.

End NonZero.

Section Zero.

Hypothesis zero_dimension :
  (page_width p == 0)%Q \/ (page_height p == 0)%Q.

Lemma spans_walk_zero (sps : list span) (signs : list SignHotspot) :
  for_loop sps visit_span signs
  = match omap span_label sps with [] => Some signs | _ => None end.
Proof.
  induction sps as [|sp sps IH]; cbn [for_loop omap list_omap];
    [reflexivity|].
  unfold PdfText.visit_span at 1. unfold span_label at 1.
  destruct (SIGN_PATTERN_match (py_strip (span_text sp))) as [number|];
    [|exact IH].
  destruct (span_bbox sp) as [[[b0 b1] b2] b3].
  now rewrite new_sign_zero.
Qed.

Lemma lines_walk_zero (blk : text_block) (n : nat) (lns : list string) :
  for_loop lns (visit_line blk n) []
  = match omap line_label lns with [] => Some [] | _ => None end.
Proof.
  induction lns as [|ln lns IH]; cbn [for_loop omap list_omap];
    [reflexivity|].
  unfold PdfText.visit_line at 1. unfold line_label at 1.
  destruct (SIGN_PATTERN_match (py_strip ln)) as [number|]; [|exact IH].
  cbn [already_found existsb negb]. now rewrite new_sign_zero.
Qed.

Lemma blocks_walk_zero (blks : list text_block) :
  for_loop blks (fun blk signs =>
    let lns := py_split newline (py_strip (tb_text blk)) in
    for_loop lns (visit_line blk (length lns)) signs) []
  = match omap line_label
            (flat_map (fun blk => py_split newline (py_strip (tb_text blk)))
                      blks)
    with [] => Some [] | _ => None end.
Proof.
  induction blks as [|blk blks IH]; cbn [for_loop flat_map]; [reflexivity|].
  cbv zeta in IH |- *. rewrite lines_walk_zero, omap_app.
  destruct (omap line_label (py_split newline (py_strip (tb_text blk))));
    [exact IH | reflexivity].
Qed.

(** X9. On a page whose width or height is zero the extractor returns no
    detection when no run of a text block and no line of a plain block
    matches the pattern, and fails otherwise. *)
Theorem zero_dimension_fails_on_first_match :
  extract_signs_from_page p pnum
  = match structured_candidates p, fallback_candidates p with
    | [], [] => Some []
    | _, _ => None
    end.
Proof.
  unfold extract_signs_from_page.
  rewrite structured_walk_flat, spans_walk_zero.
  fold (structured_candidates p).
  destruct (structured_candidates p); [|reflexivity].
  cbn [mbind option_bind]. unfold fallback_walk.
  rewrite blocks_walk_zero. reflexivity.
Qed.

End Zero.

End Page.

Lemma extracted_signs_are_explained_witness :
  exists signs : list SignHotspot,
    extract_signs_from_page split_runs_page 1 = Some signs
    /\ Forall (explained split_runs_page 1) signs.
Proof.
  apply (extracted_signs_are_explained split_runs_page 1);
    vm_compute; discriminate.
Defined.

Lemma structured_walk_keeps_every_matching_run_witness :
  exists found signs : list SignHotspot,
    structured_walk scenario_page 1 [] = Some found
    /\ labels found = structured_candidates scenario_page
    /\ map text_box found
       = map span_box
           (filter (fun sp => is_Some (span_label sp))
                   (structured_spans scenario_page))
    /\ extract_signs_from_page scenario_page 1 = Some signs
    /\ labels signs
       = structured_candidates scenario_page
         ++ keep_new (structured_candidates scenario_page)
                     (fallback_candidates scenario_page).
Proof.
  apply (structured_walk_keeps_every_matching_run scenario_page 1);
    vm_compute; discriminate.
Defined.

Lemma zero_dimension_fails_on_first_match_witness :
  extract_signs_from_page flat_page 1
  = match structured_candidates flat_page, fallback_candidates flat_page with
    | [], [] => Some []
    | _, _ => None
    end.
Proof.
  apply (zero_dimension_fails_on_first_match flat_page 1).
  left. reflexivity.
Defined.

End TextLayerFacts.

(** ** The ATL06 extractor *)

Module Atl06Facts.

Import PyStr PyStrFacts PdfText PdfTextFacts TextLayer TextLayerFacts.
Import CleanerFacts Atl06.

Lemma chomp_fixed (s : string) :
  (forall c, String.get (String.length s - 1) s = Some c -> c <> newline) ->
  chomp s = s.
Proof.
  induction s as [|a s IH]; [reflexivity|]. intros H. cbn [chomp].
  destruct s as [|b s].
  - destruct (Ascii.eqb_spec a newline) as [->|]; [|reflexivity].
    now destruct (H newline eq_refl).
  - rewrite IH; [reflexivity|].
    intros c Hc. apply H. cbn [String.length] in *.
    rewrite Nat.sub_1_r in *. cbn [Nat.pred] in *. exact Hc.
Qed.

(** A trimmed text has no final newline for [$] to skip. *)
Lemma chomp_py_strip (s : string) : chomp (py_strip s) = py_strip s.
Proof.
  apply chomp_fixed. intros c Hc ->. unfold py_strip in Hc.
  apply rstrip_by_last in Hc. discriminate.
Qed.

Lemma span_label_strip (sp : span) :
  span_label sp
  = if SIGN_PATTERN_matches (py_strip (span_text sp))
    then Some (py_strip (span_text sp)) else None.
Proof.
  unfold span_label, SIGN_PATTERN_match, SIGN_PATTERN_matches.
  now rewrite chomp_py_strip.
Qed.

Lemma extract_text_from_page_flat (p : PdfText.page) (number : Z) :
  extract_text_from_page p number
  = for_loop (structured_spans p)
      (visit_span (page_width p) (page_height p) number) [].
Proof.
  unfold extract_text_from_page, structured_spans.
  rewrite for_loop_flat_map. apply for_loop_ext. intros blk s.
  destruct (block_type blk =? 0); [|reflexivity].
  now rewrite for_loop_flat_map.
Qed.

Lemma spans_walk_atl06 (pw ph : Q) (number : Z) (sps : list span) :
  ~ (pw == 0)%Q -> ~ (ph == 0)%Q ->
  forall signs : list sign_data,
  exists k,
    for_loop sps (visit_span pw ph number) signs = Some (signs ++ k)
    /\ map sign_number k
       = filter (fun n => n <> "0000"%string) (omap span_label sps)
    /\ map text_bbox k
       = map span_box
           (List.filter reported sps)
    /\ Forall (fun s => page s = number + 1) k.
Proof.
  intros Hw Hh. induction sps as [|sp sps IH]; intros signs;
    cbn [for_loop omap list_omap].
  - exists []. rewrite app_nil_r. repeat split; constructor.
  - unfold visit_span at 1. cbn [List.filter]. unfold reported at 1.
    rewrite (span_label_strip sp).
    destruct (SIGN_PATTERN_matches (py_strip (span_text sp))).
    + rewrite filter_cons.
      destruct (String.eqb_spec (py_strip (span_text sp)) "0000") as [E|E];
        cbn [andb negb].
      * rewrite decide_False by (intros Hn; contradiction).
        apply IH.
      * destruct (span_bbox sp) as [[[b0 b1] b2] b3] eqn:Eb.
        rewrite !percent_of_some by assumption. cbn [mbind option_bind].
        match goal with
        | |- context [for_loop sps _ (signs ++ [?d])] =>
            destruct (IH (signs ++ [d])) as (k & -> & Hl & Hb & Hp);
            exists (d :: k)
        end.
        split; [now rewrite <- app_assoc|].
        rewrite decide_True by exact E.
        cbn [map sign_number text_bbox]. rewrite Hl, Hb.
        split; [reflexivity|].
        split; [unfold span_box at 2; now rewrite Eb|].
        constructor; [reflexivity | exact Hp].
    + cbn [andb]. apply IH.
Qed.

(** X10. On a page of non-zero dimensions the ATL06 extractor returns
    normally; its labels are the labels of the matching runs of the text
    blocks, in document order and repeats included, without the literal
    "0000", which it never reports; each detection keeps the box of its run
    and carries the page index plus one. *)
Theorem atl06_reports_matching_runs_except_0000 (p : PdfText.page)
  (number : Z)
  (Hw : ~ (page_width p == 0)%Q) (Hh : ~ (page_height p == 0)%Q) :
  exists signs : list sign_data,
    extract_text_from_page p number = Some signs
    /\ map sign_number signs
       = filter (fun n => n <> "0000"%string) (structured_candidates p)
    /\ ("0000"%string ∉ map sign_number signs)
    /\ map text_bbox signs
       = map span_box
           (List.filter reported (structured_spans p))
    /\ Forall (fun s => page s = number + 1) signs.
Proof.
  destruct (spans_walk_atl06 (page_width p) (page_height p) number
              (structured_spans p) Hw Hh []) as (k & Hrun & Hl & Hb & Hp).
  cbn [app] in Hrun. exists k.
  rewrite extract_text_from_page_flat.
  split; [exact Hrun|]. split; [exact Hl|].
  split; [|split; [exact Hb | exact Hp]].
  rewrite Hl. intros Hin. apply list_elem_of_filter in Hin as [Hne _].
  now apply Hne.
Qed.

Lemma atl06_reports_matching_runs_except_0000_witness :
  exists signs : list sign_data,
    extract_text_from_page scenario_page 0 = Some signs
    /\ map sign_number signs
       = filter (fun n => n <> "0000"%string)
                (structured_candidates scenario_page)
    /\ ("0000"%string ∉ map sign_number signs)
    /\ map text_bbox signs
       = map span_box
           (List.filter reported (structured_spans scenario_page))
    /\ Forall (fun s => page s = 0 + 1) signs.
Proof.
  apply (atl06_reports_matching_runs_except_0000 scenario_page 0);
    vm_compute; discriminate.
Defined.

End Atl06Facts.

(** ** What the grouper leaves of a page *)

Module AnnotationsFacts.

Import PyStr PyStrFacts Grouper GrouperFacts Annotations.

Lemma visit_seed_cases (t : Q) (i : nat) (ss : list sign) (used : gset nat) :
  (visit_seed t i (ss, used)).1 = ss
  \/ exists (sign1 : sign) (grp : list nat),
       ss !! i = Some sign1
       /\ (2 <= length grp)%nat
       /\ (forall k, k ∈ grp ->
             exists s0, ss !! k = Some s0
                        /\ is_series (sign_number s0) = true
                        /\ base_number (sign_number s0)
                           = base_number (sign_number sign1))
       /\ (visit_seed t i (ss, used)).1
          = annotate grp
              (group_label (base_number (sign_number sign1)) (length grp))
              (length grp) ss.
Proof.
  unfold visit_seed.
  destruct (ss !! i) as [sign1|] eqn:Ei; [|now left].
  destruct (bool_decide (i ∈ used)); [now left|].
  destruct (is_series (sign_number sign1)) eqn:Es; [|now left].
  set (base := base_number (sign_number sign1)).
  pose proof (collect_elem t sign1 i base ss 0 [i] ({[i]} ∪ used)) as Helem.
  destruct (collect t sign1 i base 0 ss [i] ({[i]} ∪ used)) as [grp used'].
  cbn [fst] in Helem.
  destruct (Nat.ltb_spec 1 (length grp)) as [Hlen|Hlen]; [|now left].
  right. exists sign1, grp. split; [reflexivity|]. split; [lia|].
  split; [|reflexivity].
  intros k Hk. apply Helem in Hk.
  destruct Hk as [Hk|(_ & s0 & Hlk & _ & _ & Hstart & _)].
  - apply list_elem_of_singleton in Hk. subst k. now exists sign1.
  - rewrite Nat.sub_0_r in Hlk. exists s0. split; [exact Hlk|].
    apply startswith_base in Hstart; [exact Hstart|].
    apply base_number_no_dot.
Qed.

Lemma visit_seeds_invariant (P : list sign -> Prop) (t : Q) :
  (forall i ss used, P ss -> P (visit_seed t i (ss, used)).1) ->
  forall (idxs : list nat) (ss : list sign) (used : gset nat),
    P ss -> P (foldl (fun st i => visit_seed t i st) (ss, used) idxs).1.
Proof.
  intros Hstep. induction idxs as [|i idxs IH]; intros ss used Hss;
    cbn [foldl]; [exact Hss|].
  specialize (Hstep i ss used Hss).
  destruct (visit_seed t i (ss, used)) as [ss1 u1]. now apply IH.
Qed.

Lemma group_page_invariant (P : list sign -> Prop) (t : Q) (ss : list sign) :
  (forall i ss used, P ss -> P (visit_seed t i (ss, used)).1) ->
  P ss -> P (group_page t ss).
Proof.
  intros Hstep Hss. unfold group_page.
  destruct (length ss <? 2)%nat; [exact Hss|].
  now apply visit_seeds_invariant.
Qed.

Lemma content_annotate (grp : list nat) (l : string) (n : nat)
  (ss : list sign) :
  content <$> annotate grp l n ss = content <$> ss.
Proof.
  apply list_eq. intros k. rewrite !list_lookup_fmap, lookup_annotate.
  destruct (bool_decide (k ∈ grp)); [|reflexivity].
  now destruct (ss !! k).
Qed.

Lemma content_group_page (t : Q) (ss : list sign) :
  content <$> group_page t ss = content <$> ss.
Proof.
  apply (group_page_invariant (fun ss' => content <$> ss' = content <$> ss));
    [|reflexivity].
  intros i ss' used Hss'.
  destruct (visit_seed_cases t i ss' used)
    as [->|(sign1 & grp & _ & _ & _ & ->)]; [exact Hss'|].
  now rewrite content_annotate.
Qed.

Lemma length_group_page (t : Q) (ss : list sign) :
  length (group_page t ss) = length ss.
Proof.
  rewrite <- (length_fmap content), content_group_page. apply length_fmap.
Qed.

(** X11. The grouper only annotates: a page keeps its number of signs, and
    every sign keeps its label and its hotspot rectangle at its position. *)
Theorem grouper_only_annotates (t : Q) (pages : list page_data) :
  length (group_nearby_signs t pages) = length pages
  /\ forall (i : nat) (pd : page_data),
       pages !! i = Some pd ->
       exists pd' : page_data,
         group_nearby_signs t pages !! i = Some pd'
         /\ page pd' = page pd
         /\ length (signs pd') = length (signs pd)
         /\ content <$> signs pd' = content <$> signs pd.
Proof.
  unfold group_nearby_signs. split; [apply length_map|].
  intros i pd Hpd. eexists. split.
  { change map with (@fmap list _) at 1.
    rewrite list_lookup_fmap, Hpd. reflexivity. }
  cbn [page signs]. split; [reflexivity|].
  split; [apply length_group_page | apply content_group_page].
Qed.

Lemma consistent_group_page (t : Q) (ss : list sign) :
  Forall consistent ss -> Forall consistent (group_page t ss).
Proof.
  apply (group_page_invariant (Forall consistent)).
  intros i ss' used Hss'.
  destruct (visit_seed_cases t i ss' used)
    as [->|(sign1 & grp & _ & Hlen & Hgrp & ->)]; [exact Hss'|].
  apply Forall_lookup. intros k s Hk. rewrite lookup_annotate in Hk.
  destruct (bool_decide (k ∈ grp)) eqn:Ek.
  - apply bool_decide_eq_true in Ek.
    destruct (Hgrp k Ek) as (s0 & Hs0 & Hser & Hbase).
    rewrite Hs0 in Hk. cbn in Hk. injection Hk as <-.
    right. exists (length grp). cbn [set_group sign_number group group_size].
    rewrite Hbase. auto.
  - rewrite Forall_lookup in Hss'. exact (Hss' k s Hk).
Qed.

(** X12. When every sign of every page is without annotation, or annotated
    consistently, then so is every sign after grouping: a sign that carries
    a group is a series label, its group names its own base number, and
    its group size is at least two and is the size the group names. *)
Theorem group_annotations_are_consistent (t : Q) (pages : list page_data)
  (Hpages : Forall (fun pd => Forall consistent (signs pd)) pages) :
  Forall (fun pd => Forall consistent (signs pd))
         (group_nearby_signs t pages).
Proof.
  unfold group_nearby_signs. apply Forall_map.
  eapply Forall_impl; [exact Hpages|].
  intros pd Hpd. cbn [signs]. now apply consistent_group_page.
Qed.

Lemma group_annotations_are_consistent_witness :
  Forall (fun pd => Forall consistent (signs pd))
         (group_nearby_signs default_threshold
            [mk_page_data 1
               [plain "2001.1" 10 20; plain "2001" 10 (43 # 2);
                plain "2001.2" 10 (43 # 2)]]).
Proof.
  apply (group_annotations_are_consistent default_threshold).
  repeat constructor.
Defined.

Lemma nearby_nonpositive (t : Q) (a b : sign) :
  (t <= 0)%Q -> nearby t a b = false.
Proof.
  intros Ht. unfold nearby. cbv zeta.
  apply fl_nonpos in Ht. fold (held t) in Ht.
  set (dx := fsub (held (x_percentage a)) (held (x_percentage b))).
  set (dy := fsub (held (y_percentage a)) (held (y_percentage b))).
  pose proof (Qabs_nonneg dx) as Hx.
  pose proof (Qabs_nonneg dy) as Hy.
  assert (Ex : Qlt_bool (Qabs dx) (held t) = false)
    by (apply Qlt_bool_false_iff; lra).
  assert (Ey : Qlt_bool (Qabs dy) (held t) = false)
    by (apply Qlt_bool_false_iff; lra).
  now rewrite Ex, Ey.
Qed.

Lemma collect_none (t : Q) (sign1 : sign) (i : nat) (base : string)
  (rest : list sign) :
  (forall sign2, nearby t sign1 sign2 = false) ->
  forall (j : nat) (grp : list nat) (used : gset nat),
    collect t sign1 i base j rest grp used = (grp, used).
Proof.
  intros Hfar. induction rest as [|sign2 rest IH]; intros j grp used;
    cbn [collect]; [reflexivity|].
  rewrite Hfar, andb_false_r. apply IH.
Qed.

Lemma visit_seed_untouched (t : Q) (i : nat) (ss : list sign)
  (used : gset nat) :
  (t <= 0)%Q \/ Forall (fun s => is_series (sign_number s) = false) ss ->
  (visit_seed t i (ss, used)).1 = ss.
Proof.
  intros Hplain. unfold visit_seed.
  destruct (ss !! i) as [sign1|] eqn:Ei; [|reflexivity].
  destruct (bool_decide (i ∈ used)); [reflexivity|].
  destruct (is_series (sign_number sign1)) eqn:Es; [|reflexivity].
  destruct Hplain as [Ht|Hall].
  - rewrite collect_none by (intros s2; now apply nearby_nonpositive).
    reflexivity.
  - rewrite Forall_lookup in Hall. specialize (Hall i sign1 Ei).
    cbn in Hall. congruence.
Qed.

(** X23. With a distance threshold that is not positive, or on pages none
    of whose labels has a period, the grouper changes nothing. *)
Theorem grouper_leaves_plain_pages_untouched (t : Q)
  (pages : list page_data)
  (Hplain : (t <= 0)%Q
            \/ Forall (fun pd =>
                         Forall (fun s => is_series (sign_number s) = false)
                                (signs pd)) pages) :
  group_nearby_signs t pages = pages.
Proof.
  unfold group_nearby_signs.
  rewrite <- (map_id pages) at 2. apply map_ext_in.
  intros pd Hpd. destruct pd as [n ss]. cbn [page signs]. f_equal.
  assert (Hss : (t <= 0)%Q
                \/ Forall (fun s => is_series (sign_number s) = false) ss).
  { destruct Hplain as [Ht|Hall]; [now left | right].
    rewrite List.Forall_forall in Hall. exact (Hall _ Hpd). }
  apply (group_page_invariant (fun ss' => ss' = ss)); [|reflexivity].
  intros i ss' used ->. now apply visit_seed_untouched.
Qed.

Lemma grouper_leaves_plain_pages_untouched_witness :
  group_nearby_signs default_threshold
    [mk_page_data 1 [plain "2001" 10 20; plain "2002" 10 (43 # 2)]]
  = [mk_page_data 1 [plain "2001" 10 20; plain "2002" 10 (43 # 2)]].
Proof.
  apply (grouper_leaves_plain_pages_untouched default_threshold).
  right. repeat constructor.
Defined.

(** *** Group sizes *)

Lemma collect_fresh (t : Q) (sign1 : sign) (i : nat) (base : string)
  (rest : list sign) :
  forall (j : nat) (grp : list nat) (used : gset nat),
    NoDup grp -> (forall k, k ∈ grp -> k ∈ used) ->
    NoDup (collect t sign1 i base j rest grp used).1
    /\ (forall k, k ∈ (collect t sign1 i base j rest grp used).1 ->
                  k ∈ (collect t sign1 i base j rest grp used).2)
    /\ used ⊆ (collect t sign1 i base j rest grp used).2
    /\ (forall k, k ∈ (collect t sign1 i base j rest grp used).1 ->
                  k ∈ grp \/ k ∉ used).
Proof.
  induction rest as [|sign2 rest IH]; intros j grp used Hnd Hsub;
    cbn [collect].
  - cbn [fst snd]. repeat split; auto.
  - destruct (bool_decide (j ≠ i) && bool_decide (j ∉ used)
              && startswith (sign_number sign2) (base +:+ ".")
              && nearby t sign1 sign2) eqn:Etest; [|now apply IH].
    apply andb_true_iff in Etest as [Etest _].
    apply andb_true_iff in Etest as [Etest _].
    apply andb_true_iff in Etest as [_ Hju].
    apply bool_decide_eq_true in Hju.
    destruct (IH (S j) (grp ++ [j]) ({[j]} ∪ used))
      as (H1 & H2 & H3 & H4).
    + apply NoDup_app. split; [exact Hnd|]. split; [|apply NoDup_singleton].
      intros x Hx Hxj. apply list_elem_of_singleton in Hxj. subst x.
      exact (Hju (Hsub j Hx)).
    + intros k Hk. apply elem_of_app in Hk as [Hk|Hk].
      * apply elem_of_union_r. now apply Hsub.
      * apply list_elem_of_singleton in Hk. subst k.
        apply elem_of_union_l. now apply elem_of_singleton.
    + split; [exact H1|]. split; [exact H2|].
      split; [set_solver|].
      intros k Hk. destruct (H4 k Hk) as [Hin|Hout].
      * apply elem_of_app in Hin as [Hin|Hin]; [now left|].
        apply list_elem_of_singleton in Hin. subst k. now right.
      * right. set_solver.
Qed.

Lemma visit_seed_group (t : Q) (i : nat) (ss : list sign) (used : gset nat) :
  ((visit_seed t i (ss, used)).1 = ss
   /\ used ⊆ (visit_seed t i (ss, used)).2)
  \/ exists (sign1 : sign) (grp : list nat),
       (2 <= length grp)%nat
       /\ NoDup grp
       /\ (forall k, k ∈ grp -> k ∉ used)
       /\ (forall k, k ∈ grp -> k ∈ (visit_seed t i (ss, used)).2)
       /\ used ⊆ (visit_seed t i (ss, used)).2
       /\ (forall k, k ∈ grp ->
             exists s0, ss !! k = Some s0
                        /\ base_number (sign_number s0)
                           = base_number (sign_number sign1))
       /\ (visit_seed t i (ss, used)).1
          = annotate grp
              (group_label (base_number (sign_number sign1)) (length grp))
              (length grp) ss.
Proof.
  unfold visit_seed.
  destruct (ss !! i) as [sign1|] eqn:Ei; [|now left].
  destruct (bool_decide (i ∈ used)) eqn:Eu; [now left|].
  apply bool_decide_eq_false in Eu.
  destruct (is_series (sign_number sign1)) eqn:Es.
  2:{ left. cbn [length Nat.ltb Nat.leb fst snd]. split; [reflexivity|].
      set_solver. }
  set (base := base_number (sign_number sign1)).
  pose proof (collect_elem t sign1 i base ss 0 [i] ({[i]} ∪ used)) as Helem.
  destruct (collect_fresh t sign1 i base ss 0 [i] ({[i]} ∪ used))
    as (H1 & H2 & H3 & H4).
  { apply NoDup_singleton. }
  { intros k Hk. apply list_elem_of_singleton in Hk. subst k. set_solver. }
  destruct (collect t sign1 i base 0 ss [i] ({[i]} ∪ used)) as [grp used'].
  cbn [fst snd] in *.
  destruct (Nat.ltb_spec 1 (length grp)) as [Hlen|Hlen]; cbn [fst snd].
  2:{ left. split; [reflexivity | set_solver]. }
  right. exists sign1, grp. split; [lia|]. split; [exact H1|].
  split.
  { intros k Hk. destruct (H4 k Hk) as [Hin|Hout].
    - apply list_elem_of_singleton in Hin. now subst k.
    - set_solver. }
  split; [exact H2|]. split; [set_solver|]. split; [|reflexivity].
  intros k Hk. apply Helem in Hk.
  destruct Hk as [Hk|(_ & s0 & Hlk & _ & _ & Hstart & _)].
  - apply list_elem_of_singleton in Hk. subst k. now exists sign1.
  - rewrite Nat.sub_0_r in Hlk. exists s0. split; [exact Hlk|].
    apply startswith_base in Hstart; [apply Hstart|].
    apply base_number_no_dot.
Qed.

Lemma visit_seed_settled (t : Q) (i : nat) (ss : list sign)
  (used : gset nat) :
  settled ss used ->
  settled (visit_seed t i (ss, used)).1 (visit_seed t i (ss, used)).2.
Proof.
  intros [HA HB].
  destruct (visit_seed_group t i ss used)
    as [[-> Hsub]
       |(sign1 & grp & Hlen & Hnd & Hfresh & Hin & Hsub & Hmem & ->)].
  - split.
    + intros k s Hk Hu. apply (HA k s Hk). set_solver.
    + intros k s Hk. destruct (HB k s Hk) as [Hun|(n & g & Hn & Hg & Hu)];
        [now left|].
      right. exists n, g. split; [exact Hn|]. split; [exact Hg|].
      intros j Hj. apply Hsub. now apply Hu.
  - set (l := group_label (base_number (sign_number sign1)) (length grp)).
    assert (Hold : forall j, j ∈ used ->
                             annotate grp l (length grp) ss !! j = ss !! j).
    { intros j Hj. rewrite lookup_annotate.
      rewrite bool_decide_eq_false_2; [reflexivity|].
      intros Hjg. exact (Hfresh j Hjg Hj). }
    split.
    + intros k s Hk Hu. rewrite lookup_annotate in Hk.
      destruct (bool_decide (k ∈ grp)) eqn:Ek.
      * apply bool_decide_eq_true in Ek. exfalso. exact (Hu (Hin k Ek)).
      * apply (HA k s Hk). set_solver.
    + intros k s Hk. rewrite lookup_annotate in Hk.
      destruct (bool_decide (k ∈ grp)) eqn:Ek.
      * apply bool_decide_eq_true in Ek. right.
        destruct (Hmem k Ek) as (s0 & Hs0 & Hb0).
        rewrite Hs0 in Hk. cbn in Hk. injection Hk as <-.
        exists (length grp), grp. split; [reflexivity|].
        split; [|exact Hin].
        split; [exact Hnd|]. split; [reflexivity|]. split; [exact Ek|].
        intros j Hj. destruct (Hmem j Hj) as (sj & Hsj & Hbj).
        exists (set_group l (length grp) sj).
        rewrite lookup_annotate, bool_decide_eq_true_2, Hsj by exact Hj.
        split; [reflexivity|]. split; [reflexivity|].
        split; [reflexivity|].
        cbn [set_group sign_number]. congruence.
      * apply bool_decide_eq_false in Ek.
        destruct (HB k s Hk) as [Hun|(n & g & Hn & Hg & Hu)]; [now left|].
        right. exists n, g. split; [exact Hn|].
        split; [|intros j Hj; apply Hsub; now apply Hu].
        destruct Hg as (G1 & G2 & G3 & G4).
        split; [exact G1|]. split; [exact G2|]. split; [exact G3|].
        intros j Hj. destruct (G4 j Hj) as (sj & Hsj & Hrest).
        exists sj. split; [|exact Hrest].
        rewrite Hold by (now apply Hu). exact Hsj.
Qed.

Lemma visit_seeds_settled (t : Q) (idxs : list nat) :
  forall (ss : list sign) (used : gset nat),
    settled ss used ->
    settled (foldl (fun st i => visit_seed t i st) (ss, used) idxs).1
            (foldl (fun st i => visit_seed t i st) (ss, used) idxs).2.
Proof.
  induction idxs as [|i idxs IH]; intros ss used Hst; cbn [foldl];
    [exact Hst|].
  pose proof (visit_seed_settled t i ss used Hst) as Hstep.
  destruct (visit_seed t i (ss, used)) as [ss1 u1]. now apply IH.
Qed.

(** X24. On a page whose signs carry no annotation, after grouping the
    group size of a sign is the size of its group: a sign with group size
    [n] is one of [n] signs at pairwise distinct positions of the page that
    all carry its group and group size and have its base number. *)
Theorem group_size_counts_the_group (t : Q) (ss : list sign)
  (Hplain : Forall unannotated ss)
  (k : nat) (s : sign) (n : nat)
  (Hk : group_page t ss !! k = Some s)
  (Hn : group_size s = Some n) :
  exists g : list nat, grouped_with (group_page t ss) k s n g.
Proof.
  assert (H0 : settled ss ∅).
  { rewrite Forall_lookup in Hplain. split.
    - intros j sj Hj _. exact (Hplain j sj Hj).
    - intros j sj Hj. left. exact (Hplain j sj Hj). }
  assert (Hout : exists used, settled (group_page t ss) used).
  { unfold group_page. destruct (length ss <? 2)%nat; [now exists ∅|].
    eexists. apply visit_seeds_settled, H0. }
  destruct Hout as (used & _ & HB).
  destruct (HB k s Hk) as [[_ Hun]|(n' & g & Hn' & Hg & _)]; [congruence|].
  assert (n' = n) by congruence. subst n'. now exists g.
Qed.

Lemma group_size_counts_the_group_witness :
  exists g : list nat,
    grouped_with
      (group_page 2 [plain "2001.1" 10 20; plain "2001.2" 10 (43 # 2)])
      0 (set_group "2001 series (2 signs)" 2 (plain "2001.1" 10 20)) 2 g.
Proof.
  apply (group_size_counts_the_group 2
           [plain "2001.1" 10 20; plain "2001.2" 10 (43 # 2)]).
  - repeat constructor.
  - rewrite scenario_c. reflexivity.
  - reflexivity.
Defined.

End AnnotationsFacts.

(** ** The document loop *)

Module PdfDocFacts.

Import Annotations AnnotationsFacts PdfDoc.

Lemma extract_signs_from_page_some (pg : PdfText.page) (pnum : Z) :
  ~ (PdfText.page_width pg == 0)%Q -> ~ (PdfText.page_height pg == 0)%Q ->
  exists hs, PdfText.extract_signs_from_page pg pnum = Some hs.
Proof.
  intros Hw Hh.
  destruct (PdfTextFacts.structured_walk_extends pg pnum Hw Hh [])
    as (found & Hfound).
  cbn [app] in Hfound.
  destruct (PdfTextFacts.fallback_blocks_keep_new pg pnum Hw Hh
              (PdfText.text_blocks pg) found) as (kept & Hrun & _).
  exists (found ++ kept).
  unfold PdfText.extract_signs_from_page. rewrite Hfound. exact Hrun.
Qed.

Lemma count_signs_app (ps qs : list page_results) :
  count_signs (ps ++ qs) = count_signs ps + count_signs qs.
Proof.
  unfold count_signs. induction ps as [|p ps IH]; cbn; [reflexivity|].
  cbn in IH. rewrite IH. lia.
Qed.

Lemma count_signs_grouped (t : Q) (ps : list page_results) :
  count_signs
    (map (fun pr =>
            mk_page_results (page pr) (page_width pr) (page_height pr)
              (signs_detected pr) (Grouper.group_page t (signs pr))) ps)
  = count_signs ps.
Proof.
  unfold count_signs. induction ps as [|p ps IH]; cbn; [reflexivity|].
  cbn in IH. now rewrite IH.
Qed.

(** The grouper of the results is the grouper of their pages. *)
Lemma group_nearby_signs_pages (t : Q) (results : all_results) :
  page_data_of <$> pages (group_nearby_signs t results)
  = Grouper.group_nearby_signs t (page_data_of <$> pages results).
Proof.
  unfold group_nearby_signs, Grouper.group_nearby_signs. cbn [pages].
  induction (pages results) as [|pr ps IH]; [reflexivity|].
  cbn. f_equal. exact IH.
Qed.

Lemma extract_pages_run (doc : list PdfText.page) :
  Forall (fun pg => ~ (PdfText.page_width pg == 0)%Q
                    /\ ~ (PdfText.page_height pg == 0)%Q) doc ->
  forall (n : nat) (acc : all_results),
  exists (res : all_results) (new : list page_results),
    extract_pages (Z.of_nat n + 1) doc acc = Some res
    /\ source_pdf res = source_pdf acc
    /\ total_signs_detected res = total_signs_detected acc + count_signs new
    /\ pages res = pages acc ++ new
    /\ length new = length doc
    /\ forall (i : nat) (pg : PdfText.page),
         doc !! i = Some pg ->
         exists (pr : page_results) (hs : list PdfText.SignHotspot),
           new !! i = Some pr
           /\ PdfText.extract_signs_from_page pg (Z.of_nat (n + i) + 1)
              = Some hs
           /\ page pr = Z.of_nat (n + i) + 1
           /\ page_width pr = py_round (PdfText.page_width pg)
           /\ page_height pr = py_round (PdfText.page_height pg)
           /\ signs_detected pr = Z.of_nat (length hs)
           /\ signs pr = Grouper.to_dict <$> hs.
Proof.
  induction 1 as [|pg rest [Hw Hh] Hrest IH]; intros n acc.
  - exists acc, []. cbn [extract_pages]. rewrite app_nil_r.
    repeat split; try reflexivity.
    + unfold count_signs. cbn. lia.
    + intros i pg' Hi. rewrite lookup_nil in Hi. discriminate.
  - destruct (extract_signs_from_page_some pg (Z.of_nat n + 1) Hw Hh)
      as (hs & Hhs).
    cbn [extract_pages]. rewrite Hhs. cbn [mbind option_bind].
    set (p0 := mk_page_results (Z.of_nat n + 1)
                 (py_round (PdfText.page_width pg))
                 (py_round (PdfText.page_height pg))
                 (Z.of_nat (length hs)) (map Grouper.to_dict hs)).
    replace (Z.of_nat n + 1 + 1) with (Z.of_nat (S n) + 1) by lia.
    destruct (IH (S n)
                (mk_all_results (source_pdf acc)
                   (total_signs_detected acc + Z.of_nat (length hs))
                   (pages acc ++ [p0])))
      as (res & new & -> & Hsrc & Htot & Hpages & Hlen & Hnew).
    cbn [source_pdf total_signs_detected pages] in Hsrc, Htot, Hpages.
    exists res, (p0 :: new).
    split; [reflexivity|]. split; [exact Hsrc|].
    split.
    { rewrite Htot. change (p0 :: new) with ([p0] ++ new).
      rewrite count_signs_app. unfold count_signs at 2. cbn. lia. }
    split; [rewrite Hpages, <- app_assoc; reflexivity|].
    split; [cbn; now rewrite Hlen|].
    intros [|i] pg' Hi.
    + cbn in Hi. injection Hi as <-. exists p0, hs.
      rewrite Nat.add_0_r. now repeat split.
    + cbn in Hi. destruct (Hnew i pg' Hi) as (pr & hs' & Hpr & H').
      exists pr, hs'. split; [exact Hpr|].
      replace (n + S i)%nat with (S n + i)%nat by lia. exact H'.
Qed.

(** X13. For a document whose pages have non-zero dimensions the
    extractor returns normally one entry per page, in order and numbered
    from one, with the rounded page dimensions; the total is the sum of the
    per-page numbers; and after grouping each entry still holds, position
    by position, the labels and hotspot rectangles of the detections of its
    page, their number being the recorded one, with consistent
    annotations. *)
Theorem pdf_results_survive_grouping (name : string)
  (doc : list PdfText.page)
  (Hdims : Forall (fun pg => ~ (PdfText.page_width pg == 0)%Q
                             /\ ~ (PdfText.page_height pg == 0)%Q) doc) :
  exists res : all_results,
    extract_signs_from_pdf name doc = Some res
    /\ source_pdf res = name
    /\ total_signs_detected res = count_signs (pages res)
    /\ length (pages res) = length doc
    /\ forall (i : nat) (pg : PdfText.page),
         doc !! i = Some pg ->
         exists (pr : page_results) (hs : list PdfText.SignHotspot),
           pages res !! i = Some pr
           /\ PdfText.extract_signs_from_page pg (Z.of_nat i + 1) = Some hs
           /\ entry_of i pg hs pr.
Proof.
  destruct (extract_pages_run doc Hdims 0 (mk_all_results name 0 []))
    as (res & new & Hrun & Hsrc & Htot & Hpages & Hlen & Hnew).
  cbn [source_pdf total_signs_detected pages app] in *.
  change (Z.of_nat 0 + 1) with 1 in Hrun.
  unfold extract_signs_from_pdf. rewrite Hrun. cbn [mbind option_bind].
  eexists. split; [reflexivity|].
  unfold group_nearby_signs. cbn [source_pdf total_signs_detected pages].
  split; [exact Hsrc|].
  split; [rewrite count_signs_grouped, Hpages; lia|].
  split; [rewrite length_map, Hpages; exact Hlen|].
  intros i pg Hi.
  destruct (Hnew i pg Hi) as (pr & hs & Hpr & Hhs & Hp & Hpw & Hph & Hn & Hs).
  cbn [Nat.add] in *.
  eexists _, hs. split.
  { change map with (@fmap list _) at 1.
    rewrite list_lookup_fmap, Hpages, Hpr. reflexivity. }
  split; [exact Hhs|].
  unfold entry_of. cbn [page page_width page_height signs_detected signs].
  split; [exact Hp|]. split; [exact Hpw|]. split; [exact Hph|].
  split; [exact Hn|].
  split; [rewrite length_group_page, Hs; apply length_fmap|].
  split; [rewrite content_group_page, Hs; reflexivity|].
  apply consistent_group_page. rewrite Hs.
  apply Forall_fmap, Forall_forall. intros h _. now left.
Qed.

Lemma extract_pages_fails (doc : list PdfText.page) :
  forall (n : nat) (acc : all_results) (i : nat) (pg : PdfText.page),
    doc !! i = Some pg ->
    PdfText.extract_signs_from_page pg (Z.of_nat (n + i) + 1) = None ->
    extract_pages (Z.of_nat n + 1) doc acc = None.
Proof.
  induction doc as [|pg0 rest IH]; intros n acc i pg Hi Hfail.
  - rewrite lookup_nil in Hi. discriminate.
  - cbn [extract_pages]. destruct i as [|i].
    + cbn in Hi. injection Hi as <-. rewrite Nat.add_0_r in Hfail.
      now rewrite Hfail.
    + cbn in Hi.
      destruct (PdfText.extract_signs_from_page pg0 (Z.of_nat n + 1));
        [|reflexivity].
      cbn [mbind option_bind].
      replace (Z.of_nat n + 1 + 1) with (Z.of_nat (S n) + 1) by lia.
      apply (IH (S n) _ i pg Hi).
      now replace (S n + i)%nat with (n + S i)%nat by lia.
Qed.

(** X14. When the page extractor fails on one page of a document, the
    document extractor fails: nothing is returned for the other pages
    either. *)
Theorem one_failing_page_fails_the_document (name : string)
  (doc : list PdfText.page) (i : nat) (pg : PdfText.page)
  (Hpage : doc !! i = Some pg)
  (Hfail : PdfText.extract_signs_from_page pg (Z.of_nat i + 1) = None) :
  extract_signs_from_pdf name doc = None.
Proof.
  unfold extract_signs_from_pdf.
  now rewrite (extract_pages_fails doc 0 _ i pg Hpage Hfail).
Qed.

Lemma pdf_results_survive_grouping_witness :
  exists res : all_results,
    extract_signs_from_pdf "plan.pdf"
      [PdfText.scenario_page; PdfText.split_runs_page] = Some res
    /\ source_pdf res = "plan.pdf"%string
    /\ total_signs_detected res = count_signs (pages res)
    /\ length (pages res) = 2%nat
    /\ forall (i : nat) (pg : PdfText.page),
         [PdfText.scenario_page; PdfText.split_runs_page] !! i = Some pg ->
         exists (pr : page_results) (hs : list PdfText.SignHotspot),
           pages res !! i = Some pr
           /\ PdfText.extract_signs_from_page pg (Z.of_nat i + 1) = Some hs
           /\ entry_of i pg hs pr.
Proof.
  apply (pdf_results_survive_grouping "plan.pdf"
           [PdfText.scenario_page; PdfText.split_runs_page]).
  repeat constructor; vm_compute; discriminate.
Defined.

Lemma one_failing_page_fails_the_document_witness :
  extract_signs_from_pdf "plan.pdf"
    [PdfText.scenario_page; TextLayer.flat_page] = None.
Proof.
  apply (one_failing_page_fails_the_document "plan.pdf"
           [PdfText.scenario_page; TextLayer.flat_page] 1 TextLayer.flat_page);
    reflexivity.
Defined.

End PdfDocFacts.

(** ** The ATL06 document loop *)

Module Atl06DocFacts.

Import Atl06 Atl06Doc.

Lemma count_signs_snoc (rs : list page_result) (r : page_result) :
  count_signs (rs ++ [r]) = count_signs rs + signs_detected r.
Proof.
  unfold count_signs. induction rs as [|r0 rs IH]; cbn; [lia|].
  cbn in IH. rewrite IH. lia.
Qed.

Lemma accounted_weaken (n m : Z) (st : state) :
  n <= m -> accounted n st -> accounted m st.
Proof.
  intros Hnm [H1 H2 H3 H4 H5]. split; try assumption.
  eapply Forall_impl; [exact H3|]. intros k Hk. cbn in Hk. lia.
Qed.

Lemma StronglySorted_snoc_lt (l : list Z) (n : Z) :
  StronglySorted Z.lt l -> Forall (fun k => k < n) l ->
  StronglySorted Z.lt (l ++ [n]).
Proof.
  induction 1 as [|a l Hl IH Ha]; intros Hn; cbn.
  - repeat constructor.
  - apply Forall_cons in Hn as [Han Hn]. constructor; [now apply IH|].
    apply Forall_app. split; [exact Ha|]. now constructor.
Qed.

Lemma visit_page_accounted (n : Z) (inp : page_input) (st : state) :
  0 <= n -> accounted n st -> accounted (n + 1) (visit_page n inp st).
Proof.
  intros Hn Hst. unfold visit_page.
  destruct (extract_text_from_page (content inp) n) as [[|sd sds]|];
    try (apply (accounted_weaken n); [lia | exact Hst]).
  destruct Hst as [H1 H2 H3 H4 H5].
  set (page_signs := sd :: sds).
  assert (Hpages : Forall (fun k => 1 <= k <= n + 1)
                          (pages_with_signs st ++ [n + 1])).
  { apply Forall_app. split.
    - eapply Forall_impl; [exact H3|]. intros k Hk. cbn in Hk. lia.
    - constructor; [lia | constructor]. }
  assert (Hsorted : StronglySorted Z.lt (pages_with_signs st ++ [n + 1])).
  { apply StronglySorted_snoc_lt; [exact H4|].
    eapply Forall_impl; [exact H3|]. intros k Hk. cbn in Hk. lia. }
  assert (Hres : Forall (fun pr =>
                    signs_detected pr = Z.of_nat (length (signs pr))
                    /\ signs pr <> []
                    /\ page_number pr ∈ pages_with_signs st ++ [n + 1])
                        (page_results st)).
  { eapply Forall_impl; [exact H5|]. intros pr (Ha & Hb & Hc).
    repeat split; try assumption. apply elem_of_app. now left. }
  destruct (saves inp); split;
    cbn [all_signs pages_with_signs page_results total_signs];
    try assumption.
  - rewrite length_app. lia.
  - rewrite count_signs_snoc. cbn [signs_detected]. lia.
  - apply Forall_app. split; [exact Hres|].
    constructor; [|constructor].
    cbn [signs_detected signs page_number].
    split; [reflexivity|]. split; [discriminate|].
    apply elem_of_app. right. apply list_elem_of_here.
  - rewrite length_app. lia.
  - lia.
Qed.

Lemma process_pages_accounted (doc : list page_input) :
  forall (n : Z) (st : state),
    0 <= n -> accounted n st ->
    accounted (n + Z.of_nat (length doc)) (process_pages n doc st).
Proof.
  induction doc as [|inp rest IH]; intros n st Hn Hst;
    cbn [process_pages length].
  - apply (accounted_weaken n); [lia | exact Hst].
  - replace (n + Z.of_nat (S (length rest)))
      with (n + 1 + Z.of_nat (length rest)) by lia.
    apply IH; [lia|]. now apply visit_page_accounted.
Qed.

(** The pages listed are those that yield detections. *)
Lemma process_pages_listed (doc : list page_input) :
  forall (n : nat) (st : state) (k : Z),
    k ∈ pages_with_signs (process_pages (Z.of_nat n) doc st)
    <-> k ∈ pages_with_signs st
        \/ exists (i : nat) (inp : page_input) (page_signs : list sign_data),
             doc !! i = Some inp
             /\ k = Z.of_nat (n + i) + 1
             /\ extract_text_from_page (content inp) (Z.of_nat (n + i))
                = Some page_signs
             /\ page_signs <> [].
Proof.
  induction doc as [|inp rest IH]; intros n st k; cbn [process_pages].
  - split; [now left|]. intros [H|(i & inp & ps & Hi & _)]; [exact H|].
    rewrite lookup_nil in Hi. discriminate.
  - replace (Z.of_nat n + 1) with (Z.of_nat (S n)) by lia. rewrite IH.
    assert (Hvisit :
      k ∈ pages_with_signs (visit_page (Z.of_nat n) inp st)
      <-> k ∈ pages_with_signs st
          \/ (k = Z.of_nat n + 1
              /\ exists page_signs,
                   extract_text_from_page (content inp) (Z.of_nat n)
                   = Some page_signs /\ page_signs <> [])).
    { unfold visit_page.
      destruct (extract_text_from_page (content inp) (Z.of_nat n))
        as [[|sd sds]|].
      - split; [now left|]. intros [H|(_ & ps & [= <-] & Hne)]; [exact H|].
        contradiction.
      - assert (E : forall rs,
                   pages_with_signs
                     (if saves inp
                      then mk_state (all_signs st ++ sd :: sds)
                             (pages_with_signs st ++ [Z.of_nat n + 1])
                             rs
                             (total_signs st
                              + Z.of_nat (length (sd :: sds)))
                      else mk_state (all_signs st ++ sd :: sds)
                             (pages_with_signs st ++ [Z.of_nat n + 1])
                             (page_results st)
                             (total_signs st
                              + Z.of_nat (length (sd :: sds))))
                   = pages_with_signs st ++ [Z.of_nat n + 1])
          by (intros rs; now destruct (saves inp)).
        rewrite E, elem_of_app, list_elem_of_singleton.
        split; (intros [H|H]; [now left|right]).
        + split; [exact H|]. now exists (sd :: sds).
        + tauto.
      - split; [now left|]. intros [H|(_ & ps & [=] & _)]. exact H. }
    rewrite Hvisit. split.
    + intros [[H|(-> & ps & Hps & Hne)]|(i & inp' & ps & Hi & -> & Hps & Hne)].
      * now left.
      * right. exists 0%nat, inp, ps. rewrite Nat.add_0_r. now repeat split.
      * right. exists (S i), inp', ps.
        replace (n + S i)%nat with (S n + i)%nat by lia. now repeat split.
    + intros [H|(i & inp' & ps & Hi & -> & Hps & Hne)]; [now left; left|].
      destruct i as [|i].
      * cbn in Hi. injection Hi as <-. rewrite Nat.add_0_r in *.
        left. right. split; [reflexivity|]. now exists ps.
      * cbn in Hi. right. exists i, inp', ps.
        replace (S n + i)%nat with (n + S i)%nat by lia. now repeat split.
Qed.

(** X15. Whatever the pages of the document, after the loop of the ATL06
    extractor the total is the number of collected signs; the listed page
    numbers are, in increasing order, exactly the one-based numbers of the
    pages whose extraction returns at least one sign, a page on which
    extraction fails being skipped; every page entry records the number of
    its own signs, has at least one and belongs to a listed page; and the
    per-page numbers add up to at most the total. *)
Theorem atl06_loop_accounting (doc : list page_input) :
  let st := extract_signs_from_atl06 doc in
  total_signs st = Z.of_nat (length (all_signs st))
  /\ count_signs (page_results st) <= total_signs st
  /\ StronglySorted Z.lt (pages_with_signs st)
  /\ (forall k : Z,
        k ∈ pages_with_signs st
        <-> exists i : nat, has_signs doc i /\ k = Z.of_nat i + 1)
  /\ Forall (fun pr => signs_detected pr = Z.of_nat (length (signs pr))
                       /\ signs pr <> []
                       /\ page_number pr ∈ pages_with_signs st)
            (page_results st).
Proof.
  cbv zeta. unfold extract_signs_from_atl06.
  assert (H0 : accounted 0 (mk_state [] [] [] 0)).
  { split; cbn; try constructor; lia. }
  destruct (process_pages_accounted doc 0 _ (Z.le_refl 0) H0)
    as [H1 H2 _ H4 H5].
  split; [exact H1|]. split; [exact H2|]. split; [exact H4|].
  split; [|exact H5].
  intros k. rewrite (process_pages_listed doc 0). cbn [pages_with_signs].
  split.
  - intros [H|(i & inp & ps & Hi & -> & Hps & Hne)]; [inversion H|].
    exists i. split; [|reflexivity]. now exists inp, ps.
  - intros (i & (inp & ps & Hi & Hps & Hne) & ->). right.
    now exists i, inp, ps.
Qed.

(** The entries and the total agree as long as every save succeeds, and
    disagree from the first that fails. *)
Lemma process_pages_saved (doc : list page_input) :
  forall (n : nat) (st : state),
    let st' := process_pages (Z.of_nat n) doc st in
    ((forall inp, inp ∈ doc -> saves inp = true) ->
     map page_number (page_results st) = pages_with_signs st ->
     count_signs (page_results st) = total_signs st ->
     map page_number (page_results st') = pages_with_signs st'
     /\ count_signs (page_results st') = total_signs st')
    /\ (total_signs st - count_signs (page_results st)
        <= total_signs st' - count_signs (page_results st'))
    /\ ((exists (i : nat) (inp : page_input) (page_signs : list sign_data),
           doc !! i = Some inp
           /\ extract_text_from_page (content inp) (Z.of_nat (n + i))
              = Some page_signs
           /\ page_signs <> []
           /\ saves inp = false) ->
        total_signs st - count_signs (page_results st)
        < total_signs st' - count_signs (page_results st')).
Proof.
  induction doc as [|inp rest IH]; intros n st; cbv zeta; cbn [process_pages].
  - split; [auto|]. split; [lia|].
    intros (i & inp & ps & Hi & _). rewrite lookup_nil in Hi. discriminate.
  - replace (Z.of_nat n + 1) with (Z.of_nat (S n)) by lia.
    specialize (IH (S n) (visit_page (Z.of_nat n) inp st)). cbv zeta in IH.
    destruct IH as (IH1 & IH2 & IH3).
    set (st1 := visit_page (Z.of_nat n) inp st) in *.
    assert (Hstep :
      (saves inp = true ->
       map page_number (page_results st) = pages_with_signs st ->
       count_signs (page_results st) = total_signs st ->
       map page_number (page_results st1) = pages_with_signs st1
       /\ count_signs (page_results st1) = total_signs st1)
      /\ (total_signs st - count_signs (page_results st)
          <= total_signs st1 - count_signs (page_results st1))
      /\ (forall page_signs,
            extract_text_from_page (content inp) (Z.of_nat n)
            = Some page_signs ->
            page_signs <> [] -> saves inp = false ->
            total_signs st - count_signs (page_results st)
            < total_signs st1 - count_signs (page_results st1))).
    { unfold st1, visit_page.
      destruct (extract_text_from_page (content inp) (Z.of_nat n))
        as [[|sd sds]|].
      - split; [auto|]. split; [lia|]. intros ps [= <-] Hne. contradiction.
      - destruct (saves inp);
          cbn [all_signs pages_with_signs page_results total_signs].
        + split.
          { intros _ Hp Hc. rewrite map_app, Hp, count_signs_snoc, Hc.
            cbn [map page_number signs_detected]. split; reflexivity. }
          split; [rewrite count_signs_snoc; cbn [signs_detected]; lia|].
          discriminate.
        + split; [discriminate|]. split; [lia|].
          intros ps _ _ _. cbn [length]. lia.
      - split; [auto|]. split; [lia|]. discriminate. }
    destruct Hstep as (S1 & S2 & S3).
    split; [|split].
    + intros Hall Hp Hc.
      destruct S1 as [Hp1 Hc1];
        [apply Hall, list_elem_of_here | exact Hp | exact Hc |].
      apply IH1; [|exact Hp1|exact Hc1].
      intros inp' Hin. apply Hall. now apply list_elem_of_further.
    + lia.
    + intros (i & inp' & ps & Hi & Hps & Hne & Hsave).
      destruct i as [|i].
      * cbn in Hi. injection Hi as <-. rewrite Nat.add_0_r in Hps.
        specialize (S3 ps Hps Hne Hsave). lia.
      * cbn in Hi.
        assert (Hlt : total_signs st1 - count_signs (page_results st1)
                      < total_signs (process_pages (Z.of_nat (S n)) rest st1)
                        - count_signs
                            (page_results
                               (process_pages (Z.of_nat (S n)) rest st1))).
        { apply IH3. exists i, inp', ps.
          replace (S n + i)%nat with (n + S i)%nat by lia.
          now repeat split. }
        lia.
Qed.

(** The entries are those of the pages that yield detections and whose
    image is saved. *)
Lemma process_pages_entries (doc : list page_input) :
  forall (n : nat) (st : state) (pr : page_result),
    pr ∈ page_results (process_pages (Z.of_nat n) doc st)
    <-> pr ∈ page_results st
        \/ exists (i : nat) (inp : page_input) (page_signs : list sign_data),
             doc !! i = Some inp
             /\ extract_text_from_page (content inp) (Z.of_nat (n + i))
                = Some page_signs
             /\ page_signs <> []
             /\ saves inp = true
             /\ pr = mk_page_result (Z.of_nat (n + i) + 1)
                       (Z.of_nat (length page_signs)) page_signs.
Proof.
  induction doc as [|inp rest IH]; intros n st pr; cbn [process_pages].
  - split; [now left|]. intros [H|(i & inp & ps & Hi & _)]; [exact H|].
    rewrite lookup_nil in Hi. discriminate.
  - replace (Z.of_nat n + 1) with (Z.of_nat (S n)) by lia. rewrite IH.
    assert (Hvisit :
      pr ∈ page_results (visit_page (Z.of_nat n) inp st)
      <-> pr ∈ page_results st
          \/ exists page_signs,
               extract_text_from_page (content inp) (Z.of_nat n)
               = Some page_signs
               /\ page_signs <> [] /\ saves inp = true
               /\ pr = mk_page_result (Z.of_nat n + 1)
                         (Z.of_nat (length page_signs)) page_signs).
    { unfold visit_page.
      destruct (extract_text_from_page (content inp) (Z.of_nat n))
        as [[|sd sds]|].
      - split; [now left|]. intros [H|(ps & [= <-] & Hne & _)]; [exact H|].
        contradiction.
      - destruct (saves inp); cbn [page_results].
        + rewrite elem_of_app, list_elem_of_singleton.
          split; (intros [H|H]; [now left|right]).
          * exists (sd :: sds). now repeat split.
          * destruct H as (ps & [= <-] & _ & _ & ->). reflexivity.
        + split; [now left|]. intros [H|(ps & _ & _ & [=] & _)]. exact H.
      - split; [now left|]. intros [H|(ps & [=] & _)]. exact H. }
    rewrite Hvisit. split.
    + intros [[H|(ps & Hps & Hne & Hs & ->)]
             |(i & inp' & ps & Hi & Hps & Hne & Hs & ->)].
      * now left.
      * right. exists 0%nat, inp, ps. rewrite Nat.add_0_r. now repeat split.
      * right. exists (S i), inp', ps.
        replace (n + S i)%nat with (S n + i)%nat by lia. now repeat split.
    + intros [H|(i & inp' & ps & Hi & Hps & Hne & Hs & ->)]; [now left; left|].
      destruct i as [|i].
      * cbn in Hi. injection Hi as <-. rewrite Nat.add_0_r in *.
        left. right. now exists ps.
      * cbn in Hi. right. exists i, inp', ps.
        replace (S n + i)%nat with (n + S i)%nat by lia. now repeat split.
Qed.

(** X16. The page entries of the ATL06 extractor are exactly those of the
    pages that yield signs and whose image is saved.  When every image can
    be saved, the entries are those of the listed pages, in order, and
    their numbers of signs add up to the total; when the image of a page
    with signs cannot be saved, that page is listed and counted in the
    total but has no entry, and the per-page numbers add up to less than
    the total. *)
Theorem atl06_unsaved_page_is_counted_without_entry (doc : list page_input) :
  let st := extract_signs_from_atl06 doc in
  (forall pr : page_result,
      pr ∈ page_results st
      <-> exists (i : nat) (inp : page_input) (page_signs : list sign_data),
            doc !! i = Some inp
            /\ extract_text_from_page (content inp) (Z.of_nat i)
               = Some page_signs
            /\ page_signs <> []
            /\ saves inp = true
            /\ pr = mk_page_result (Z.of_nat i + 1)
                      (Z.of_nat (length page_signs)) page_signs)
  /\ ((forall inp, inp ∈ doc -> saves inp = true) ->
      map page_number (page_results st) = pages_with_signs st
      /\ count_signs (page_results st) = total_signs st)
  /\ (forall i : nat,
        unsaved doc i ->
        (Z.of_nat i + 1 ∈ pages_with_signs st)
        /\ (Z.of_nat i + 1 ∉ map page_number (page_results st))
        /\ count_signs (page_results st) < total_signs st).
Proof.
  cbv zeta. unfold extract_signs_from_atl06.
  destruct (process_pages_saved doc 0 (mk_state [] [] [] 0))
    as (H1 & _ & H3).
  cbv zeta in H1, H3. cbn [page_results pages_with_signs total_signs] in *.
  assert (Hentries : forall pr : page_result,
    pr ∈ page_results (process_pages 0 doc (mk_state [] [] [] 0))
    <-> exists (i : nat) (inp : page_input) (page_signs : list sign_data),
          doc !! i = Some inp
          /\ extract_text_from_page (content inp) (Z.of_nat i)
             = Some page_signs
          /\ page_signs <> []
          /\ saves inp = true
          /\ pr = mk_page_result (Z.of_nat i + 1)
                    (Z.of_nat (length page_signs)) page_signs).
  { intros pr. rewrite (process_pages_entries doc 0). cbn [page_results].
    split.
    - intros [H|H]; [inversion H | exact H].
    - intros H. right. exact H. }
  split; [exact Hentries|]. split.
  - intros Hall. apply H1; [exact Hall | reflexivity | reflexivity].
  - intros i (inp & ps & Hi & Hps & Hne & Hsave).
    split; [|split].
    + rewrite (process_pages_listed doc 0). right. now exists i, inp, ps.
    + intros Hin. apply list_elem_of_fmap in Hin as (pr & Hnum & Hpr).
      apply Hentries in Hpr as (j & inp' & ps' & Hj & _ & _ & Hs' & ->).
      cbn [page_number] in Hnum.
      assert (j = i) by lia. subst j. congruence.
    + assert (Hlt : 0 - count_signs []
                    < total_signs (process_pages 0 doc (mk_state [] [] [] 0))
                      - count_signs
                          (page_results
                             (process_pages 0 doc (mk_state [] [] [] 0)))).
      { apply H3. exists i, inp, ps. now repeat split. }
      unfold count_signs at 1 in Hlt. cbn in Hlt. lia.
Qed.

Lemma atl06_loop_accounting_witness :
  let st := extract_signs_from_atl06
              [mk_page_input PdfText.scenario_page true;
               mk_page_input TextLayer.flat_page true] in
  total_signs st = Z.of_nat (length (all_signs st))
  /\ count_signs (page_results st) <= total_signs st
  /\ StronglySorted Z.lt (pages_with_signs st)
  /\ (forall k : Z,
        k ∈ pages_with_signs st
        <-> exists i : nat,
              has_signs [mk_page_input PdfText.scenario_page true;
                         mk_page_input TextLayer.flat_page true] i
              /\ k = Z.of_nat i + 1)
  /\ Forall (fun pr => signs_detected pr = Z.of_nat (length (signs pr))
                       /\ signs pr <> []
                       /\ page_number pr ∈ pages_with_signs st)
            (page_results st).
Proof.
  exact (atl06_loop_accounting
           [mk_page_input PdfText.scenario_page true;
            mk_page_input TextLayer.flat_page true]).
Defined.

End Atl06DocFacts.

(** ** Comparison of several PDFs *)

Module CompareFacts.

Import Compare.

Lemma str_le_total : Total str_le.
Proof. intros a b. apply String.leb_total. Qed.

Lemma elem_of_sorted (s : gset string) (n : string) : n ∈ sorted s <-> n ∈ s.
Proof.
  unfold sorted. rewrite merge_sort_Permutation. apply elem_of_elements.
Qed.

Lemma NoDup_sorted (s : gset string) : NoDup (sorted s).
Proof.
  unfold sorted. rewrite merge_sort_Permutation. apply NoDup_elements.
Qed.

Lemma Sorted_sorted (s : gset string) : Sorted str_le (sorted s).
Proof. unfold sorted. apply (Sorted_merge_sort _ (Total0 := str_le_total)). Qed.

Lemma length_sorted (s : gset string) : length (sorted s) = size s.
Proof.
  unfold sorted. rewrite merge_sort_Permutation. reflexivity.
Qed.

Lemma elem_of_common (others : sign_sets) :
  forall (s0 : gset string) (n : string),
    n ∈ foldl (fun common kv => common ∩ kv.2) s0 others
    <-> n ∈ s0 /\ forall kv, kv ∈ others -> n ∈ kv.2.
Proof.
  induction others as [|kv others IH]; intros s0 n; cbn [foldl].
  - split; [intros H; split; [exact H|]; intros kv Hkv; inversion Hkv|].
    now intros [H _].
  - rewrite IH, elem_of_intersection. split.
    + intros [[H0 Hkv] Hrest]. split; [exact H0|].
      intros kv' Hin. apply elem_of_cons in Hin as [->|Hin]; auto.
    + intros [H0 Hall]. split; [split; [exact H0|]|].
      * apply Hall, list_elem_of_here.
      * intros kv' Hin. apply Hall. now apply list_elem_of_further.
Qed.

Lemma elem_of_unique_to (all_signs : sign_sets) (pdf_id : string) :
  forall (own : gset string) (n : string),
    n ∈ unique_to all_signs pdf_id own
    <-> n ∈ own
        /\ forall kv, kv ∈ all_signs -> kv.1 <> pdf_id -> n ∉ kv.2.
Proof.
  unfold unique_to.
  induction all_signs as [|kv rest IH]; intros own n; cbn [foldl].
  - split; [intros H; split; [exact H|]; intros kv Hkv; inversion Hkv|].
    now intros [H _].
  - rewrite IH. destruct (String.eqb_spec kv.1 pdf_id) as [E|E]; cbn [negb].
    + split.
      * intros [H0 Hrest]. split; [exact H0|].
        intros kv' Hin Hne. apply elem_of_cons in Hin as [->|Hin];
          [contradiction | now apply Hrest].
      * intros [H0 Hall]. split; [exact H0|].
        intros kv' Hin. apply Hall. now apply list_elem_of_further.
    + rewrite elem_of_difference. split.
      * intros [[H0 Hkv] Hrest]. split; [exact H0|].
        intros kv' Hin Hne. apply elem_of_cons in Hin as [->|Hin];
          [exact Hkv | now apply Hrest].
      * intros [H0 Hall]. split; [split; [exact H0|]|].
        -- apply Hall; [apply list_elem_of_here | exact E].
        -- intros kv' Hin. apply Hall. now apply list_elem_of_further.
Qed.

(** X17. With at least two processed PDFs the comparison is made: the
    common signs are the labels found in every PDF, the unique signs of a
    PDF are its labels found in no PDF of another id, one entry per PDF in
    order; each list is sorted and free of repeats, and the common count
    is the length of the common list. *)
Theorem comparison_sets (all_signs : sign_sets)
  (Hlen : (2 <= length all_signs)%nat) :
  exists c : comparison,
    compare all_signs = Some c
    /\ (forall n, n ∈ common_signs c
                  <-> forall kv, kv ∈ all_signs -> n ∈ kv.2)
    /\ Sorted str_le (common_signs c)
    /\ NoDup (common_signs c)
    /\ common_count c = length (common_signs c)
    /\ map fst (unique_signs c) = map fst all_signs
    /\ Forall2 (fun kv u =>
                  u.1 = kv.1
                  /\ Sorted str_le u.2 /\ NoDup u.2
                  /\ forall n, n ∈ u.2
                               <-> n ∈ kv.2
                                   /\ forall kv', kv' ∈ all_signs ->
                                                  kv'.1 <> kv.1 -> n ∉ kv'.2)
               all_signs (unique_signs c).
Proof.
  assert (Hrun : exists first others,
             all_signs = first :: others
             /\ compare all_signs
                = Some (mk_comparison
                          (sorted (foldl (fun common kv => common ∩ kv.2)
                                         first.2 others))
                          (size (foldl (fun common kv => common ∩ kv.2)
                                       first.2 others))
                          (map (fun kv =>
                                  (kv.1,
                                   sorted (unique_to all_signs kv.1 kv.2)))
                               all_signs)
                          (map (fun kv =>
                                  (kv.1,
                                   (size kv.2,
                                    length
                                      (sorted
                                         (unique_to all_signs kv.1 kv.2)))))
                               all_signs))).
  { unfold compare. destruct (Nat.leb_spec 2 (length all_signs)); [|lia].
    destruct all_signs as [|first others]; [cbn in Hlen; lia|].
    now exists first, others. }
  destruct Hrun as (first & others & Eall & ->).
  eexists. split; [reflexivity|].
  cbn [common_signs common_count unique_signs].
  split.
  { intros n. rewrite elem_of_sorted, elem_of_common, Eall. split.
    - intros [H0 Hall] kv Hin.
      apply elem_of_cons in Hin as [->|Hin]; auto.
    - intros Hall. split; [apply Hall, list_elem_of_here|].
      intros kv Hin. apply Hall. now apply list_elem_of_further. }
  split; [apply Sorted_sorted|]. split; [apply NoDup_sorted|].
  split; [now rewrite length_sorted|].
  split; [now rewrite map_map|].
  apply Forall2_fmap_r, Forall_Forall2_diag, Forall_forall.
  intros kv _. split; [reflexivity|].
  split; [apply Sorted_sorted|]. split; [apply NoDup_sorted|].
  intros n.
  change ((kv.1, sorted (unique_to all_signs kv.1 kv.2)).2)
    with (sorted (unique_to all_signs kv.1 kv.2)).
  rewrite elem_of_sorted. apply elem_of_unique_to.
Qed.

Lemma comparison_sets_witness :
  exists c : comparison,
    compare sample_sets = Some c
    /\ (forall n, n ∈ common_signs c
                  <-> forall kv, kv ∈ sample_sets -> n ∈ kv.2)
    /\ Sorted str_le (common_signs c)
    /\ NoDup (common_signs c)
    /\ common_count c = length (common_signs c)
    /\ map fst (unique_signs c) = map fst sample_sets
    /\ Forall2 (fun kv u =>
                  u.1 = kv.1
                  /\ Sorted str_le u.2 /\ NoDup u.2
                  /\ forall n, n ∈ u.2
                               <-> n ∈ kv.2
                                   /\ forall kv', kv' ∈ sample_sets ->
                                                  kv'.1 <> kv.1 -> n ∉ kv'.2)
               sample_sets (unique_signs c).
Proof.
  apply (comparison_sets sample_sets). cbn. lia.
Defined.

Lemma compare_some (all_signs : sign_sets) :
  (2 <= length all_signs)%nat ->
  exists common : gset string,
    (forall n, n ∈ common <-> forall kv, kv ∈ all_signs -> n ∈ kv.2)
    /\ compare all_signs
       = Some (mk_comparison (sorted common) (size common)
                 (map (fun kv =>
                         (kv.1, sorted (unique_to all_signs kv.1 kv.2)))
                      all_signs)
                 (map (fun kv =>
                         (kv.1,
                          (size kv.2,
                           length (sorted (unique_to all_signs kv.1 kv.2)))))
                      all_signs)).
Proof.
  intros Hlen. unfold compare.
  destruct (Nat.leb_spec 2 (length all_signs)); [|lia].
  destruct all_signs as [|first others] eqn:Eall; [cbn in Hlen; lia|].
  eexists. split; [|reflexivity].
  intros n. rewrite elem_of_common. split.
  - intros [H0 Hall] kv Hin.
    apply elem_of_cons in Hin as [->|Hin]; auto.
  - intros Hall. split; [apply Hall, list_elem_of_here|].
    intros kv Hin. apply Hall. now apply list_elem_of_further.
Qed.

Lemma another_pdf (all_signs : sign_sets) (kv : string * gset string) :
  NoDup (map fst all_signs) -> (2 <= length all_signs)%nat ->
  exists kv', kv' ∈ all_signs /\ kv'.1 <> kv.1.
Proof.
  intros Hnd Hlen.
  destruct all_signs as [|a [|b rest]]; cbn in Hlen; try lia.
  cbn [map] in Hnd. apply NoDup_cons in Hnd as [Hab _].
  destruct (decide (a.1 = kv.1)) as [E|E].
  - exists b. split; [apply list_elem_of_further, list_elem_of_here|].
    intros Hb. apply Hab. rewrite E, <- Hb. apply list_elem_of_here.
  - exists a. split; [apply list_elem_of_here | exact E].
Qed.

(** X18. With at least two processed PDFs of distinct ids, the summary
    has one entry per PDF, in order, holding its number of distinct labels
    and its number of unique labels; the common count and the unique
    number of a PDF add up to at most its total, and to exactly its total
    when there are two PDFs. *)
Theorem summary_counts_add_up (all_signs : sign_sets)
  (Hkeys : NoDup (map fst all_signs))
  (Hlen : (2 <= length all_signs)%nat) :
  exists c : comparison,
    compare all_signs = Some c
    /\ Forall2 (fun kv sm =>
                  sm.1 = kv.1
                  /\ sm.2.1 = size kv.2
                  /\ (common_count c + sm.2.2 <= sm.2.1)%nat
                  /\ (length all_signs = 2%nat ->
                      (common_count c + sm.2.2)%nat = sm.2.1))
               all_signs (summary c).
Proof.
  destruct (compare_some all_signs Hlen) as (common & Hcommon & ->).
  eexists. split; [reflexivity|]. cbn [summary common_count].
  apply Forall2_fmap_r, Forall_Forall2_diag, Forall_forall.
  intros kv Hkv.
  unfold compose. cbn [fst snd].
  rewrite length_sorted.
  set (unique := unique_to all_signs kv.1 kv.2).
  assert (Hunique : forall n, n ∈ unique
                              <-> n ∈ kv.2
                                  /\ forall kv', kv' ∈ all_signs ->
                                                 kv'.1 <> kv.1 -> n ∉ kv'.2)
    by (intros n; apply elem_of_unique_to).
  assert (Hdisj : common ## unique).
  { intros n Hc Hu. pose proof (proj1 (Hcommon n) Hc) as Hc'.
    destruct (proj1 (Hunique n) Hu) as [_ Hu'].
    destruct (another_pdf all_signs kv Hkeys Hlen) as (kv' & Hin & Hne).
    exact (Hu' kv' Hin Hne (Hc' kv' Hin)). }
  assert (Hsub : common ∪ unique ⊆ kv.2).
  { intros n Hn. apply elem_of_union in Hn as [Hn|Hn].
    - exact (proj1 (Hcommon n) Hn kv Hkv).
    - exact (proj1 (proj1 (Hunique n) Hn)). }
  split; [reflexivity|]. split; [reflexivity|]. split.
  - rewrite <- (size_union _ _ Hdisj). now apply subseteq_size.
  - intros Htwo. rewrite <- (size_union _ _ Hdisj). f_equal.
    apply set_eq. intros n. split; [apply Hsub|]. intros Hn.
    destruct all_signs as [|a [|b [|? ?]]]; try discriminate.
    assert (Hab : a.1 <> b.1).
    { cbn [map] in Hkeys. apply NoDup_cons in Hkeys as [Hab _].
      intros E. apply Hab. rewrite E. apply list_elem_of_here. }
    apply elem_of_union.
    apply elem_of_cons in Hkv as [->|Hkv];
      [|apply list_elem_of_singleton in Hkv; subst kv].
    + destruct (decide (n ∈ b.2)) as [Hb|Hb].
      * left. apply (proj2 (Hcommon n)). intros kv' Hin.
        apply elem_of_cons in Hin as [->|Hin]; [exact Hn|].
        apply list_elem_of_singleton in Hin. now subst kv'.
      * right. apply (proj2 (Hunique n)). split; [exact Hn|].
        intros kv' Hin Hne.
        apply elem_of_cons in Hin as [->|Hin]; [contradiction|].
        apply list_elem_of_singleton in Hin. now subst kv'.
    + destruct (decide (n ∈ a.2)) as [Ha|Ha].
      * left. apply (proj2 (Hcommon n)). intros kv' Hin.
        apply elem_of_cons in Hin as [->|Hin]; [exact Ha|].
        apply list_elem_of_singleton in Hin. now subst kv'.
      * right. apply (proj2 (Hunique n)). split; [exact Hn|].
        intros kv' Hin Hne.
        apply elem_of_cons in Hin as [->|Hin]; [exact Ha|].
        apply list_elem_of_singleton in Hin. now subst kv'.
Qed.

Lemma summary_counts_add_up_witness :
  exists c : comparison,
    compare sample_sets = Some c
    /\ Forall2 (fun kv sm =>
                  sm.1 = kv.1
                  /\ sm.2.1 = size kv.2
                  /\ (common_count c + sm.2.2 <= sm.2.1)%nat
                  /\ (length sample_sets = 2%nat ->
                      (common_count c + sm.2.2)%nat = sm.2.1))
               sample_sets (summary c).
Proof.
  apply (summary_counts_add_up sample_sets); [|cbn; lia].
  cbn. repeat constructor; set_solver.
Defined.

End CompareFacts.

(** ** The loop over the configured PDFs *)

Module AllPdfsFacts.

Import Compare AllPdfs.

Lemma extract_signs_from_pdf_some (name : string) (doc : list PdfText.page) :
  Forall (fun pg => ~ (PdfText.page_width pg == 0)%Q
                    /\ ~ (PdfText.page_height pg == 0)%Q) doc ->
  exists res, PdfDoc.extract_signs_from_pdf name doc = Some res.
Proof.
  intros Hdims.
  destruct (PdfDocFacts.extract_pages_run doc Hdims 0
              (PdfDoc.mk_all_results name 0 [])) as (res & new & Hrun & _).
  change (Z.of_nat 0 + 1) with 1 in Hrun.
  unfold PdfDoc.extract_signs_from_pdf. rewrite Hrun. cbn. eauto.
Qed.

Lemma sum_totals_snoc (es : list pdf_entry) (e : pdf_entry) :
  sum_totals (es ++ [e]) = sum_totals es + total_signs e.
Proof.
  unfold sum_totals. induction es as [|e0 es IH]; cbn; [lia|].
  cbn in IH. rewrite IH. lia.
Qed.

Lemma dict_set_fresh (d : sign_sets) (k : string) (v : gset string) :
  k ∉ map fst d -> dict_set d k v = d ++ [(k, v)].
Proof.
  intros Hk. unfold dict_set.
  destruct (existsb (fun kv => String.eqb kv.1 k) d) eqn:E; [|reflexivity].
  apply existsb_exists in E as (kv & Hin & Heq).
  apply String.eqb_eq in Heq. exfalso. apply Hk. rewrite <- Heq.
  apply list_elem_of_In, in_map, Hin.
Qed.

Lemma process_pdfs_run (configs : list pdf_config) :
  Forall readable configs ->
  NoDup (map pdf_id configs) ->
  forall st : state,
    (forall cfg, cfg ∈ configs -> pdf_id cfg ∉ map fst (all_signs st)) ->
    exists entries : list pdf_entry,
      process_pdfs configs st
      = inr (mk_state (combined_pdfs st ++ entries)
               (combined_total st + sum_totals entries)
               (all_signs st
                ++ map (fun e => (entry_pdf_id e, labels_of (results e)))
                       entries)
               (output_dir_bound st
                || existsb on_disk configs))
      /\ Forall2 entry_of (List.filter on_disk configs) entries.
Proof.
  induction 1 as [|cfg rest Hcfg Hrest IH]; intros Hnd st Hfresh.
  - exists []. cbn. rewrite !app_nil_r, orb_false_r, Z.add_0_r.
    split; [now destruct st | constructor].
  - cbn [map] in Hnd. apply NoDup_cons in Hnd as [Hhead Hnd].
    cbn [process_pdfs List.filter existsb].
    destruct (on_disk cfg) eqn:Edisk; cbn [negb orb].
    + destruct (extract_signs_from_pdf_some (file_name cfg) (document cfg)
                  (Hcfg Edisk)) as [res Hres].
      rewrite Hres.
      rewrite dict_set_fresh by (apply Hfresh, list_elem_of_here).
      match goal with
      | |- context [process_pdfs rest ?s] =>
          destruct (IH Hnd s) as (entries & Hrun & Hent)
      end.
      { intros cfg' Hin. cbn [all_signs]. rewrite map_app. cbn [map fst].
        intros Hk. apply elem_of_app in Hk as [Hk|Hk].
        - exact (Hfresh cfg' (list_elem_of_further _ _ _ Hin) Hk).
        - apply list_elem_of_singleton in Hk. apply Hhead. rewrite <- Hk.
          apply list_elem_of_In, in_map, list_elem_of_In, Hin. }
      rewrite Hrun.
      cbn [combined_pdfs combined_total all_signs output_dir_bound].
      eexists (_ :: entries). split.
      * rewrite <- !app_assoc. cbn [app map]. rewrite orb_true_r.
        cbn [orb entry_pdf_id results].
        f_equal. f_equal.
        change (?e :: entries) with ([e] ++ entries).
        unfold sum_totals. cbn. lia.
      * constructor; [|exact Hent]. now repeat split.
    + apply (IH Hnd st). intros cfg' Hin.
      apply Hfresh. now apply list_elem_of_further.
Qed.

(** X19. For configured PDFs of distinct ids whose documents on disk have
    pages of non-zero dimensions: when no configured file exists the
    function fails on the unassigned output directory; otherwise it
    returns one entry per existing file, in order, holding the results and
    the total of [extract_signs_from_pdf] for its document, the grand total
    being the sum of the entries' totals, and the comparison being the one
    of the label sets of the entries, present exactly when at least two
    files exist. *)
Theorem extract_all_pdfs_outcome (configs : list pdf_config)
  (Hread : Forall readable configs)
  (Hids : NoDup (map pdf_id configs)) :
  (existsb on_disk configs = false ->
   extract_all_pdfs configs = inl UnboundLocalError)
  /\ (existsb on_disk configs = true ->
      exists res : combined_results,
        extract_all_pdfs configs = inr res
        /\ Forall2 entry_of (List.filter on_disk configs) (pdfs res)
        /\ total_signs_all_pdfs res = sum_totals (pdfs res)
        /\ comparison res
           = compare (map (fun e => (entry_pdf_id e, labels_of (results e)))
                          (pdfs res))
        /\ (is_Some (comparison res) <-> (2 <= length (pdfs res))%nat)).
Proof.
  destruct (process_pdfs_run configs Hread Hids (mk_state [] 0 [] false))
    as (entries & Hrun & Hent).
  { intros cfg _ Hin. inversion Hin. }
  cbn [combined_pdfs combined_total all_signs output_dir_bound app orb]
    in Hrun.
  unfold extract_all_pdfs. rewrite Hrun.
  cbn [output_dir_bound combined_pdfs combined_total all_signs].
  split; intros Hdisk; rewrite Hdisk; [reflexivity|].
  eexists. split; [reflexivity|].
  cbn [pdfs total_signs_all_pdfs comparison].
  split; [exact Hent|]. split; [lia|]. split; [reflexivity|].
  unfold compare. rewrite length_map.
  destruct (Nat.leb_spec 2 (length entries)) as [Hlen|Hlen].
  - destruct entries as [|e es]; [cbn in Hlen; lia|].
    cbn [map]. split; [intros _; exact Hlen | eauto].
  - split; [intros [? [=]] | lia].
Qed.

Lemma extract_all_pdfs_outcome_witness :
  (existsb on_disk sample_configs = false ->
   extract_all_pdfs sample_configs = inl UnboundLocalError)
  /\ (existsb on_disk sample_configs = true ->
      exists res : combined_results,
        extract_all_pdfs sample_configs = inr res
        /\ Forall2 entry_of (List.filter on_disk sample_configs) (pdfs res)
        /\ total_signs_all_pdfs res = sum_totals (pdfs res)
        /\ comparison res
           = compare (map (fun e => (entry_pdf_id e, labels_of (results e)))
                          (pdfs res))
        /\ (is_Some (comparison res) <-> (2 <= length (pdfs res))%nat)).
Proof.
  apply (extract_all_pdfs_outcome sample_configs).
  - repeat constructor; vm_compute; discriminate.
  - cbn. repeat constructor; set_solver.
Defined.

End AllPdfsFacts.

(** ** The label pattern ([SIGN_PATTERN]) *)

Module PatternFacts.

Import PyStr PyStrFacts PdfText PdfTextFacts.

Local Open Scope string_scope.

Lemma chomp_snoc (s : string) : chomp (s ++ String newline "") = s.
Proof.
  induction s as [|c s IH]; [reflexivity|].
  change (String c s ++ String newline "")
    with (String c (s ++ String newline "")).
  destruct (s ++ String newline "") as [|a r] eqn:E.
  - destruct s; discriminate.
  - change (chomp (String c (String a r)))
      with (String c (chomp (String a r))).
    now rewrite IH.
Qed.

Lemma chomp_cases (s : string) :
  s = chomp s \/ s = chomp s ++ String newline "".
Proof.
  induction s as [|c s IH]; [now left|].
  cbn [chomp]. destruct s as [|c' s'].
  - destruct (Ascii.eqb_spec c newline) as [->|]; [now right | now left].
  - destruct IH as [IH|IH]; [left | right]; [|change (String c (chomp (String c' s')) ++ String newline "") with (String c (chomp (String c' s') ++ String newline ""))]; now f_equal.
Qed.

Lemma chomp_all_char (p : ascii -> bool) (s : string) :
  p newline = false -> all_char p s = true -> chomp s = s.
Proof.
  intros Hp. induction s as [|c s IH]; [reflexivity|].
  cbn [all_char chomp]. intros H. apply andb_true_iff in H as [Hc Hs].
  destruct s as [|c' s'].
  - destruct (Ascii.eqb_spec c newline) as [->|]; [congruence | reflexivity].
  - now rewrite IH.
Qed.

Lemma pattern_fullmatch (s : string) : label_pattern s -> fullmatch s = true.
Proof.
  intros [a b c d Ha Hb Hc Hd|a b c d frac Ha Hb Hc Hd Hne Hall];
    cbn [fullmatch]; rewrite Ha, Hb, Hc, Hd; [reflexivity|].
  rewrite Ascii.eqb_refl, Hall. now destruct frac.
Qed.

Lemma pattern_chomp (s : string) : label_pattern s -> chomp s = s.
Proof.
  intros [a b c d Ha Hb Hc Hd|a b c d frac Ha Hb Hc Hd Hne Hall].
  - apply (chomp_all_char is_decimal); [reflexivity|].
    cbn [all_char]. now rewrite Ha, Hb, Hc, Hd.
  - destruct frac as [|f frac]; [contradiction|].
    change (chomp (String a (String b (String c (String d
              (String dot (String f frac)))))))
      with (String a (String b (String c (String d
              (String dot (chomp (String f frac))))))).
    do 5 f_equal. now apply (chomp_all_char is_decimal).
Qed.

Lemma rstrip_by_not_snoc (p : ascii -> bool) (s n : string) (c : ascii) :
  p c = true -> rstrip_by p s <> n ++ String c "".
Proof.
  intros Hc. revert n. induction s as [|a s IH]; intros n; cbn [rstrip_by].
  - destruct n; discriminate.
  - destruct (rstrip_by p s) as [|b r] eqn:E.
    + destruct (p a) eqn:Ea; [destruct n; discriminate|].
      destruct n as [|x n]; cbn [String.append].
      * intros [= ->]. congruence.
      * intros [= _ H]. destruct n; discriminate.
    + destruct n as [|x n]; cbn [String.append].
      * discriminate.
      * intros [= _ H]. exact (IH n H).
Qed.

(** X20. The label pattern accepts a text exactly when the text is four
    decimal digits, optionally followed by a period and one or more decimal
    digits, possibly with one final newline, and the label it yields is the
    text without that newline; on a trimmed text, as both walks of the
    extractor apply it, it accepts exactly the texts of that shape and
    yields the text itself. *)
Theorem pattern_accepts_exactly_the_label_shape (s n : string) :
  (SIGN_PATTERN_match s = Some n
   <-> label_pattern n /\ (s = n \/ s = n ++ String newline ""))
  /\ (SIGN_PATTERN_match (py_strip s) = Some n
      <-> label_pattern n /\ py_strip s = n).
Proof.
  assert (Hgen : forall s n,
             SIGN_PATTERN_match s = Some n
             <-> label_pattern n /\ (s = n \/ s = n ++ String newline "")).
  { clear s n. intros s n. unfold SIGN_PATTERN_match. split.
    - destruct (fullmatch (chomp s)) eqn:E; [|discriminate].
      intros [= <-]. split; [now apply fullmatch_pattern | apply chomp_cases].
    - intros [Hn [->| ->]].
      + rewrite (pattern_chomp n Hn), (pattern_fullmatch n Hn). reflexivity.
      + rewrite chomp_snoc, (pattern_fullmatch n Hn). reflexivity. }
  split; [apply Hgen|].
  rewrite Hgen. split.
  - intros [Hn [E|E]]; [now split|].
    exfalso. unfold py_strip in E.
    now apply (rstrip_by_not_snoc is_space _ n newline) in E.
  - intros [Hn E]. split; [exact Hn | now left].
Qed.

End PatternFacts.

(** ** The engine invocations of the OCR ensemble *)

Module CallsFacts.

Import PyStr Ocr OcrFacts Calls.

Local Open Scope py_scope.

(** Below [2 ^ 53] the multiples of thirty are floats, so a rounded sum of
    entries that are at most thirty stays below the exact bound. *)
Lemma sum_at_most_30 (l : list Q) :
  Forall (fun q => (q <= 30)%Q) l ->
  forall (a : Q) (k : Z),
    0 <= k -> 30 * (k + Z.of_nat (length l)) < 2 ^ 53 ->
    (a <= inject_Z (30 * k))%Q ->
    (foldl fadd a l <= inject_Z (30 * (k + Z.of_nat (length l))))%Q.
Proof.
  induction 1 as [|q l Hq Hl IH]; intros a k Hk Hb Ha;
    cbn [foldl length] in *.
  - now rewrite Z.add_0_r.
  - rewrite Nat2Z.inj_succ in *.
    replace (k + Z.succ (Z.of_nat (length l)))
      with ((k + 1) + Z.of_nat (length l)) in * by lia.
    apply IH; [lia | exact Hb |].
    unfold fadd. apply fl_le_int; [lia|].
    replace (30 * (k + 1)) with (30 * k + 30) by lia.
    rewrite inject_Z_plus. change (inject_Z 30) with 30%Q. lra.
Qed.

Lemma average_at_most_30 (l : list Q) :
  Z.of_nat (length l) <= 2 ^ 48 ->
  Forall (fun q => (q <= 30)%Q) l -> (average l <= 30)%Q.
Proof.
  intros Hlen Hl. unfold average. destruct l as [|q l]; [lra|].
  set (n := Z.of_nat (length (q :: l))) in *.
  assert (Hn : 1 <= n) by (unfold n; cbn [length]; lia).
  pose proof (sum_at_most_30 (q :: l) Hl 0 0 (Z.le_refl 0)) as Hsum.
  fold n in Hsum. fold (py_sum (q :: l)) in Hsum.
  assert (Hs : (py_sum (q :: l) <= inject_Z (30 * n))%Q).
  { apply Hsum; [lia|]. change (inject_Z (30 * 0)) with 0%Q. lra. }
  rewrite inject_Z_mult in Hs. change (inject_Z 30) with 30%Q in Hs.
  assert (En : (of_int n == inject_Z n)%Q) by (apply fl_int; lia).
  assert (Hpos : (0 < inject_Z n)%Q).
  { change 0%Q with (inject_Z 0). rewrite <- Zlt_Qlt. lia. }
  unfold fdiv. change 30%Q with (inject_Z 30).
  apply fl_le_int; [lia|]. change (inject_Z 30) with 30%Q.
  apply Qle_shift_div_r; lra.
Qed.

Lemma above_30_somewhere (l : list Q) :
  Z.of_nat (length l) <= 2 ^ 48 ->
  (30 < average l)%Q -> exists q, q ∈ l /\ (30 < q)%Q.
Proof.
  intros Hlen Havg.
  assert (Hdec : Forall (fun q => (q <= 30)%Q) l
                 \/ exists q, q ∈ l /\ (30 < q)%Q).
  { clear. induction l as [|q l [IH|(q' & Hin & Hq')]].
    - left. constructor.
    - destruct (Qlt_le_dec 30 q) as [Hq|Hq].
      + right. exists q. split; [apply list_elem_of_here | exact Hq].
      + left. now constructor.
    - right. exists q'. split; [now apply list_elem_of_further | exact Hq']. }
  destruct Hdec as [Hall|Hex]; [|exact Hex].
  apply average_at_most_30 in Hall; [lra | exact Hlen].
Qed.

Section Engine.

Variable image_to_string : box -> preprocess -> Z -> exn + string.
Variable image_to_data : box -> preprocess -> Z -> exn + list conf_value.
Variable py_float : string -> option Q.

Local Abbreviation candidate :=
  (Ocr.candidate image_to_string image_to_data py_float).
Local Abbreviation survivors :=
  (Ocr.survivors image_to_string image_to_data py_float).
Local Abbreviation calls_of := (Ocr.calls_of image_to_string).

Lemma confidences_of_elem (data : list conf_value) :
  forall (cs : list Q) (q : Q),
    confidences_of py_float data = inr cs -> q ∈ cs ->
    exists c, c ∈ data /\ not_minus_one c = true
              /\ to_float py_float c = inr q.
Proof.
  induction data as [|c data IH]; intros cs q; cbn [confidences_of].
  - intros [= <-] Hq. inversion Hq.
  - destruct (not_minus_one c) eqn:Ec.
    + destruct (to_float py_float c) as [|q0] eqn:Ef; [discriminate|].
      destruct (confidences_of py_float data) as [|qs] eqn:Ed; [discriminate|].
      intros [= <-] Hq. apply elem_of_cons in Hq as [->|Hq].
      * exists c. split; [apply list_elem_of_here | now split].
      * destruct (IH qs q eq_refl Hq) as (c' & Hin & H').
        exists c'. split; [now apply list_elem_of_further | exact H'].
    + intros Hcs Hq. destruct (IH cs q Hcs Hq) as (c' & Hin & H').
      exists c'. split; [now apply list_elem_of_further | exact H'].
Qed.

Lemma length_confidences_of (data : list conf_value) :
  forall cs : list Q,
    confidences_of py_float data = inr cs -> (length cs <= length data)%nat.
Proof.
  induction data as [|c data IH]; intros cs; cbn [confidences_of].
  - intros [= <-]. reflexivity.
  - destruct (not_minus_one c).
    + destruct (to_float py_float c) as [|q0]; [discriminate|].
      destruct (confidences_of py_float data) as [|qs]; [discriminate|].
      intros [= <-]. specialize (IH qs eq_refl). cbn [length]. lia.
    + intros Hcs. specialize (IH cs Hcs). cbn [length]. lia.
Qed.

(** X21. A reading [extract_sign_number] returns stems from one of the
    combinations: its text is the engine's text for its own preprocessing
    and layout mode, trimmed of whitespace and periods, and the confidence
    data of that combination, when it has at most [2 ^ 48] entries, holds
    an entry other than '-1' whose value exceeds thirty.  (The mean is a
    float: over longer data the rounding of the sum could lift it above
    every entry.) *)
Theorem returned_reading_has_a_confident_word (b : box) (s s' : state)
  (r : ocr_result)
  (Hrun : extract_sign_number image_to_string image_to_data py_float b s
          = (inr (Some r), s'))
  (Hlen : forall data : list conf_value,
      image_to_data b (preprocess_name r) (psm r) = inr data ->
      Z.of_nat (length data) <= 2 ^ 48) :
  (exists raw : string,
      image_to_string b (preprocess_name r) (psm r) = inr raw
      /\ text r = trimmed raw)
  /\ (exists (data : list conf_value) (c : conf_value) (q : Q),
        image_to_data b (preprocess_name r) (psm r) = inr data
        /\ c ∈ data /\ not_minus_one c = true
        /\ to_float py_float c = inr q /\ (30 < q)%Q).
Proof.
  rewrite extract_sign_number_run in Hrun. injection Hrun as Hr _.
  assert (Hin : r ∈ survivors b).
  { unfold choose in Hr. destruct (survivors b) as [|r0 rs]; [discriminate|].
    injection Hr as <-. apply py_max_from_in. }
  unfold Ocr.survivors in Hin.
  apply list_elem_of_omap in Hin as ([img m] & _ & Hc). cbn [fst snd] in Hc.
  apply candidate_spec in Hc
    as (raw & c0 & Hraw & _ & _ & _ & Hscored & Hc0 & ->).
  cbn [preprocess_name psm text] in *. split; [now exists raw|].
  unfold Ocr.scored in Hscored.
  destruct (image_to_data b img m) as [|data]; [discriminate|].
  destruct (confidences_of py_float data) as [|cs] eqn:Ecs; [discriminate|].
  injection Hscored as <-.
  assert (Hcs : Z.of_nat (length cs) <= 2 ^ 48).
  { pose proof (length_confidences_of data cs Ecs).
    specialize (Hlen data eq_refl). lia. }
  destruct (above_30_somewhere cs Hcs Hc0) as (q & Hq & Hq30).
  destruct (confidences_of_elem data cs q Ecs Hq) as (c & Hin & Hnm & Hf).
  now exists data, c, q.
Qed.

Lemma length_calls_of (b : box) (c : preprocess * Z) :
  length (calls_of b c)
  = if reads_acceptably image_to_string b c then 2%nat else 1%nat.
Proof.
  unfold Ocr.calls_of, reads_acceptably.
  destruct (image_to_string b c.1 c.2) as [|raw]; [reflexivity|].
  now destruct (acceptable (trimmed raw)).
Qed.

Lemma length_calls (b : box) (l : list (preprocess * Z)) :
  length (flat_map (calls_of b) l)
  = (length l + length (List.filter (reads_acceptably image_to_string b) l))%nat.
Proof.
  induction l as [|c l IH]; [reflexivity|].
  cbn [flat_map List.filter]. rewrite length_app, length_calls_of, IH.
  destruct (reads_acceptably image_to_string b c); cbn [length]; lia.
Qed.

Lemma calls_for_bounds (b : box) :
  (8 <= calls_for image_to_string b <= 16)%nat.
Proof.
  unfold calls_for.
  pose proof (List.filter_length_le (reads_acceptably image_to_string b)
                combinations) as H.
  change (length combinations) with 8%nat in H. lia.
Qed.

(** X22. For one box, [extract_sign_number] invokes the engine once per
    combination for the text and once more for the confidence data of each
    combination whose text passes the acceptance test: between eight and
    sixteen invocations; [process_image] makes the invocations of all its
    boxes, so between eight and sixteen times the number of boxes. *)
Theorem engine_invocations_per_box (W H : Z) (boxes : list box) (s : state)
  (HW : W <> 0) (HH : H <> 0) :
  (forall (b : box) (s0 : state),
      exists (v : option ocr_result) (s1 : state) (t : list call),
        extract_sign_number image_to_string image_to_data py_float b s0
        = (inr v, s1)
        /\ trace s1 = trace s0 ++ t
        /\ length t = calls_for image_to_string b
        /\ (8 <= length t <= 16)%nat)
  /\ (exists (r : list SignDetection * list box) (s' : state)
             (t : list call),
        process_image image_to_string image_to_data py_float W H boxes s
        = (inr r, s')
        /\ trace s' = trace s ++ t
        /\ length t
           = foldr Nat.add 0%nat (map (calls_for image_to_string) boxes)
        /\ (8 * length boxes <= length t <= 16 * length boxes)%nat).
Proof.
  split.
  - intros b s0. eexists _, _, _.
    split; [apply extract_sign_number_run|].
    split; [reflexivity|].
    assert (E : length (flat_map (calls_of b) combinations)
                = calls_for image_to_string b).
    { rewrite length_calls. reflexivity. }
    split; [exact E|]. rewrite E. apply calls_for_bounds.
  - destruct (process_boxes_run image_to_string image_to_data py_float
                W H boxes HW HH [] s) as [rs Hrs].
    eexists _, _, _. unfold process_image, bind. rewrite Hrs.
    split; [reflexivity|]. split; [reflexivity|].
    assert (E : length (flat_map (fun b => flat_map (calls_of b) combinations)
                          boxes)
                = foldr Nat.add 0%nat (map (calls_for image_to_string) boxes)).
    { clear Hrs. induction boxes as [|b rest IH]; [reflexivity|].
      cbn [flat_map map foldr]. rewrite length_app, IH, length_calls.
      reflexivity. }
    split; [exact E|]. rewrite E. clear.
    induction boxes as [|b rest IH]; cbn [map foldr length]; [lia|].
    pose proof (calls_for_bounds b). lia.
Qed.

End Engine.

Lemma returned_reading_has_a_confident_word_witness :
  (exists raw : string,
      sample_image_to_string (100, 100, 30, 40)
        (preprocess_name (mk_result "2001" 90 8 otsu_inv))
        (psm (mk_result "2001" 90 8 otsu_inv)) = inr raw
      /\ text (mk_result "2001" 90 8 otsu_inv) = trimmed raw)
  /\ (exists (data : list conf_value) (c : conf_value) (q : Q),
        sample_image_to_data (100, 100, 30, 40)
          (preprocess_name (mk_result "2001" 90 8 otsu_inv))
          (psm (mk_result "2001" 90 8 otsu_inv)) = inr data
        /\ c ∈ data /\ not_minus_one c = true
        /\ to_float sample_float c = inr q /\ (30 < q)%Q).
Proof.
  apply (returned_reading_has_a_confident_word sample_image_to_string
           sample_image_to_data sample_float (100, 100, 30, 40)
           (mk_state [] [])
           (snd (extract_sign_number sample_image_to_string
                   sample_image_to_data sample_float (100, 100, 30, 40)
                   (mk_state [] [])))).
  - vm_compute. reflexivity.
  - intros data [= <-]. cbn. lia.
Defined.

Lemma engine_invocations_per_box_witness :
  (forall (b : box) (s0 : state),
      exists (v : option ocr_result) (s1 : state) (t : list call),
        extract_sign_number sample_image_to_string sample_image_to_data
          sample_float b s0 = (inr v, s1)
        /\ trace s1 = trace s0 ++ t
        /\ length t = calls_for sample_image_to_string b
        /\ (8 <= length t <= 16)%nat)
  /\ (exists (r : list SignDetection * list box) (s' : state)
             (t : list call),
        process_image sample_image_to_string sample_image_to_data
          sample_float 1000 800 [(100, 100, 30, 40)] (mk_state [] [])
        = (inr r, s')
        /\ trace s' = trace (mk_state [] []) ++ t
        /\ length t
           = foldr Nat.add 0%nat
               (map (calls_for sample_image_to_string) [(100, 100, 30, 40)])
        /\ (8 * length [(100, 100, 30, 40)] <= length t
            <= 16 * length [(100, 100, 30, 40)])%nat).
Proof.
  apply (engine_invocations_per_box sample_image_to_string
           sample_image_to_data sample_float 1000 800); lia.
Defined.

End CallsFacts.
